(** * Looker Studio dynamic JSON connector: a shallow embedding of [src/Code.js]

    The connector fetches a JSON document, optionally caches it in chunks,
    discovers a schema from the first row and projects rows onto requested
    fields.  This file embeds the functions of [Code.js] as Rocq functions
    over an explicit model of JavaScript values and proves properties of
    them.

    Conventions of the model.
    - A JavaScript string is a [string] of 8-bit characters.  Character
      classes ([\s], [toLowerCase], [\b]) are the ASCII ones, so the
      model is exact on ASCII text ([Str.is_ascii], [JS.ascii_text]);
      the statements that depend on white space or on the case of
      letters are made for such text.
    - A number is an integer, [NaN] or an infinity; the connector never
      does arithmetic on the numbers of the payload.
    - An object is the list of its own enumerable properties in the order
      [Object.keys] lists them, each key once; property lookup is
      own-property lookup.  Members inherited from the built-in
      prototypes are functions and objects of the engine, for which the
      model has no value: [JS.may_inherit] tells the names concerned,
      and the statements about a lookup that finds no own property are
      made for the other names.
    - A thrown exception is the [Throw] outcome of a [result].
    - Built-ins whose behaviour belongs to the host (HTTP fetch, the JSON
      codec, the part of [Date.parse] outside the ISO format, the cache
      quota) are the fields of a [Host] record; [Ref] gives a concrete
      host for running the connector on sample payloads.
    - The cache store and the list of urls fetched so far make up the
      [World] that [fetchJSON], [getCachedData] and [fetchData] thread. *)

From Stdlib Require Import ZArith List Bool Ascii String Lia.
From stdpp Require Import gmap strings.

Import ListNotations.
Local Open Scope string_scope.
Local Open Scope Z_scope.

(** ** Characters and strings *)

Module Str.

Definition code (c : ascii) : Z := Z.of_nat (nat_of_ascii c).

Definition in_range (lo hi : Z) (c : ascii) : bool :=
  (lo <=? code c) && (code c <=? hi).

Definition is_digit (c : ascii) : bool := in_range 48 57 c.
Definition is_upper (c : ascii) : bool := in_range 65 90 c.
Definition is_lower (c : ascii) : bool := in_range 97 122 c.
Definition is_alpha (c : ascii) : bool := is_upper c || is_lower c.

(** [\w] of a regular expression without the unicode flag. *)
Definition is_word (c : ascii) : bool :=
  is_alpha c || is_digit c || (code c =? 95).

(** [\s]: tab, line feed, vertical tab, form feed, carriage return, space. *)
Definition is_space (c : ascii) : bool :=
  in_range 9 13 c || (code c =? 32).

Definition to_lower (c : ascii) : ascii :=
  if is_upper c then ascii_of_nat (nat_of_ascii c + 32) else c.

Definition dquote : ascii := ascii_of_nat 34.
Definition underscore : ascii := ascii_of_nat 95.
Definition dot : ascii := ascii_of_nat 46.
Definition comma : ascii := ascii_of_nat 44.

Fixpoint map (f : ascii -> ascii) (s : string) : string :=
  match s with
  | EmptyString => EmptyString
  | String c r => String (f c) (map f r)
  end.

(** [s.replace(/\s/g, '_')] *)
Definition replace_spaces (s : string) : string :=
  map (fun c => if is_space c then underscore else c) s.

(** [s.toLowerCase()] *)
Definition toLowerCase (s : string) : string := map to_lower s.

(** [s.replace('.', '_')]: a string pattern replaces the first
    occurrence only. *)
Fixpoint replace_first_dot (s : string) : string :=
  match s with
  | EmptyString => EmptyString
  | String c r =>
      if Ascii.eqb c dot then String underscore r
      else String c (replace_first_dot r)
  end.

(** [s.split(sep)] for a one-character separator: never empty. *)
Fixpoint split (sep : ascii) (s : string) : list string :=
  match s with
  | EmptyString => [EmptyString]
  | String c r =>
      if Ascii.eqb c sep then EmptyString :: split sep r
      else match split sep r with
           | [] => [String c EmptyString]
           | w :: ws => String c w :: ws
           end
  end.

(** [parts.join(sep)] *)
Fixpoint join (sep : string) (parts : list string) : string :=
  match parts with
  | [] => EmptyString
  | [p] => p
  | p :: ps => String.append p (String.append sep (join sep ps))
  end.

Fixpoint filter (f : ascii -> bool) (s : string) : string :=
  match s with
  | EmptyString => EmptyString
  | String c r => if f c then String c (filter f r) else filter f r
  end.

Fixpoint forallb (f : ascii -> bool) (s : string) : bool :=
  match s with
  | EmptyString => true
  | String c r => f c && forallb f r
  end.

Fixpoint drop_while (f : ascii -> bool) (s : string) : string :=
  match s with
  | EmptyString => EmptyString
  | String c r => if f c then drop_while f r else s
  end.

Fixpoint take_while (f : ascii -> bool) (s : string) : string :=
  match s with
  | EmptyString => EmptyString
  | String c r => if f c then String c (take_while f r) else EmptyString
  end.

Fixpoint rev_onto (s acc : string) : string :=
  match s with
  | EmptyString => acc
  | String c r => rev_onto r (String c acc)
  end.

Definition rev (s : string) : string := rev_onto s EmptyString.

(** [s.startsWith(p)], with the rest of [s] after the prefix. *)
Fixpoint strip_prefix (p s : string) : option string :=
  match p with
  | EmptyString => Some s
  | String a p' =>
      match s with
      | String b s' => if Ascii.eqb a b then strip_prefix p' s' else None
      | EmptyString => None
      end
  end.

(** [s.slice(-2)]: the last two characters (all of [s] when shorter). *)
Definition slice_last2 (s : string) : string :=
  let n := String.length s in
  String.substring (n - 2) 2 s.

(** Decimal digits of a natural number, most significant first. *)
Definition digit_char (d : Z) : ascii := ascii_of_nat (Z.to_nat (48 + d)).

Fixpoint digits_fuel (fuel : nat) (n : Z) (acc : string) : string :=
  match fuel with
  | O => acc
  | S f =>
      let acc' := String (digit_char (n mod 10)) acc in
      if n <? 10 then acc' else digits_fuel f (n / 10) acc'
  end.

Definition of_nonneg (n : Z) : string :=
  digits_fuel (S (Z.to_nat (Z.log2 n))) n EmptyString.

(** Decimal rendering of an integer, as [Number.prototype.toString]
    prints an integer-valued number. *)
Definition of_Z (z : Z) : string :=
  if z <? 0 then String (ascii_of_nat 45) (of_nonneg (- z)) else of_nonneg z.

Definition digit_value (c : ascii) : Z := code c - 48.

Fixpoint digits_value (acc : Z) (s : string) : Z :=
  match s with
  | EmptyString => acc
  | String c r => digits_value (10 * acc + digit_value c) r
  end.

(** A canonical array index: decimal digits without a leading zero. *)
Definition array_index (s : string) : option nat :=
  match s with
  | EmptyString => None
  | String c r =>
      if forallb is_digit s && (negb (Ascii.eqb c "0"%char) || String.eqb r EmptyString)
      then Some (Z.to_nat (digits_value 0 s))
      else None
  end.

Definition quoted (s : string) : string :=
  String dquote (String.append s (String dquote EmptyString)).

Definition starts_with_digit (s : string) : bool :=
  match s with
  | String c _ => is_digit c
  | EmptyString => false
  end.

(** Two decimal digits of a number below 100. *)
Definition two_digits (n : Z) : string :=
  String (digit_char (n / 10)) (String (digit_char (n mod 10)) EmptyString).

(** Text of ASCII characters.  On such text the character classes and
    the case mapping of this module are those of the engine. *)
Definition is_ascii_char (c : ascii) : bool := code c <? 128.

Definition is_ascii (s : string) : bool := forallb is_ascii_char s.

End Str.


(** ** JavaScript values and outcomes *)

Set Warnings "-register-all".

Inductive number : Type :=
| Fin (z : Z)
| PosInf
| NegInf
| NaN.

Inductive value : Type :=
| VUndefined
| VNull
| VBool (b : bool)
| VNum (n : number)
| VStr (s : string)
| VArr (elems : list value)
| VObj (props : list (string * value)).

Inductive exn : Type :=
| TypeError
| SyntaxError
| HostError (msg : string)
| UserError (msg : string).

Inductive result (A : Type) : Type :=
| Ok (a : A)
| Throw (e : exn).

Arguments Ok {A} a.
Arguments Throw {A} e.

Definition bind {A B : Type} (r : result A) (k : A -> result B) : result B :=
  match r with
  | Ok a => k a
  | Throw e => Throw e
  end.

Declare Scope result_scope.
Delimit Scope result_scope with result.
Notation "'let*' x ':=' r 'in' k" := (bind r (fun x => k))
  (at level 10, x pattern, r at level 100, k at level 200) : result_scope.
Local Open Scope result_scope.

(** [cc.newUserError().setText(message).throwException()] *)
Definition sendUserError {A : Type} (message : string) : result A :=
  Throw (UserError message).


Inductive jstype : Type :=
| TyUndefined
| TyObject
| TyBoolean
| TyNumber
| TyString.

Module JS.

Definition typeof (v : value) : jstype :=
  match v with
  | VUndefined => TyUndefined
  | VNull | VArr _ | VObj _ => TyObject
  | VBool _ => TyBoolean
  | VNum _ => TyNumber
  | VStr _ => TyString
  end.

Definition jstype_eqb (a b : jstype) : bool :=
  match a, b with
  | TyUndefined, TyUndefined | TyObject, TyObject | TyBoolean, TyBoolean
  | TyNumber, TyNumber | TyString, TyString => true
  | _, _ => false
  end.

Definition isArray (v : value) : bool :=
  match v with VArr _ => true | _ => false end.

(** [v === null] *)
Definition is_null (v : value) : bool :=
  match v with VNull => true | _ => false end.

(** [v === undefined] *)
Definition is_undefined (v : value) : bool :=
  match v with VUndefined => true | _ => false end.

(** [v == null]: loose equality holds for null and undefined only. *)
Definition loosely_null (v : value) : bool := is_null v || is_undefined v.

(** ToBoolean *)
Definition truthy (v : value) : bool :=
  match v with
  | VUndefined | VNull => false
  | VBool b => b
  | VNum (Fin z) => negb (z =? 0)
  | VNum NaN => false
  | VNum _ => true
  | VStr s => negb (String.eqb s "")
  | VArr _ | VObj _ => true
  end.

Definition number_toString (n : number) : string :=
  match n with
  | Fin z => Str.of_Z z
  | PosInf => "Infinity"
  | NegInf => "-Infinity"
  | NaN => "NaN"
  end.

Fixpoint assoc (k : string) (props : list (string * value)) : option value :=
  match props with
  | [] => None
  | (k', v) :: rest => if String.eqb k' k then Some v else assoc k rest
  end.

Definition has_own (k : string) (props : list (string * value)) : bool :=
  match assoc k props with Some _ => true | None => false end.

(** ToString.  An array joins the strings of its elements with commas,
    null and undefined elements giving the empty string.  A plain object
    gives "[object Object]" through [Object.prototype.toString]; an own
    property named toString (never callable in data built by
    [JSON.parse]) shadows that method and the conversion throws. *)
Fixpoint toString (v : value) : result string :=
  match v with
  | VUndefined => Ok "undefined"
  | VNull => Ok "null"
  | VBool true => Ok "true"
  | VBool false => Ok "false"
  | VNum n => Ok (number_toString n)
  | VStr s => Ok s
  | VArr elems =>
      let fix go (l : list value) : result (list string) :=
        match l with
        | [] => Ok []
        | x :: rest =>
            let* s := (match x with
                       | VUndefined | VNull => Ok ""
                       | _ => toString x
                       end) in
            let* ss := go rest in
            Ok (s :: ss)
        end in
      let* parts := go elems in
      Ok (Str.join "," parts)
  | VObj props =>
      if has_own "toString" props then Throw TypeError
      else Ok "[object Object]"
  end.

(** The index keys of an array or string of length [n]. *)
Definition index_keys (n : nat) : list string :=
  List.map (fun i => Str.of_Z (Z.of_nat i)) (seq 0 n).

(** [Object.keys(v)]; a primitive is wrapped first, so only strings
    have keys among them.  Throws on null and undefined. *)
Definition keys (v : value) : result (list string) :=
  match v with
  | VUndefined | VNull => Throw TypeError
  | VBool _ | VNum _ => Ok []
  | VStr s => Ok (index_keys (String.length s))
  | VArr elems => Ok (index_keys (List.length elems))
  | VObj props => Ok (List.map fst props)
  end.

(** The keys a [for (key in v)] loop visits; null and undefined give
    no iteration. *)
Definition for_in_keys (v : value) : list string :=
  match keys v with
  | Ok ks => ks
  | Throw _ => []
  end.

(** [v[k]] for a string [k]: own properties, array elements and
    lengths, string characters and lengths.  Reading a property of
    null or undefined throws.  This is the engine's answer whenever
    there is an own property, and otherwise when [may_inherit v k] is
    false (below). *)
Definition get (v : value) (k : string) : result value :=
  match v with
  | VUndefined | VNull => Throw TypeError
  | VBool _ | VNum _ => Ok VUndefined
  | VStr s =>
      if String.eqb k "length" then Ok (VNum (Fin (Z.of_nat (String.length s))))
      else match Str.array_index k with
           | Some i =>
               match String.get i s with
               | Some c => Ok (VStr (String c EmptyString))
               | None => Ok VUndefined
               end
           | None => Ok VUndefined
           end
  | VArr elems =>
      if String.eqb k "length" then Ok (VNum (Fin (Z.of_nat (List.length elems))))
      else match Str.array_index k with
           | Some i => Ok (nth i elems VUndefined)
           | None => Ok VUndefined
           end
  | VObj props =>
      match assoc k props with
      | Some x => Ok x
      | None => Ok VUndefined
      end
  end.

(** *** Members of the built-in prototypes

    [get] answers from the own properties of a value.  The engine goes
    on to the prototype chain when there is no own property: for these
    names [v[k]] is a function or an object of the engine, which the
    model has no value for.  The lists hold the names the standard gives
    to the prototypes (Annex B included) and those of legacy engines; a
    name too many only narrows the statements that assume
    [may_inherit v k = false]. *)

Definition Object_prototype_names : list string :=
  ["constructor"; "hasOwnProperty"; "isPrototypeOf"; "propertyIsEnumerable";
   "toLocaleString"; "toString"; "valueOf"; "__proto__";
   "__defineGetter__"; "__defineSetter__"; "__lookupGetter__"; "__lookupSetter__";
   "toSource"; "watch"; "unwatch"; "__noSuchMethod__"; "__parent__"; "__count__"].

Definition Array_prototype_names : list string :=
  ["at"; "concat"; "copyWithin"; "entries"; "every"; "fill"; "filter"; "find";
   "findIndex"; "findLast"; "findLastIndex"; "flat"; "flatMap"; "forEach";
   "includes"; "indexOf"; "join"; "keys"; "lastIndexOf"; "map"; "pop"; "push";
   "reduce"; "reduceRight"; "reverse"; "shift"; "slice"; "some"; "sort"; "splice";
   "toReversed"; "toSorted"; "toSpliced"; "unshift"; "values"; "with";
   "group"; "groupToMap"; "groupBy"].

Definition String_prototype_names : list string :=
  ["at"; "charAt"; "charCodeAt"; "codePointAt"; "concat"; "endsWith"; "includes";
   "indexOf"; "isWellFormed"; "lastIndexOf"; "localeCompare"; "match"; "matchAll";
   "normalize"; "padEnd"; "padStart"; "repeat"; "replace"; "replaceAll"; "search";
   "slice"; "split"; "startsWith"; "substring"; "toLocaleLowerCase";
   "toLocaleUpperCase"; "toLowerCase"; "toUpperCase"; "toWellFormed"; "trim";
   "trimEnd"; "trimStart"; "trimLeft"; "trimRight"; "substr"; "anchor"; "big";
   "blink"; "bold"; "fixed"; "fontcolor"; "fontsize"; "italics"; "link"; "small";
   "strike"; "sub"; "sup"; "equals"; "equalsIgnoreCase"; "contains"; "quote"].

Definition Number_prototype_names : list string :=
  ["toExponential"; "toFixed"; "toPrecision"].

Definition member (k : string) (names : list string) : bool :=
  existsb (String.eqb k) names.

(** Whether [v[k]] may be answered by the prototype chain of [v]. *)
Definition may_inherit (v : value) (k : string) : bool :=
  match v with
  | VUndefined | VNull => false
  | VBool _ => member k Object_prototype_names
  | VNum _ => member k Number_prototype_names || member k Object_prototype_names
  | VStr _ => member k String_prototype_names || member k Object_prototype_names
  | VArr _ => member k Array_prototype_names || member k Object_prototype_names
  | VObj _ => member k Object_prototype_names
  end.

(** A name that some prototype has. *)
Definition builtin_name (k : string) : bool :=
  member k Object_prototype_names || member k Array_prototype_names
  || member k String_prototype_names || member k Number_prototype_names.

(** Every property name and every string of the value is ASCII text. *)
Fixpoint ascii_text (v : value) : bool :=
  match v with
  | VStr s => Str.is_ascii s
  | VArr elems => List.forallb ascii_text elems
  | VObj props =>
      List.forallb (fun kv => Str.is_ascii (fst kv) && ascii_text (snd kv)) props
  | VUndefined | VNull | VBool _ | VNum _ => true
  end.

End JS.

(** ** Numeric strings: [parseFloat] and [isFinite]

    White space is the ASCII white space: the functions of this module
    are those of the engine on ASCII text. *)

Module Num.

Definition is_sign (c : ascii) : bool :=
  (Str.code c =? 43) || (Str.code c =? 45).

Definition is_minus (c : ascii) : bool := Str.code c =? 45.

Definition drop_sign (s : string) : string :=
  match s with
  | String c r => if is_sign c then r else s
  | EmptyString => s
  end.

Definition trim (s : string) : string :=
  Str.rev (Str.drop_while Str.is_space (Str.rev (Str.drop_while Str.is_space s))).

Definition starts_decimal (s : string) : bool :=
  match s with
  | String c r =>
      Str.is_digit c
      || (Ascii.eqb c Str.dot
          && match r with String d _ => Str.is_digit d | EmptyString => false end)
  | EmptyString => false
  end.

(** [isNaN(parseFloat(s))]: [parseFloat] skips leading white space and
    reads the longest prefix that is a signed decimal literal or
    Infinity; it gives NaN when there is no such prefix. *)
Definition parseFloat_isNaN_string (s : string) : bool :=
  let u := drop_sign (Str.drop_while Str.is_space s) in
  negb (starts_decimal u
        || match Str.strip_prefix "Infinity" u with Some _ => true | None => false end).

(** [isNaN(parseFloat(v))]: the argument is converted to a string first. *)
Definition parseFloat_isNaN (v : value) : result bool :=
  let* s := JS.toString v in
  Ok (parseFloat_isNaN_string s).

(** Values from [2^1024 - 2^970] on round to an infinity. *)
Definition overflow_threshold : Z := 2 ^ 1024 - 2 ^ 970.

(** Whether [m * 10^e] (with [0 <= m]) is below the overflow threshold. *)
Definition magnitude_finite (m e : Z) : bool :=
  if m =? 0 then true
  else if 0 <=? e then
    if e <=? 400 then m * 10 ^ e <? overflow_threshold else false
  else if Z.of_nat (String.length (Str.of_nonneg m)) <=? - e then true
  else m <? overflow_threshold * 10 ^ (- e).

Definition is_exp_mark (c : ascii) : bool :=
  (Str.code c =? 101) || (Str.code c =? 69).

(** An unsigned decimal literal covering all of [s], and finite. *)
Definition decimal_finite (s : string) : bool :=
  let ip := Str.take_while Str.is_digit s in
  let r1 := Str.drop_while Str.is_digit s in
  let fp := match r1 with
            | String c r => if Ascii.eqb c Str.dot then Str.take_while Str.is_digit r
                            else EmptyString
            | EmptyString => EmptyString
            end in
  let r2 := match r1 with
            | String c r => if Ascii.eqb c Str.dot then Str.drop_while Str.is_digit r
                            else r1
            | EmptyString => r1
            end in
  let mant := Str.digits_value 0 (String.append ip fp) in
  let scale := Z.of_nat (String.length fp) in
  if String.eqb ip "" && String.eqb fp "" then false
  else match r2 with
       | EmptyString => magnitude_finite mant (- scale)
       | String c r3 =>
           if is_exp_mark c then
             let ds := drop_sign r3 in
             let neg := match r3 with String x _ => is_minus x | EmptyString => false end in
             let e := Str.digits_value 0 ds in
             if negb (String.eqb ds "") && Str.forallb Str.is_digit ds
             then magnitude_finite mant ((if neg then - e else e) - scale)
             else false
           else false
       end.

Definition radix_digit (radix : Z) (c : ascii) : option Z :=
  let d := if Str.is_digit c then Str.code c - 48
           else if Str.in_range 97 102 c then Str.code c - 87
           else if Str.in_range 65 70 c then Str.code c - 55
           else 99 in
  if d <? radix then Some d else None.

Fixpoint radix_value (radix acc : Z) (s : string) : option Z :=
  match s with
  | EmptyString => Some acc
  | String c r =>
      match radix_digit radix c with
      | Some d => radix_value radix (radix * acc + d) r
      | None => None
      end
  end.

(** The radix of a [0x], [0o] or [0b] literal, and its digits. *)
Definition radix_prefix (s : string) : option (Z * string) :=
  match s with
  | String z (String x r) =>
      if Ascii.eqb z "0"%char then
        if (Str.code x =? 120) || (Str.code x =? 88) then Some (16, r)
        else if (Str.code x =? 111) || (Str.code x =? 79) then Some (8, r)
        else if (Str.code x =? 98) || (Str.code x =? 66) then Some (2, r)
        else None
      else None
  | _ => None
  end.

(** [isFinite(s)] for a string: the whole trimmed string must be a
    numeric literal (the empty string counts as 0) with a finite value. *)
Definition isFinite_string (s : string) : bool :=
  let t := trim s in
  if String.eqb t "" then true
  else match radix_prefix t with
       | Some (radix, ds) =>
           match ds, radix_value radix 0 ds with
           | String _ _, Some n => n <? overflow_threshold
           | _, _ => false
           end
       | None => decimal_finite (drop_sign t)
       end.

(** The first rule of [getSemanticType] on a string:
    [!isNaN(parseFloat(s)) && isFinite(s)]. *)
Definition numeric_string (s : string) : bool :=
  negb (parseFloat_isNaN_string s) && isFinite_string s.

(** [isFinite(v)]: ToNumber, then a finiteness test.  Arrays and
    objects convert through their string form. *)
Definition isFinite (v : value) : result bool :=
  match v with
  | VUndefined => Ok false
  | VNull | VBool _ => Ok true
  | VNum (Fin _) => Ok true
  | VNum _ => Ok false
  | VStr s => Ok (isFinite_string s)
  | VArr _ | VObj _ =>
      let* s := JS.toString v in
      Ok (isFinite_string s)
  end.

(** [parseInt(s)] for a string: optional sign, optional [0x] prefix,
    then the longest run of digits; [None] stands for NaN.  The result
    is the integer the digits denote; the Number of the source is that
    integer as long as it is below 2^53 in absolute value. *)
Fixpoint radix_run (radix acc : Z) (s : string) : Z :=
  match s with
  | EmptyString => acc
  | String c r =>
      match radix_digit radix c with
      | Some d => radix_run radix (radix * acc + d) r
      | None => acc
      end
  end.

Definition parseInt_string (s : string) : option Z :=
  let t := Str.drop_while Str.is_space s in
  let neg := match t with String c _ => is_minus c | EmptyString => false end in
  let u := drop_sign t in
  let '(radix, ds) := match radix_prefix u with
                      | Some (16, r) => (16, r)
                      | _ => (10, u)
                      end in
  match ds with
  | String c _ =>
      match radix_digit radix c with
      | Some _ => let n := radix_run radix 0 ds in Some (if neg then - n else n)
      | None => None
      end
  | EmptyString => None
  end.

(** [parseInt(v)]: the argument is converted to a string first. *)
Definition parseInt (v : value) : result (option Z) :=
  let* s := JS.toString v in
  Ok (parseInt_string s).

End Num.

(** ** Regular expressions of the connector *)

Module Regex.

(** The fragment of regular expressions the source uses.  A character
    class is a predicate; under the [i] flag a class of letters is
    written with both cases. *)
Inductive re : Type :=
| Chr (p : ascii -> bool)
| Lit (c : ascii)
| Dot
| Seq (r1 r2 : re)
| Opt (r : re)
| Rep (lo : nat) (hi : option nat) (r : re)
| WordBoundary
| Bol
| Eol.

Definition word_before (prev : option ascii) : bool :=
  match prev with Some c => Str.is_word c | None => false end.

Definition word_after (s : string) : bool :=
  match s with String c _ => Str.is_word c | EmptyString => false end.

(** A line terminator at the head of [s]: line feed, carriage return,
    or the separators U+2028 and U+2029, three bytes each in this model
    of strings. *)
Definition line_terminator_ahead (s : string) : bool :=
  match s with
  | String a rest =>
      (Str.code a =? 10) || (Str.code a =? 13)
      || match rest with
         | String b (String c _) =>
             (Str.code a =? 226) && (Str.code b =? 128)
             && ((Str.code c =? 168) || (Str.code c =? 169))
         | _ => false
         end
  | EmptyString => false
  end.

(** The loop of a bounded repetition: [done] iterations are behind,
    at most [fuel] more may follow, and the continuation runs once [lo]
    are reached. *)
Fixpoint rep_loop (step : option ascii -> string ->
                          (option ascii -> string -> bool) -> bool)
         (lo : nat) (k : option ascii -> string -> bool)
         (fuel done : nat) (prev : option ascii) (s : string) : bool :=
  let stop := if (lo <=? done)%nat then k prev s else false in
  match fuel with
  | O => stop
  | S fuel' =>
      if step prev s (fun p' s' => rep_loop step lo k fuel' (S done) p' s')
      then true else stop
  end.

(** Backtracking matcher in continuation style: [accepts r prev s k]
    holds when [r] matches a prefix of [s] (the character before [s]
    being [prev]) and [k] accepts what follows. *)
Fixpoint accepts (r : re) (prev : option ascii) (s : string)
         (k : option ascii -> string -> bool) {struct r} : bool :=
  match r with
  | Chr p =>
      match s with
      | String c rest => if p c then k (Some c) rest else false
      | EmptyString => false
      end
  | Lit a =>
      match s with
      | String c rest => if Ascii.eqb a c then k (Some c) rest else false
      | EmptyString => false
      end
  | Dot =>
      match s with
      | String c rest => if line_terminator_ahead s then false else k (Some c) rest
      | EmptyString => false
      end
  | Seq r1 r2 => accepts r1 prev s (fun p' s' => accepts r2 p' s' k)
  | Opt r1 => if accepts r1 prev s k then true else k prev s
  | Rep lo hi r1 =>
      let bound := match hi with
                   | Some h => h
                   | None => (lo + String.length s)%nat
                   end in
      rep_loop (accepts r1) lo k bound O prev s
  | WordBoundary => if xorb (word_before prev) (word_after s) then k prev s else false
  | Bol => match prev with None => k prev s | Some _ => false end
  | Eol => match s with EmptyString => k prev s | String _ _ => false end
  end.

(** [k'] accepts whatever [k] accepts. *)
Definition continuation_le (k k' : option ascii -> string -> bool) : Prop :=
  forall p t, k p t = true -> k' p t = true.

(** Whether [r] matches somewhere in [s]: what [s.match(r)] tests when
    its result is used as a condition. *)
Fixpoint matches_from (r : re) (prev : option ascii) (s : string) : bool :=
  if accepts r prev s (fun _ _ => true) then true
  else match s with
       | String c rest => matches_from r (Some c) rest
       | EmptyString => false
       end.

Definition matches (r : re) (s : string) : bool := matches_from r None s.

Fixpoint lit (s : string) : re :=
  match s with
  | EmptyString => Rep 0 (Some 0%nat) Bol
  | String c EmptyString => Lit c
  | String c rest => Seq (Lit c) (lit rest)
  end.

(** [^https?:\/\/] followed by [tail]. *)
Definition http_then (tail : re) : re :=
  Seq Bol (Seq (lit "http") (Seq (Opt (Lit "s"%char)) (Seq (lit "://") tail))).

(** [/^https?:\/\/.+$/g] *)
Definition http_url : re := http_then (Seq (Rep 1 None Dot) Eol).

(** [url.match(/^https?:\/\/.+$/g)] used as a condition. *)
Definition is_http_url (s : string) : bool := matches http_url s.

(** The pattern as the specification words it, [^https?://.+], with
    no anchor at the end. *)
Definition http_prefix : re := http_then (Rep 1 None Dot).

(** The class [[-a-zA-Z0-9@:%_\+.~#?&//=]]. *)
Definition url_char (c : ascii) : bool :=
  Str.is_alpha c || Str.is_digit c
  || existsb (Ascii.eqb c)
       ["-"; "@"; ":"; "%"; "_"; "+"; "."; "~"; "#"; "?"; "&"; "/"; "="]%char.

(** The pattern of [getSemanticType], with flags [gi]: two to 256
    characters of the class, a dot, two to four letters, a word boundary
    and optionally a slash followed by any number of class characters. *)
Definition url_shape : re :=
  Seq (Rep 2 (Some 256%nat) (Chr url_char))
    (Seq (Lit "."%char)
      (Seq (Rep 2 (Some 4%nat) (Chr Str.is_alpha))
        (Seq WordBoundary
          (Opt (Seq (Lit "/"%char) (Rep 0 None (Chr url_char))))))).

Definition looks_like_url (s : string) : bool := matches url_shape s.

End Regex.

(** ** Dates *)

Module Date.

Definition ms_per_day : Z := 86400000.
Definition ms_per_hour : Z := 3600000.

(** Era-based conversion between a day number (days since 1970-01-01)
    and a proleptic Gregorian calendar date. *)

Definition days_from_civil (y m d : Z) : Z :=
  let y' := if m <=? 2 then y - 1 else y in
  let era := y' / 400 in
  let yoe := y' - era * 400 in
  let doy := (153 * (if 2 <? m then m - 3 else m + 9) + 2) / 5 + d - 1 in
  let doe := yoe * 365 + yoe / 4 - yoe / 100 + doy in
  era * 146097 + doe - 719468.

Definition day_of_era (days : Z) : Z := (days + 719468) mod 146097.

Definition year_of_era (doe : Z) : Z :=
  (doe - doe / 1460 + doe / 36524 - doe / 146096) / 365.

Definition day_of_year (doe : Z) : Z :=
  let yoe := year_of_era doe in
  doe - (365 * yoe + yoe / 4 - yoe / 100).

(** Month index counted from March. *)
Definition month_from_march (doe : Z) : Z := (5 * day_of_year doe + 2) / 153.

(** Month of the year, 1 to 12. *)
Definition civil_month (doe : Z) : Z :=
  let mp := month_from_march doe in
  if mp <? 10 then mp + 3 else mp - 9.

(** Day of the month, 1 to 31. *)
Definition civil_day (doe : Z) : Z :=
  day_of_year doe - (153 * month_from_march doe + 2) / 5 + 1.

Definition civil_year (days : Z) : Z :=
  let era := (days + 719468) / 146097 in
  let doe := day_of_era days in
  let y := year_of_era doe + era * 400 in
  if civil_month doe <=? 2 then y + 1 else y.

(** A date object holds a time value in milliseconds since the epoch,
    or is invalid ([None], the NaN time value). *)
Definition date : Type := option Z.

Definition day_number (t : Z) : Z := t / ms_per_day.

Definition getUTCFullYear (d : date) : number :=
  match d with Some t => Fin (civil_year (day_number t)) | None => NaN end.

(** Months count from 0. *)
Definition getUTCMonth (d : date) : number :=
  match d with
  | Some t => Fin (civil_month (day_of_era (day_number t)) - 1)
  | None => NaN
  end.

Definition getUTCDate (d : date) : number :=
  match d with
  | Some t => Fin (civil_day (day_of_era (day_number t)))
  | None => NaN
  end.

Definition getUTCHours (d : date) : number :=
  match d with Some t => Fin ((t / ms_per_hour) mod 24) | None => NaN end.

(** TimeClip: time values beyond 8.64e15 ms are invalid. *)
Definition time_clip (t : Z) : date :=
  if Z.abs t <=? 8640000000000000 then Some t else None.

(** *** The ISO date-time string format, UTC forms *)

Definition is_leap (y : Z) : bool :=
  ((y mod 4 =? 0) && negb (y mod 100 =? 0)) || (y mod 400 =? 0).

Definition days_in_month (y m : Z) : Z :=
  if m =? 2 then (if is_leap y then 29 else 28)
  else if (m =? 4) || (m =? 6) || (m =? 9) || (m =? 11) then 30
  else 31.

(** Exactly [n] digits at the head of [s]: their value and the rest. *)
Fixpoint take_digits (n : nat) (acc : Z) (s : string) : option (Z * string) :=
  match n with
  | O => Some (acc, s)
  | S n' =>
      match s with
      | String c r =>
          if Str.is_digit c then take_digits n' (10 * acc + Str.digit_value c) r
          else None
      | EmptyString => None
      end
  end.

Definition expect (c : ascii) (s : string) : option string :=
  match s with
  | String a r => if Ascii.eqb a c then Some r else None
  | EmptyString => None
  end.

Definition utc_time (y m d hh mm ss ms : Z) : date :=
  if (1 <=? m) && (m <=? 12) && (1 <=? d) && (d <=? days_in_month y m)
     && (hh <=? 23) && (mm <=? 59) && (ss <=? 59)
  then Some (days_from_civil y m d * ms_per_day
             + hh * ms_per_hour + mm * 60000 + ss * 1000 + ms)
  else None.

(** The time part after [T]: [HH:mm], [HH:mm:ss] or [HH:mm:ss.sss],
    closed by [Z]. *)
Definition parse_time_utc (y m d : Z) (s : string) : date :=
  match take_digits 2 0 s with
  | Some (hh, s1) =>
      match expect ":" s1 with
      | Some s2 =>
          match take_digits 2 0 s2 with
          | Some (mm, s3) =>
              if String.eqb s3 "Z" then utc_time y m d hh mm 0 0
              else match expect ":" s3 with
                   | Some s4 =>
                       match take_digits 2 0 s4 with
                       | Some (ss, s5) =>
                           if String.eqb s5 "Z" then utc_time y m d hh mm ss 0
                           else match expect "." s5 with
                                | Some s6 =>
                                    match take_digits 3 0 s6 with
                                    | Some (ms, s7) =>
                                        if String.eqb s7 "Z"
                                        then utc_time y m d hh mm ss ms
                                        else None
                                    | None => None
                                    end
                                | None => None
                                end
                       | None => None
                       end
                   | None => None
                   end
          | None => None
          end
      | None => None
      end
  | None => None
  end.

(** The forms of the date-time string format whose meaning does not
    depend on the local time zone: the date-only forms [YYYY],
    [YYYY-MM], [YYYY-MM-DD] (read as UTC) and the date-time forms that
    end in [Z]. *)
Definition parse_iso_utc (s : string) : date :=
  match take_digits 4 0 s with
  | Some (y, s1) =>
      if String.eqb s1 "" then utc_time y 1 1 0 0 0 0
      else match expect "-" s1 with
           | Some s2 =>
               match take_digits 2 0 s2 with
               | Some (m, s3) =>
                   if String.eqb s3 "" then utc_time y m 1 0 0 0 0
                   else match expect "-" s3 with
                        | Some s4 =>
                            match take_digits 2 0 s4 with
                            | Some (d, s5) =>
                                if String.eqb s5 "" then utc_time y m d 0 0 0 0
                                else match expect "T" s5 with
                                     | Some s6 => parse_time_utc y m d s6
                                     | None => None
                                     end
                            | None => None
                            end
                        | None => None
                        end
               | None => None
               end
           | None => None
           end
  | None => None
  end.

End Date.

(** ** The host *)

(** What the connector takes from its environment.  [UrlFetchApp_fetch]
    gives the body of the response or throws; [JSON_parse] and
    [JSON_stringify] are the JSON codec; [Date_parse_other] is what
    [Date.parse] answers on a string outside the UTC forms of the ISO
    format (local-time forms and implementation-specific formats);
    [cache_accepts] tells whether the cache service takes an entry (it
    refuses keys and values beyond its size limits); [exn_text] is the
    text of an exception appended to a message. *)
Class Host : Type := {
  UrlFetchApp_fetch : string -> result string;
  JSON_parse : string -> result value;
  JSON_stringify : value -> string;
  Date_parse_other : string -> Date.date;
  cache_accepts : string -> string -> bool;
  exn_text : exn -> string
}.

(** The user cache: each entry holds a string and its time to live in
    seconds.  Expiry is the removal of an entry. *)
Record World : Type := {
  cache : gmap string (string * Z);
  fetched : list string
}.

(** [cc.FieldType], the members the connector uses. *)
Inductive FieldType : Type :=
| NUMBER
| BOOLEAN
| URL
| YEAR_MONTH_DAY_HOUR
| TEXT.

Inductive Concept : Type :=
| Metric
| Dimension.

(** A field as [newMetric()] or [newDimension()] followed by [setType],
    [setId] and [setName] leaves it. *)
Record Field : Type := {
  concept : Concept;
  getType : FieldType;
  getId : string;
  getName : string
}.

(** A key handed to [createFields]: a string, [null] or [undefined]. *)
Inductive jskey : Type :=
| KNull
| KUndefined
| KStr (s : string).

Record ConfigParams : Type := {
  url : value;
  cache_flag : value;
  cache_expiry_time : value
}.

Definition FieldType_eqb (a b : FieldType) : bool :=
  match a, b with
  | NUMBER, NUMBER | BOOLEAN, BOOLEAN | URL, URL
  | YEAR_MONTH_DAY_HOUR, YEAR_MONTH_DAY_HOUR | TEXT, TEXT => true
  | _, _ => false
  end.

Module CacheService.

(** Seconds an entry lives when [putAll] is given no expiration. *)
Definition default_ttl : Z := 600.

(** [cache.get(key)]: [None] is the [null] of a missing entry. *)
Definition get (store : gmap string (string * Z)) (key : string) : option string :=
  fst <$> store !! key.

(** [cache.getAll(keys)]: an object with the entries that exist. *)
Fixpoint getAll (store : gmap string (string * Z)) (keys : list string)
  : list (string * string) :=
  match keys with
  | [] => []
  | k :: rest =>
      match get store k with
      | Some v => (k, v) :: getAll store rest
      | None => getAll store rest
      end
  end.

Definition insert_all (ttl : Z) (entries : list (string * string))
           (store : gmap string (string * Z)) : gmap string (string * Z) :=
  fold_left (fun m kv => <[fst kv := (snd kv, ttl)]> m) entries store.

(** [cache.put(key, value, ttl)] *)
Definition put `{Host} (key val : string) (ttl : Z)
           (store : gmap string (string * Z)) : result (gmap string (string * Z)) :=
  if cache_accepts key val then Ok (<[key := (val, ttl)]> store)
  else Throw (HostError "Argument too large").

(** [cache.putAll(values)] *)
Definition putAll `{Host} (entries : list (string * string))
           (store : gmap string (string * Z)) : result (gmap string (string * Z)) :=
  if forallb (fun kv => cache_accepts (fst kv) (snd kv)) entries
  then Ok (insert_all default_ttl entries store)
  else Throw (HostError "Argument too large").

End CacheService.

(** ** The connector *)

Section Connector.

Context `{host : Host}.

(** [Date.parse(s)]: the ISO format first, the host's formats after. *)
Definition Date_parse (s : string) : Date.date :=
  match Date.parse_iso_utc s with
  | Some t => Some t
  | None => Date_parse_other s
  end.

(** [new Date(val)]: a string is parsed, anything else is converted
    to a number of milliseconds.  Arrays and objects convert to their
    string form first. *)
Definition new_Date (val : value) : result Date.date :=
  match val with
  | VUndefined => Ok None
  | VNull => Ok (Some 0)
  | VBool b => Ok (Some (if b then 1 else 0))
  | VNum (Fin z) => Ok (Date.time_clip z)
  | VNum _ => Ok None
  | VStr s => Ok (Date_parse s)
  | VArr _ | VObj _ =>
      let* s := JS.toString val in
      Ok (Date_parse s)
  end.

(** The fetch is recorded in [fetched] whatever its outcome. *)
Definition fetchJSON (u : string) (w : World) : result value * World :=
  let w' := {| cache := cache w; fetched := List.app (fetched w) [u] |} in
  match UrlFetchApp_fetch u with
  | Throw e =>
      (sendUserError (String.append (Str.quoted u)
                        (String.append " returned an error:" (exn_text e))), w')
  | Ok response =>
      match JSON_parse response with
      | Throw e =>
          (sendUserError (String.append "Invalid JSON format. " (exn_text e)), w')
      | Ok content => (Ok content, w')
      end
  end.

(** [isNaN(expiryTime) ? 300 : isFinite(expiryTime) ? expiryTime * 60 : 300].
    The integers of the model stand for the Numbers of the source; the
    two agree while the product stays below 2^53 in absolute value.
    Beyond that the source rounds, and it takes 300 once [parseInt]
    gives an infinity: no statement of this file depends on the lifetime
    of the index entry. *)
Definition cacheExpiryTime (expiryTime : option Z) : Z :=
  match expiryTime with
  | None => 300
  | Some minutes => minutes * 60
  end.

(** [url.replace(/[^a-zA-Z0-9]+/g, '')] *)
Definition cacheKey (u : string) : string :=
  Str.filter (fun c => Str.is_alpha c || Str.is_digit c) u.

Definition keys_suffix : string := ".keys".

Definition indexKey (u : string) : string := String.append (cacheKey u) keys_suffix.

(** [cacheData[k] = v] on the object under construction. *)
Fixpoint obj_set (k v : string) (o : list (string * string)) : list (string * string) :=
  match o with
  | [] => [(k, v)]
  | (k', v') :: rest =>
      if String.eqb k' k then (k, v) :: rest else (k', v') :: obj_set k v rest
  end.

(** [cacheData[k]]: [None] is [undefined]. *)
Fixpoint obj_get (k : string) (o : list (string * string)) : option string :=
  match o with
  | [] => None
  | (k', v) :: rest => if String.eqb k' k then Some v else obj_get k rest
  end.

(** The loop of the miss branch that fills [cacheData]:
    [cacheData[cacheKey + '.' + key] = JSON.stringify(content[key])]. *)
Fixpoint chunk (ck : string) (content : value) (ks : list string)
         (cacheData : list (string * string)) : result (list (string * string)) :=
  match ks with
  | [] => Ok cacheData
  | key :: rest =>
      let* element := JS.get content key in
      chunk ck content rest
        (obj_set (String.append ck (String.append "." key))
                 (JSON_stringify element) cacheData)
  end.

(** The loop of the hit branch: entries that are present are parsed
    and pushed on [content], the others are passed over. *)
Fixpoint reassemble (cacheData : list (string * string)) (cacheKeys : list string)
         (content : list value) : result (list value) :=
  match cacheKeys with
  | [] => Ok content
  | k :: rest =>
      match obj_get k cacheData with
      | Some text =>
          let* element := JSON_parse text in
          reassemble cacheData rest (List.app content [element])
      | None => reassemble cacheData rest content
      end
  end.

(** The array [Object.keys(cacheData)] is stored as a string, its keys
    joined by commas, which is what the hit branch splits.  A write the
    service refuses throws and leaves the store as it was. *)
Definition getCachedData (u : string) (expiry : value) (w : World)
  : result value * World :=
  match Num.parseInt expiry with
  | Throw e => (Throw e, w)
  | Ok expiryTime =>
      let ttl := cacheExpiryTime expiryTime in
      let ck := cacheKey u in
      let cacheKeyString := CacheService.get (cache w) (indexKey u) in
      match cacheKeyString with
      | Some listed =>
          (* [listed.split(',')] is never empty, so an index entry that
             exists always takes this branch *)
          let cacheKeys := Str.split Str.comma listed in
          let cacheData := CacheService.getAll (cache w) cacheKeys in
          match reassemble cacheData cacheKeys [] with
          | Ok content => (Ok (VArr content), w)
          | Throw e => (Throw e, w)
          end
      | None =>
          match fetchJSON u w with
          | (Throw e, w1) => (Throw e, w1)
          | (Ok content, w1) =>
              match chunk ck content (JS.for_in_keys content) [] with
              | Throw e => (Throw e, w1)
              | Ok cacheData =>
                  match CacheService.putAll cacheData (cache w1) with
                  | Throw e => (Throw e, w1)
                  | Ok store1 =>
                      let w2 := {| cache := store1; fetched := fetched w1 |} in
                      match CacheService.put (indexKey u)
                              (Str.join "," (List.map fst cacheData)) ttl store1 with
                      | Throw e => (Throw e, w2)
                      | Ok store2 =>
                          (Ok content, {| cache := store2; fetched := fetched w1 |})
                      end
                  end
              end
          end
      end
  end.

(** [!url || !url.match(...)]: a falsy url is refused without being
    matched; a truthy url that is no string has no [match] method. *)
Definition fetchData (configParams : ConfigParams) (w : World)
  : result value * World :=
  let u := url configParams in
  let valid := match u with
               | VStr s => Ok (Regex.is_http_url s)
               | _ => if JS.truthy u then Throw TypeError else Ok false
               end in
  match valid with
  | Throw e => (Throw e, w)
  | Ok false =>
      match JS.toString u with
      | Ok text => (sendUserError (String.append (Str.quoted text) " is not a valid url."), w)
      | Throw e => (Throw e, w)
      end
  | Ok true =>
      let text := match u with VStr s => s | _ => EmptyString end in
      match (if JS.truthy (cache_flag configParams)
             then getCachedData text (cache_expiry_time configParams) w
             else fetchJSON text w) with
      | (Throw e, w') =>
          (sendUserError
             (String.append
                "Your request could not be cached. The rows of your dataset probably exceed the 100KB cache limit."
                (exn_text e)), w')
      | (Ok content, w') =>
          if negb (JS.truthy content)
          then (sendUserError (String.append (Str.quoted text) " returned no content."), w')
          else (Ok content, w')
      end
  end.

(** The three tests in order.  A number that fails the first is NaN
    or infinite and has no [match] method, so the third test throws on
    it; undefined, null, arrays and objects skip the third test. *)
Definition getSemanticType (val : value) : result FieldType :=
  let* nan := Num.parseFloat_isNaN val in
  let* numeric := (if negb nan then Num.isFinite val else Ok false) in
  if numeric then Ok NUMBER
  else match val with
       | VBool _ => Ok BOOLEAN
       | VUndefined | VNull | VArr _ | VObj _ => Ok TEXT
       | VStr s =>
           if Regex.looks_like_url s then Ok URL
           else match Date_parse s with
                | Some _ => Ok YEAR_MONTH_DAY_HOUR
                | None => Ok TEXT
                end
       | VNum _ => Throw TypeError
       end.

(** [key.replace(/\s/g, '_').toLowerCase()], on ASCII text. *)
Definition normalize (key : string) : string :=
  Str.toLowerCase (Str.replace_spaces key).

Definition createField (fields : list Field) (key : jskey) (val : value)
  : result (list Field) :=
  let* semanticType := getSemanticType val in
  match key with
  | KStr k =>
      Ok (List.app fields
            [{| concept := if FieldType_eqb semanticType NUMBER
                           then Metric else Dimension;
                getType := semanticType;
                getId := normalize k;
                getName := k |}])
  | KNull | KUndefined => Throw TypeError
  end.

Definition getElementKey (key : jskey) (currentKey : string) : jskey :=
  if String.eqb currentKey "" then KUndefined
  else match key with
       | KStr k =>
           KStr (String.append k (String.append "." (Str.replace_first_dot currentKey)))
       | KNull | KUndefined => KStr (Str.replace_first_dot currentKey)
       end.

(** The properties of an object are visited in [Object.keys] order;
    [value[currentKey]] is the value listed with [currentKey]. *)
Fixpoint createFields (fields : list Field) (key : jskey) (val : value)
         (isInline : bool) {struct val} : result (list Field) :=
  match val with
  | VObj props =>
      (fix forEach (ps : list (string * value)) (fields : list Field)
         : result (list Field) :=
         match ps with
         | [] => Ok fields
         | (currentKey, child) :: rest =>
             let elementKey := getElementKey key currentKey in
             let* fields' :=
               (if isInline && negb (JS.loosely_null child)
                then createFields fields elementKey child isInline
                else createField fields (KStr currentKey) val) in
             forEach rest fields'
         end) props fields
  | _ =>
      match key with
      | KNull => Ok fields
      | _ => createField fields key val
      end
  end.

(** [content] as the list of rows: [[content]] unless it is an array. *)
Definition rows_of (content : value) : list value :=
  match content with
  | VArr elems => elems
  | _ => [content]
  end.

(** [content[0]] once [content] is an array. *)
Definition first_row (content : value) : value :=
  nth 0 (rows_of content) VUndefined.

Definition getFields (content : value) : result (list Field) :=
  let sample := first_row content in
  if negb (JS.jstype_eqb (JS.typeof sample) TyObject) || JS.is_null sample
  then sendUserError "Invalid JSON format"
  else match createFields [] KNull sample true with
       | Ok fields => Ok fields
       | Throw _ =>
           sendUserError "Unable to identify the data format of one of your fields."
       end.

Definition number_succ (n : number) : number :=
  match n with
  | Fin z => Fin (z + 1)
  | other => other
  end.

Definition pad2 (n : number) : string :=
  Str.slice_last2 (String.append "0" (JS.number_toString n)).

Definition convertDate (val : value) : result string :=
  let* date := new_Date val in
  Ok (String.append (JS.number_toString (Date.getUTCFullYear date))
       (String.append (pad2 (number_succ (Date.getUTCMonth date)))
         (String.append (pad2 (Date.getUTCDate date))
                        (pad2 (Date.getUTCHours date))))).

Definition validateValue (field : Field) (val : value) : result value :=
  let* val' := (if FieldType_eqb (getType field) YEAR_MONTH_DAY_HOUR
                then let* s := convertDate val in Ok (VStr s)
                else Ok val) in
  match JS.typeof val' with
  | TyString | TyNumber | TyBoolean => Ok val'
  | TyObject => Ok (VStr (JSON_stringify val'))
  | TyUndefined => Ok (VStr "")
  end.

(** The inner loop: the first key whose normalized form is the
    segment. *)
Definition find_normalized (currentPath : string) (keys : list string)
  : option string :=
  List.find (fun k => String.eqb (normalize k) currentPath) keys.

(** The walk along the segments of a field id.  The cursor stays
    among the values of the model as long as no segment is the name of
    a member that a prototype of the cursor provides. *)
Fixpoint getColumnValue (valuePaths : list string) (row : value) : result value :=
  match valuePaths with
  | [] => Ok row
  | currentPath :: rest =>
      let* direct := JS.get row currentPath in
      if JS.is_null direct then Ok (VStr "")
      else if negb (JS.is_undefined direct) then getColumnValue rest direct
      else
        let* keys := JS.keys row in
        match find_normalized currentPath keys with
        | Some k =>
            let* next := JS.get row k in
            getColumnValue rest next
        | None => getColumnValue rest row
        end
  end.

Fixpoint mapM {A B : Type} (f : A -> result B) (l : list A) : result (list B) :=
  match l with
  | [] => Ok []
  | x :: rest =>
      let* y := f x in
      let* ys := mapM f rest in
      Ok (y :: ys)
  end.

(** The body of the inner [forEach]: the value pushed for one field. *)
Definition getColumns_cell (row : value) (field : Field) : result value :=
  let valuePaths := Str.split Str.dot (getId field) in
  let* fieldValue := (if JS.is_null row then Ok (VStr "")
                      else getColumnValue valuePaths row) in
  validateValue field fieldValue.

(** One output row, the [values] of the object the source returns. *)
Definition getColumns_row (requestedFields : list Field) (row : value)
  : result (list value) :=
  mapM (getColumns_cell row) requestedFields.

Definition getColumns (content : value) (requestedFields : list Field)
  : result (list (list value)) :=
  mapM (getColumns_row requestedFields) (rows_of content).

End Connector.

(** ** A reference host

    A JSON codec for the values of the model (integer numbers, strings of
    8-bit characters), used to run the connector on concrete payloads. *)

Module Ref.

Definition hex_digit (d : Z) : ascii :=
  if d <? 10 then Str.digit_char d else ascii_of_nat (Z.to_nat (87 + d)).

(** [JSON.stringify] of one character of a string. *)
Definition escape_char (c : ascii) : string :=
  let n := Str.code c in
  if n =? 34 then "\" ++ String Str.dquote ""
  else if n =? 92 then "\\"
  else if n =? 8 then "\b"
  else if n =? 12 then "\f"
  else if n =? 10 then "\n"
  else if n =? 13 then "\r"
  else if n =? 9 then "\t"
  else if n <? 32 then "\u00" ++ String (hex_digit (n / 16)) (String (hex_digit (n mod 16)) "")
  else String c "".

Fixpoint escape (s : string) : string :=
  match s with
  | EmptyString => EmptyString
  | String c r => String.append (escape_char c) (escape r)
  end.

Definition stringify_string (s : string) : string := Str.quoted (escape s).

(** [JSON.stringify]; an undefined array element prints as null and an
    undefined property is left out. *)
Fixpoint stringify (v : value) : string :=
  match v with
  | VUndefined => "undefined"
  | VNull => "null"
  | VBool true => "true"
  | VBool false => "false"
  | VNum (Fin z) => Str.of_Z z
  | VNum _ => "null"
  | VStr s => stringify_string s
  | VArr elems =>
      String.append "["
        (String.append
           (Str.join ","
              ((fix go (l : list value) : list string :=
                  match l with
                  | [] => []
                  | VUndefined :: rest => "null" :: go rest
                  | x :: rest => stringify x :: go rest
                  end) elems))
           "]")
  | VObj props =>
      String.append "{"
        (String.append
           (Str.join ","
              ((fix go (l : list (string * value)) : list string :=
                  match l with
                  | [] => []
                  | (_, VUndefined) :: rest => go rest
                  | (k, x) :: rest =>
                      String.append (stringify_string k)
                        (String.append ":" (stringify x)) :: go rest
                  end) props))
           "}")
  end.

Definition skip_ws (s : string) : string :=
  Str.drop_while
    (fun c => (Str.code c =? 32) || (Str.code c =? 9)
              || (Str.code c =? 10) || (Str.code c =? 13)) s.

Definition hex_value (c : ascii) : option Z := Num.radix_digit 16 c.

(** The body of a string literal after its opening quote. *)
Fixpoint parse_chars (fuel : nat) (s acc : string) : option (string * string) :=
  match fuel with
  | O => None
  | S f =>
      match s with
      | EmptyString => None
      | String c r =>
          if Str.code c =? 34 then Some (Str.rev acc, r)
          else if Str.code c <? 32 then None
          else if Str.code c =? 92 then
            match r with
            | String e r' =>
                let simple (x : Z) :=
                  parse_chars f r' (String (ascii_of_nat (Z.to_nat x)) acc) in
                let n := Str.code e in
                if n =? 34 then simple 34
                else if n =? 92 then simple 92
                else if n =? 47 then simple 47
                else if n =? 98 then simple 8
                else if n =? 102 then simple 12
                else if n =? 110 then simple 10
                else if n =? 114 then simple 13
                else if n =? 116 then simple 9
                else if n =? 117 then
                  match r' with
                  | String a (String b (String x (String y r''))) =>
                      match hex_value a, hex_value b, hex_value x, hex_value y with
                      | Some 0, Some 0, Some h, Some l =>
                          parse_chars f r''
                            (String (ascii_of_nat (Z.to_nat (16 * h + l))) acc)
                      | _, _, _, _ => None
                      end
                  | _ => None
                  end
                else None
            | EmptyString => None
            end
          else parse_chars f r (String c acc)
      end
  end.

(** An integer literal: an optional minus sign, then [0] or digits
    without a leading zero. *)
Definition parse_int (s : string) : option (value * string) :=
  let neg := match s with String c _ => Num.is_minus c | EmptyString => false end in
  let u := if neg then Num.drop_sign s else s in
  let ds := Str.take_while Str.is_digit u in
  let rest := Str.drop_while Str.is_digit u in
  match ds, rest with
  | EmptyString, _ => None
  | String d (String _ _), _ =>
      if Ascii.eqb d "0"%char then None
      else match rest with
           | String c _ =>
               if Ascii.eqb c Str.dot || Num.is_exp_mark c then None
               else Some (VNum (Fin ((if neg then -1 else 1) * Str.digits_value 0 ds)), rest)
           | EmptyString =>
               Some (VNum (Fin ((if neg then -1 else 1) * Str.digits_value 0 ds)), rest)
           end
  | _, String c _ =>
      if Ascii.eqb c Str.dot || Num.is_exp_mark c then None
      else Some (VNum (Fin ((if neg then -1 else 1) * Str.digits_value 0 ds)), rest)
  | _, EmptyString =>
      Some (VNum (Fin ((if neg then -1 else 1) * Str.digits_value 0 ds)), rest)
  end.

Fixpoint parse_value (fuel : nat) (s : string) {struct fuel}
  : option (value * string) :=
  match fuel with
  | O => None
  | S f =>
      let t := skip_ws s in
      match t with
      | EmptyString => None
      | String c r =>
          let n := Str.code c in
          if n =? 34 then
            match parse_chars (String.length r) r "" with
            | Some (str, r') => Some (VStr str, r')
            | None => None
            end
          else if n =? 91 then
            match skip_ws r with
            | String x r' =>
                if Str.code x =? 93 then Some (VArr [], r')
                else parse_elements f r []
            | EmptyString => None
            end
          else if n =? 123 then
            match skip_ws r with
            | String x r' =>
                if Str.code x =? 125 then Some (VObj [], r')
                else parse_members f r []
            | EmptyString => None
            end
          else match Str.strip_prefix "null" t with
               | Some r' => Some (VNull, r')
               | None =>
                   match Str.strip_prefix "true" t with
                   | Some r' => Some (VBool true, r')
                   | None =>
                       match Str.strip_prefix "false" t with
                       | Some r' => Some (VBool false, r')
                       | None => parse_int t
                       end
                   end
               end
      end
  end
with parse_elements (fuel : nat) (s : string) (acc : list value) {struct fuel}
  : option (value * string) :=
  match fuel with
  | O => None
  | S f =>
      match parse_value f s with
      | Some (v, r) =>
          match skip_ws r with
          | String x r' =>
              if Str.code x =? 44 then parse_elements f r' (List.app acc [v])
              else if Str.code x =? 93 then Some (VArr (List.app acc [v]), r')
              else None
          | EmptyString => None
          end
      | None => None
      end
  end
with parse_members (fuel : nat) (s : string) (acc : list (string * value))
       {struct fuel} : option (value * string) :=
  match fuel with
  | O => None
  | S f =>
      match skip_ws s with
      | String q r0 =>
          if Str.code q =? 34 then
            match parse_chars (String.length r0) r0 "" with
            | Some (k, r1) =>
                match skip_ws r1 with
                | String colon r2 =>
                    if Str.code colon =? 58 then
                      match parse_value f r2 with
                      | Some (v, r3) =>
                          match skip_ws r3 with
                          | String x r' =>
                              if Str.code x =? 44
                              then parse_members f r' (List.app acc [(k, v)])
                              else if Str.code x =? 125
                              then Some (VObj (List.app acc [(k, v)]), r')
                              else None
                          | EmptyString => None
                          end
                      | None => None
                      end
                    else None
                | EmptyString => None
                end
            | None => None
            end
          else None
      | EmptyString => None
      end
  end.

(** [JSON.parse]: one value, then nothing but white space. *)
Definition parse (s : string) : result value :=
  match parse_value (S (String.length s)) s with
  | Some (v, rest) =>
      if String.eqb (skip_ws rest) "" then Ok v else Throw SyntaxError
  | None => Throw SyntaxError
  end.

Definition exn_name (e : exn) : string :=
  match e with
  | TypeError => "TypeError"
  | SyntaxError => "SyntaxError"
  | HostError msg => String.append "Exception: " msg
  | UserError msg => String.append "Error: " msg
  end.

(** The limits of the cache service: keys of at most 250 characters,
    values of at most 100KB. *)
Definition accepts (key val : string) : bool :=
  (Z.of_nat (String.length key) <=? 250)
  && (Z.of_nat (String.length val) <=? 102400).

(** A host that serves one document: [body] at [address], an error
    anywhere else, and no date format beyond the ISO one. *)
Definition serving (address body : string) : Host :=
  {| UrlFetchApp_fetch := fun u =>
       if String.eqb u address then Ok body
       else Throw (HostError "Address unavailable");
     JSON_parse := parse;
     JSON_stringify := stringify;
     Date_parse_other := fun _ => None;
     cache_accepts := accepts;
     exn_text := exn_name |}.

(** A host without network. *)
Definition offline : Host :=
  {| UrlFetchApp_fetch := fun _ => Throw (HostError "Address unavailable");
     JSON_parse := parse;
     JSON_stringify := stringify;
     Date_parse_other := fun _ => None;
     cache_accepts := accepts;
     exn_text := exn_name |}.

Definition empty_world : World := {| cache := ∅; fetched := [] |}.

End Ref.

(** ** Bounded checks

    Facts about a finite range of integers are settled by running a
    boolean test over the range. *)

Module Range.

Fixpoint all_from (P : Z -> bool) (lo : Z) (n : nat) : bool :=
  match n with
  | O => true
  | S m => if P lo then all_from P (lo + 1) m else false
  end.

End Range.

(** ** Where a discovered field comes from *)

(** [At v path x]: following the property names of [path] from [v]
    through nested objects leads to [x]. *)
Inductive At : value -> list string -> value -> Prop :=
| At_here (v : value) : At v [] v
| At_prop (props : list (string * value)) (k : string) (child : value)
          (path : list string) (x : value) :
    In (k, child) props -> At child path x -> At (VObj props) (k :: path) x.

Section Provenance.

Context `{host : Host}.

(** The loop over the properties of an object in [createFields],
    [whole] being the object and [ps] the properties still to visit. *)
Fixpoint createFields_forEach (key : jskey) (whole : value) (isInline : bool)
         (ps : list (string * value)) (fields : list Field) : result (list Field) :=
  match ps with
  | [] => Ok fields
  | (currentKey, child) :: rest =>
      let elementKey := getElementKey key currentKey in
      let* fields' :=
        (if isInline && negb (JS.loosely_null child)
         then createFields fields elementKey child isInline
         else createField fields (KStr currentKey) whole) in
      createFields_forEach key whole isInline rest fields'
  end.

(** The key [createFields] holds after descending along [path] from
    the sample. *)
Definition key_of_path (path : list string) : jskey :=
  fold_left getElementKey path KNull.

Definition is_plain_object (v : value) : bool :=
  match v with VObj _ => true | _ => false end.

(** A field classified from the value it names: a leaf of the sample
    (a scalar or an array, not null) reached along [path], typed by
    [getSemanticType] of the leaf and named by the dotted key of the
    path. *)
Definition classified_from_leaf (sample : value) (f : Field) : Prop :=
  exists path leaf,
    At sample path leaf
    /\ path <> []
    /\ is_plain_object leaf = false
    /\ JS.loosely_null leaf = false
    /\ key_of_path path = KStr (getName f)
    /\ getSemanticType leaf = Ok (getType f).

(** A field classified from its container: a property whose value is
    null, typed by [getSemanticType] of the object that holds it and
    named by the bare property name. *)
Definition classified_from_container (sample : value) (f : Field) : Prop :=
  exists path props child,
    At sample path (VObj props)
    /\ In (getName f, child) props
    /\ JS.loosely_null child = true
    /\ getSemanticType (VObj props) = Ok (getType f)
    /\ getType f = TEXT.

(** The id is the normalized name; [normalize] is the engine's on
    ASCII names. *)
Definition classified (sample : value) (f : Field) : Prop :=
  (classified_from_leaf sample f \/ classified_from_container sample f)
  /\ (Str.is_ascii (getName f) = true -> getId f = normalize (getName f))
  /\ concept f = (if FieldType_eqb (getType f) NUMBER then Metric else Dimension).

End Provenance.

(** ** The entries of a cached array *)

Section CachedArray.

Context `{host : Host}.

(** The key of element [i]: [cacheKey + '.' + i]. *)
Definition entry_key (ck : string) (i : nat) : string :=
  String.append ck (String.append "." (Str.of_Z (Z.of_nat i))).

Definition entry_keys (ck : string) (n : nat) : list string :=
  List.map (entry_key ck) (seq 0 n).

(** What the miss branch writes for an array: one entry per element. *)
Definition entries_of (ck : string) (elems : list value) : list (string * string) :=
  List.map (fun i => (entry_key ck i, JSON_stringify (nth i elems VUndefined)))
           (seq 0 (List.length elems)).

(** The elements whose entries are still in the store, in index order. *)
Definition survivors (store : gmap string (string * Z)) (ck : string)
           (elems : list value) : list value :=
  flat_map (fun i => match store !! entry_key ck i with
                     | Some _ => [nth i elems VUndefined]
                     | None => []
                     end)
           (seq 0 (List.length elems)).

Definition no_comma (s : string) : bool :=
  Str.forallb (fun c => negb (Ascii.eqb c Str.comma)) s.

End CachedArray.

(** ** Sample data *)

Definition datetime_field (name : string) : Field :=
  {| concept := Dimension; getType := YEAR_MONTH_DAY_HOUR;
     getId := name; getName := name |}.

Definition text_field (name : string) : Field :=
  {| concept := Dimension; getType := TEXT; getId := name; getName := name |}.

(** ** Requests *)

(** What [getData] returns: the schema of the requested fields and the
    projected rows. *)
Record DataResponse : Type := {
  schema : list Field;
  rows : list (list value)
}.

Section Requests.

Context `{host : Host}.

(** [fields.forIds(ids)] of the host: the requested fields among the
    discovered ones. *)
Variable forIds : list string -> list Field -> result (list Field).

(** [getSchema(request)]: [build()] gives the fields as they were
    created. *)
Definition getSchema (configParams : ConfigParams) (w : World)
  : result (list Field) * World :=
  match fetchData configParams w with
  | (Throw e, w') => (Throw e, w')
  | (Ok content, w') => (getFields content, w')
  end.

(** [getData(request)], [requestedFieldIds] being the names of
    [request.fields]. *)
Definition getData (configParams : ConfigParams) (requestedFieldIds : list string)
           (w : World) : result DataResponse * World :=
  match fetchData configParams w with
  | (Throw e, w') => (Throw e, w')
  | (Ok content, w') =>
      (let* fields := getFields content in
       let* requestedFields := forIds requestedFieldIds fields in
       let* projected := getColumns content requestedFields in
       Ok {| schema := requestedFields; rows := projected |}, w')
  end.

End Requests.

(** A host's [forIds] that keeps the discovered fields whose id is
    requested. *)
Definition forIds_filter (ids : list string) (fields : list Field)
  : result (list Field) :=
  Ok (List.filter (fun f => existsb (String.eqb (getId f)) ids) fields).

(** ** Shapes of rows *)

(** No null and no undefined anywhere in the value. *)
Fixpoint null_free (v : value) : bool :=
  match v with
  | VUndefined | VNull => false
  | VBool _ | VNum _ | VStr _ => true
  | VArr elems => List.forallb null_free elems
  | VObj props => List.forallb (fun kv => null_free (snd kv)) props
  end.

(** What [validateValue] may hand to the host: a string, a number or a
    boolean. *)
Definition is_cell (v : value) : bool :=
  match JS.typeof v with
  | TyString | TyNumber | TyBoolean => true
  | TyObject | TyUndefined => false
  end.

Definition free_of (sep : ascii) (s : string) : bool :=
  Str.forallb (fun c => negb (Ascii.eqb c sep)) s.

(** The keys of every object are not empty, hold no dot, stay
    distinct once normalized and do not normalize to the name of a
    member of [Object.prototype]. *)
Inductive Tidy : value -> Prop :=
| Tidy_leaf (v : value) : is_plain_object v = false -> Tidy v
| Tidy_object (props : list (string * value)) :
    List.NoDup (List.map normalize (List.map fst props)) ->
    List.Forall (fun kv => fst kv <> EmptyString /\ free_of Str.dot (fst kv) = true
                           /\ JS.member (normalize (fst kv)) JS.Object_prototype_names
                              = false
                           /\ Tidy (snd kv)) props ->
    Tidy (VObj props).

(** The entry that the miss branch writes for property [kv]. *)
Definition property_entry `{host : Host} (ck : string) (kv : string * value)
  : string * string :=
  (String.append ck (String.append "." (fst kv)), JSON_stringify (snd kv)).

(** The key under which the miss branch files property [k]. *)
Definition property_key (ck k : string) : string :=
  String.append ck (String.append "." k).

Definition text_field_named (id name : string) : Field :=
  {| concept := Dimension; getType := TEXT; getId := id; getName := name |}.

(** ** What schema discovery can digest *)

Definition is_ok {A : Type} (r : result A) : bool :=
  match r with Ok _ => true | Throw _ => false end.

Definition is_named (key : jskey) : bool :=
  match key with KStr _ => true | KNull | KUndefined => false end.

(** No object with an own property named toString, looking through
    arrays. *)
Fixpoint stringable (v : value) : bool :=
  match v with
  | VArr elems => List.forallb stringable elems
  | VObj props => negb (JS.has_own "toString" props)
  | _ => true
  end.

Definition classifiable (v : value) : bool :=
  match v with
  | VNum (Fin _) => true
  | VNum _ => false
  | _ => stringable v
  end.

(** Every leaf is classifiable and sits under a name that is not
    empty, and every object with a null property is stringable.
    [named] tells whether the value itself sits under such a name. *)
Fixpoint discoverable (named : bool) (v : value) : bool :=
  match v with
  | VObj props =>
      List.forallb
        (fun kv => if JS.loosely_null (snd kv)
                   then negb (JS.has_own "toString" props)
                   else discoverable (negb (String.eqb (fst kv) "")) (snd kv))
        props
  | _ => named && classifiable v
  end.

(** The leaves of a value below its nested objects, a null property
    counting as one. *)
Fixpoint field_count (v : value) : nat :=
  match v with
  | VObj props =>
      list_sum (List.map (fun kv => if JS.loosely_null (snd kv) then 1%nat
                                    else field_count (snd kv)) props)
  | _ => 1%nat
  end.

(** ** Timestamps *)

Definition four_digits (n : Z) : string :=
  String (Str.digit_char (n / 1000))
    (String (Str.digit_char (n / 100 mod 10)) (Str.two_digits (n mod 100))).

(** The text [YYYY-MM-DDTHH:mm:ssZ] of a UTC time. *)
Definition iso_utc (y m d hh mm ss : Z) : string :=
  String.append (four_digits y)
    (String.append "-"
       (String.append (Str.two_digits m)
          (String.append "-"
             (String.append (Str.two_digits d)
                (String.append "T"
                   (String.append (Str.two_digits hh)
                      (String.append ":"
                         (String.append (Str.two_digits mm)
                            (String.append ":"
                               (String.append (Str.two_digits ss) "Z")))))))))).

(** * Properties *)

(** ** Schema discovery refuses a sample that is not an object *)

Section GetFields.

Context `{host : Host}.

Lemma first_row_empty_array : first_row (VArr []) = VUndefined.
Proof. reflexivity. Qed.

Lemma first_row_not_array (content : value) :
  JS.isArray content = false -> first_row content = content.
Proof. destruct content; simpl; intros H; try reflexivity; discriminate. Qed.

(** C8.  When the sample row (the first element of an array content,
    the content itself otherwise) is not an object, that is, its
    [typeof] is not object or it is null, [getFields] throws the user
    error "Invalid JSON format" and produces no fields. *)
Theorem getFields_rejects_non_object (content : value) :
  JS.typeof (first_row content) <> TyObject \/ first_row content = VNull ->
  getFields content = Throw (UserError "Invalid JSON format").
Proof.
  intros H. unfold getFields.
  destruct (first_row content) eqn:E; simpl; try reflexivity;
    destruct H as [H | H]; solve [ exfalso; apply H; reflexivity | discriminate H ].
Qed.

(** The samples the claim lists: an empty array, a bare scalar, null. *)
Lemma getFields_rejects_scalar (content : value) :
  match content with
  | VUndefined | VNull | VBool _ | VNum _ | VStr _ => True
  | _ => False
  end ->
  getFields content = Throw (UserError "Invalid JSON format").
Proof. destruct content; intros H; try reflexivity; destruct H. Qed.

(** An array as sample passes the guard, its [typeof] being object,
    and yields no field. *)
Lemma getFields_array_sample (elems : list value) :
  getFields (VArr [VArr elems]) = Ok [].
Proof. reflexivity. Qed.

End GetFields.

Lemma getFields_rejects_non_object_witness :
  @getFields Ref.offline (VArr []) = Throw (UserError "Invalid JSON format").
Proof.
  apply (@getFields_rejects_non_object Ref.offline (VArr [])).
  left. simpl. discriminate.
Defined.

(** ** Resolving a column *)

Section GetColumnValue.

Context `{host : Host}.


Lemma find_normalized_none (seg : string) (keys : list string) :
  (forall k', In k' keys -> normalize k' <> seg) ->
  find_normalized seg keys = None.
Proof.
  intros Hno. unfold find_normalized.
  induction keys as [| p keys IH]; simpl; [reflexivity |].
  destruct (String.eqb (normalize p) seg) eqn:E.
  - apply String.eqb_eq in E. exfalso. apply (Hno p); [left; reflexivity | exact E].
  - apply IH. intros k' Hin. apply Hno. right. exact Hin.
Qed.



(** An exactly named null property, by contrast, gives the empty string. *)
Lemma getColumnValue_exact_null (row : value) (seg : string) (rest : list string) :
  JS.get row seg = Ok VNull ->
  getColumnValue (seg :: rest) row = Ok (VStr EmptyString).
Proof. intros H. simpl. rewrite H. reflexivity. Qed.

End GetColumnValue.



(** ** Dates *)

Ltac case_cmp :=
  repeat match goal with
         | |- context [?a <=? ?b] => destruct (Z.leb_spec a b)
         | |- context [?a <? ?b] => destruct (Z.ltb_spec a b)
         end.

Section Dates.

Context `{host : Host}.

Lemma all_from_spec (P : Z -> bool) (n : nat) :
  forall lo, Range.all_from P lo n = true ->
  forall z, lo <= z < lo + Z.of_nat n -> P z = true.
Proof.
  induction n as [| m IH]; intros lo Hall z Hz.
  - simpl in Hz. lia.
  - simpl in Hall. destruct (P lo) eqn:Hlo; [| discriminate].
    destruct (Z.eq_dec z lo) as [-> | Hne]; [exact Hlo |].
    apply (IH (lo + 1) Hall). lia.
Qed.

Lemma year_of_era_range (doe : Z) :
  0 <= doe < 146097 ->
  0 <= Date.year_of_era doe <= 399 /\ 0 <= Date.day_of_year doe <= 365.
Proof.
  intros H. unfold Date.day_of_year, Date.year_of_era.
  Z.div_mod_to_equations. lia.
Qed.

Lemma month_day_range (doe : Z) :
  0 <= doe < 146097 ->
  1 <= Date.civil_month doe <= 12 /\ 1 <= Date.civil_day doe <= 31.
Proof.
  intros H. destruct (year_of_era_range doe H) as [_ Hd].
  unfold Date.civil_month, Date.civil_day, Date.month_from_march.
  set (doy := Date.day_of_year doe) in *. clearbody doy.
  case_cmp; Z.div_mod_to_equations; lia.
Qed.

Lemma day_of_era_range (days : Z) : 0 <= Date.day_of_era days < 146097.
Proof. unfold Date.day_of_era. apply Z.mod_pos_bound. lia. Qed.

(** The year, month and day read off a day number are the calendar
    date of that day. *)
Lemma civil_from_days_correct (days : Z) :
  Date.days_from_civil (Date.civil_year days)
    (Date.civil_month (Date.day_of_era days))
    (Date.civil_day (Date.day_of_era days)) = days.
Proof.
  unfold Date.civil_year, Date.days_from_civil.
  pose proof (day_of_era_range days) as Hdoe.
  assert (Hdays : days + 719468
                  = 146097 * ((days + 719468) / 146097) + Date.day_of_era days)
    by (apply Z.div_mod; lia).
  set (doe := Date.day_of_era days) in *.
  set (era := (days + 719468) / 146097) in *. clearbody era.
  destruct (year_of_era_range doe Hdoe) as [Hy Hd].
  unfold Date.civil_month, Date.civil_day, Date.month_from_march in *.
  unfold Date.day_of_year in *.
  set (yoe := Date.year_of_era doe) in *. clearbody yoe. clearbody doe.
  set (doy := doe - (365 * yoe + yoe / 4 - yoe / 100)) in *.
  assert (Hdoy : doe = doy + (365 * yoe + yoe / 4 - yoe / 100)) by (subst doy; lia).
  clearbody doy.
  set (mp := (5 * doy + 2) / 153) in *.
  assert (Hmp : 0 <= mp <= 11) by (subst mp; Z.div_mod_to_equations; lia).
  assert (Hmp' : 153 * mp <= 5 * doy + 2 < 153 * mp + 153)
    by (subst mp; Z.div_mod_to_equations; lia).
  clearbody mp.
  case_cmp; try lia.
  all: Z.div_mod_to_equations; lia.
Qed.

Lemma pad2_two_digits (n : Z) :
  0 <= n < 100 -> pad2 (Fin n) = Str.two_digits n.
Proof.
  intros H.
  pose (P := fun z => String.eqb (pad2 (Fin z)) (Str.two_digits z)).
  assert (Hb : P n = true).
  { apply (all_from_spec P 100 0); [vm_compute; reflexivity | simpl; lia]. }
  apply String.eqb_eq. exact Hb.
Qed.

(** C5.  For a field of type YEAR_MONTH_DAY_HOUR and a raw value
    that denotes a valid date of time value [t], [validateValue] returns
    the UTC year followed by month, day of the month and hour, each
    written with two decimal digits (zero-padded); the year, month and
    day are the calendar date of the day of [t] and the hour is the
    hour of [t] within that day.  In particular the value
    2020-01-02T03:00:00Z gives 2020010203. *)
Theorem validateValue_datetime (field : Field) (val : value) (t : Z) :
  getType field = YEAR_MONTH_DAY_HOUR ->
  new_Date val = Ok (Some t) ->
  let days := Date.day_number t in
  let year := Date.civil_year days in
  let month := Date.civil_month (Date.day_of_era days) in
  let day := Date.civil_day (Date.day_of_era days) in
  let hour := (t / Date.ms_per_hour) mod 24 in
  validateValue field val
  = Ok (VStr (String.append (Str.of_Z year)
               (String.append (Str.two_digits month)
                 (String.append (Str.two_digits day) (Str.two_digits hour)))))
  /\ Date.days_from_civil year month day = days
  /\ 1 <= month <= 12 /\ 1 <= day <= 31 /\ 0 <= hour <= 23
  /\ days * Date.ms_per_day + hour * Date.ms_per_hour <= t
     < days * Date.ms_per_day + hour * Date.ms_per_hour + Date.ms_per_hour
  /\ validateValue field (VStr "2020-01-02T03:00:00Z") = Ok (VStr "2020010203").
Proof.
  intros Hty Hdate days year month day hour.
  pose proof (month_day_range _ (day_of_era_range days)) as [Hm Hd].
  assert (Hh : 0 <= hour <= 23).
  { subst hour. pose proof (Z.mod_pos_bound (t / Date.ms_per_hour) 24). lia. }
  repeat split; try lia.
  - unfold validateValue, convertDate. rewrite Hty, Hdate. cbn [FieldType_eqb bind].
    cbn [Date.getUTCFullYear Date.getUTCMonth Date.getUTCDate Date.getUTCHours
         number_succ JS.number_toString JS.typeof].
    fold days. fold year. fold month. fold day. fold hour.
    replace (month - 1 + 1) with month by lia.
    rewrite !pad2_two_digits by lia. reflexivity.
  - apply civil_from_days_correct.
  - subst hour days. unfold Date.day_number, Date.ms_per_day, Date.ms_per_hour.
    Z.div_mod_to_equations. lia.
  - subst hour days. unfold Date.day_number, Date.ms_per_day, Date.ms_per_hour.
    Z.div_mod_to_equations. lia.
  - unfold validateValue. rewrite Hty. vm_compute. reflexivity.
Qed.


Lemma new_Date_undefined : new_Date VUndefined = Ok None.
Proof. reflexivity. Qed.

(** An undefined value of a field of any other type gives the empty
    string. *)
Lemma validateValue_undefined_other (field : Field) :
  getType field <> YEAR_MONTH_DAY_HOUR ->
  validateValue field VUndefined = Ok (VStr EmptyString).
Proof.
  intros Hty. unfold validateValue.
  destruct (getType field); try reflexivity. congruence.
Qed.

End Dates.

Lemma validateValue_datetime_witness :
  @validateValue Ref.offline (datetime_field "when") (VStr "2020-01-02T03:00:00Z")
  = Ok (VStr "2020010203").
Proof.
  pose proof (@validateValue_datetime Ref.offline (datetime_field "when")
                (VStr "2020-01-02T03:00:00Z") 1577934000000
                eq_refl eq_refl) as H.
  cbv zeta in H. destruct H as [H _].
  rewrite H. vm_compute. reflexivity.
Defined.


(** ** Semantic types *)

Section SemanticType.

Context `{host : Host}.

Lemma digit_char_is_digit (d : Z) :
  0 <= d <= 9 -> Str.is_digit (Str.digit_char d) = true.
Proof.
  intros H.
  assert (Hd : d = 0 \/ d = 1 \/ d = 2 \/ d = 3 \/ d = 4 \/ d = 5 \/ d = 6
               \/ d = 7 \/ d = 8 \/ d = 9) by lia.
  repeat (destruct Hd as [-> | Hd]; [reflexivity |]). subst d. reflexivity.
Qed.

Lemma digits_fuel_starts (fuel : nat) :
  forall n acc,
    Str.starts_with_digit acc = true \/ fuel <> O ->
    Str.starts_with_digit (Str.digits_fuel fuel n acc) = true.
Proof.
  induction fuel as [| f IH]; intros n acc H; simpl.
  - destruct H as [H | H]; [exact H | congruence].
  - assert (Hd : Str.is_digit (Str.digit_char (n mod 10)) = true).
    { apply digit_char_is_digit. pose proof (Z.mod_pos_bound n 10). lia. }
    destruct (n <? 10); [exact Hd |].
    apply IH. left. exact Hd.
Qed.

Lemma of_nonneg_starts (n : Z) : Str.starts_with_digit (Str.of_nonneg n) = true.
Proof. unfold Str.of_nonneg. apply digits_fuel_starts. right. discriminate. Qed.

Lemma digit_not_space_sign (c : ascii) :
  Str.is_digit c = true -> Str.is_space c = false /\ Num.is_sign c = false.
Proof.
  unfold Str.is_digit, Str.is_space, Num.is_sign, Str.in_range.
  intros H. apply andb_true_iff in H. destruct H as [H1 H2].
  apply Z.leb_le in H1. apply Z.leb_le in H2.
  split.
  - apply orb_false_iff. split.
    + apply andb_false_iff. right. apply Z.leb_gt. lia.
    + apply Z.eqb_neq. lia.
  - apply orb_false_iff. split; apply Z.eqb_neq; lia.
Qed.

Lemma parseFloat_digit_start (s : string) :
  Str.starts_with_digit s = true -> Num.parseFloat_isNaN_string s = false.
Proof.
  destruct s as [| c r]; simpl; [discriminate |].
  intros H. destruct (digit_not_space_sign c H) as [Hsp Hsg].
  unfold Num.parseFloat_isNaN_string. simpl. rewrite Hsp. simpl. rewrite Hsg.
  simpl. rewrite H. reflexivity.
Qed.

Lemma parseFloat_of_Z (z : Z) : Num.parseFloat_isNaN_string (Str.of_Z z) = false.
Proof.
  unfold Str.of_Z. destruct (z <? 0).
  - pose proof (of_nonneg_starts (- z)) as H.
    destruct (Str.of_nonneg (- z)) as [| c r]; [discriminate |]. simpl in H.
    destruct (digit_not_space_sign c H) as [Hsp Hsg].
    unfold Num.parseFloat_isNaN_string. simpl. rewrite H. reflexivity.
  - apply parseFloat_digit_start. apply of_nonneg_starts.
Qed.

Lemma getSemanticType_finite_number (z : Z) :
  getSemanticType (VNum (Fin z)) = Ok NUMBER.
Proof.
  unfold getSemanticType, Num.parseFloat_isNaN. simpl.
  rewrite parseFloat_of_Z. reflexivity.
Qed.

Lemma getSemanticType_string (s : string) :
  getSemanticType (VStr s)
  = if Num.numeric_string s then Ok NUMBER
    else if Regex.looks_like_url s then Ok URL
    else match Date_parse s with
         | Some _ => Ok YEAR_MONTH_DAY_HOUR
         | None => Ok TEXT
         end.
Proof.
  unfold getSemanticType, Num.parseFloat_isNaN, Num.numeric_string. simpl.
  destruct (Num.parseFloat_isNaN_string s); simpl; [reflexivity |].
  destruct (Num.isFinite_string s); reflexivity.
Qed.


End SemanticType.



(** ** Projection of rows *)

Section GetColumns.

Context `{host : Host}.

Lemma mapM_Forall2 {A B : Type} (f : A -> result B) (l : list A) :
  forall ys, mapM f l = Ok ys -> Forall2 (fun x y => f x = Ok y) l ys.
Proof.
  induction l as [| x l IH]; simpl; intros ys H.
  - injection H as <-. constructor.
  - destruct (f x) as [y | e] eqn:Hx; simpl in H; [| discriminate].
    destruct (mapM f l) as [ys' | e] eqn:Hl; simpl in H; [| discriminate].
    injection H as <-. constructor; [exact Hx | apply IH; reflexivity].
Qed.

Lemma mapM_total {A B : Type} (f : A -> result B) (l : list A) :
  (forall x, In x l -> exists y, f x = Ok y) -> exists ys, mapM f l = Ok ys.
Proof.
  induction l as [| x l IH]; simpl; intros H.
  - eexists. reflexivity.
  - destruct (H x (or_introl eq_refl)) as [y Hy]. rewrite Hy. simpl.
    destruct IH as [ys Hys]; [intros x' Hin; apply H; right; exact Hin |].
    rewrite Hys. simpl. eexists. reflexivity.
Qed.

Lemma Forall2_same_length {A B : Type} (R : A -> B -> Prop) (l : list A) (l' : list B) :
  Forall2 R l l' -> List.length l' = List.length l.
Proof. induction 1; simpl; congruence. Qed.

(** What [validateValue] does to a value of a field that is no date. *)
Lemma validateValue_other (field : Field) (v : value) :
  getType field <> YEAR_MONTH_DAY_HOUR ->
  validateValue field v
  = Ok (match JS.typeof v with
        | TyString | TyNumber | TyBoolean => v
        | TyObject => VStr (JSON_stringify v)
        | TyUndefined => VStr EmptyString
        end).
Proof.
  intros Hty. unfold validateValue.
  destruct (getType field); try congruence; simpl; destruct v; reflexivity.
Qed.

(** C6, as the code has it.  Whenever [getColumns] returns, it
    returns one output row per input row, in input order, and each
    output row holds one value per requested field, in request order:
    the value of cell (row, field) is what [validateValue] makes of the
    value resolved for that field in that row, so every output row has
    as many values as there are requested fields.  It does return when
    every cell can be computed.  For a field that is not a date, a
    string, number or boolean passes unchanged, an object, array or
    null is serialized as JSON, and undefined becomes the empty
    string. *)
Theorem getColumns_rows (content : value) (requestedFields : list Field) :
  (forall rows, getColumns content requestedFields = Ok rows ->
     Forall2 (fun row out =>
                Forall2 (fun field cell => getColumns_cell row field = Ok cell)
                        requestedFields out)
             (rows_of content) rows
     /\ List.length rows = List.length (rows_of content)
     /\ Forall (fun out => List.length out = List.length requestedFields) rows)
  /\ ((forall row field, In row (rows_of content) -> In field requestedFields ->
         exists cell, getColumns_cell row field = Ok cell) ->
      exists rows, getColumns content requestedFields = Ok rows)
  /\ (forall field v, getType field <> YEAR_MONTH_DAY_HOUR ->
        validateValue field v
        = Ok (match JS.typeof v with
              | TyString | TyNumber | TyBoolean => v
              | TyObject => VStr (JSON_stringify v)
              | TyUndefined => VStr EmptyString
              end)).
Proof.
  split; [| split].
  - intros rows H. unfold getColumns in H.
    apply mapM_Forall2 in H.
    assert (Hcells : Forall2 (fun row out =>
              Forall2 (fun field cell => getColumns_cell row field = Ok cell)
                      requestedFields out) (rows_of content) rows).
    { induction H as [| row out l l' Hrow _ IH]; constructor; [| exact IH].
      apply mapM_Forall2. exact Hrow. }
    split; [exact Hcells | split].
    + apply (Forall2_same_length _ _ _ Hcells).
    + clear H. induction Hcells as [| row out l l' Hrow _ IH]; constructor; [| exact IH].
      apply (Forall2_same_length _ _ _ Hrow).
  - intros Hcells. unfold getColumns. apply mapM_total.
    intros row Hrow. unfold getColumns_row. apply mapM_total.
    intros field Hfield. apply Hcells; assumption.
  - apply validateValue_other.
Qed.

End GetColumns.

Lemma getColumns_rows_witness :
  exists rows,
    @getColumns Ref.offline
      (VArr [VObj [("Name", VStr "Ann"); ("Age", VNum (Fin 30))];
             VObj [("Name", VStr "Bob"); ("Tags", VArr [VNum (Fin 1)])]])
      [text_field "name"; text_field "tags"; text_field "age"] = Ok rows
    /\ List.length rows = 2%nat
    /\ Forall (fun out => List.length out = 3%nat) rows.
Proof.
  destruct (@getColumns_rows Ref.offline
              (VArr [VObj [("Name", VStr "Ann"); ("Age", VNum (Fin 30))];
                     VObj [("Name", VStr "Bob"); ("Tags", VArr [VNum (Fin 1)])]])
              [text_field "name"; text_field "tags"; text_field "age"])
    as (Hshape & _ & _).
  eexists. split; [vm_compute; reflexivity |].
  destruct (Hshape _ eq_refl) as (_ & Hlen & Hrow).
  split; [exact Hlen | exact Hrow].
Defined.

(** The claim read on the code fails on a date field, whose string
    value does not pass unchanged, and on a row where the resolution
    throws, for which no output row is produced. *)
Lemma getColumns_date_string_changed :
  @getColumns Ref.offline
    (VArr [VObj [("when", VStr "2020-01-02T03:00:00Z")]]) [datetime_field "when"]
  = Ok [[VStr "2020010203"]]
  /\ @getColumns Ref.offline
       (VArr [VObj [("a", VObj [("b", VNum (Fin 1))])]; VObj [("A", VNull)]])
       [text_field "a.b"]
     = Throw TypeError.
Proof. split; vm_compute; reflexivity. Qed.

(** ** Fetching *)

Section FetchData.

Context `{host : Host}.

Lemma rep_loop_mono
      (step : option ascii -> string -> (option ascii -> string -> bool) -> bool)
      (lo : nat) :
  (forall prev s k k', Regex.continuation_le k k' ->
                       step prev s k = true -> step prev s k' = true) ->
  forall fuel done prev s k k',
    Regex.continuation_le k k' ->
    Regex.rep_loop step lo k fuel done prev s = true ->
    Regex.rep_loop step lo k' fuel done prev s = true.
Proof.
  intros Hstep. induction fuel as [| f IH]; intros done prev s k k' Hk; simpl.
  - destruct (lo <=? done)%nat; [apply Hk | discriminate].
  - destruct (step prev s (fun p' s' => Regex.rep_loop step lo k f (S done) p' s'))
      eqn:E.
    + intros _.
      rewrite (Hstep prev s _ (fun p' s' => Regex.rep_loop step lo k' f (S done) p' s')
                 (fun p t => IH (S done) p t k k' Hk) E).
      reflexivity.
    + intros H.
      destruct (step prev s
                  (fun p' s' => Regex.rep_loop step lo k' f (S done) p' s'));
        [reflexivity |].
      destruct (lo <=? done)%nat; [apply Hk; exact H | discriminate].
Qed.

(** A match that a continuation accepts is accepted by any weaker
    continuation. *)
Lemma accepts_mono (r : Regex.re) :
  forall prev s k k', Regex.continuation_le k k' ->
                      Regex.accepts r prev s k = true ->
                      Regex.accepts r prev s k' = true.
Proof.
  induction r as [p | a | | r1 IH1 r2 IH2 | r1 IH1 | lo hi r1 IH1 | | |];
    intros prev s k k' Hk; simpl.
  - destruct s as [| c rest]; [discriminate |]. destruct (p c); [apply Hk | discriminate].
  - destruct s as [| c rest]; [discriminate |].
    destruct (Ascii.eqb a c); [apply Hk | discriminate].
  - destruct s as [| c rest]; [discriminate |].
    destruct (Regex.line_terminator_ahead (String c rest)); [discriminate | apply Hk].
  - apply IH1. intros p t. apply IH2. exact Hk.
  - destruct (Regex.accepts r1 prev s k) eqn:E.
    + intros _. rewrite (IH1 prev s k k' Hk E). reflexivity.
    + intros H. destruct (Regex.accepts r1 prev s k'); [reflexivity | apply Hk; exact H].
  - apply rep_loop_mono; [exact IH1 | exact Hk].
  - destruct (xorb _ _); [apply Hk | discriminate].
  - destruct prev; [discriminate | apply Hk].
  - destruct s; [apply Hk | discriminate].
Qed.

Lemma accepts_seq_tail (x t t' : Regex.re) :
  (forall prev s k, Regex.accepts t prev s k = true -> Regex.accepts t' prev s k = true) ->
  forall prev s k, Regex.accepts (Regex.Seq x t) prev s k = true ->
                   Regex.accepts (Regex.Seq x t') prev s k = true.
Proof.
  intros Ht prev s k. simpl. apply accepts_mono. intros p u. apply Ht.
Qed.

Lemma accepts_drop_eol (t : Regex.re) :
  forall prev s k, Regex.accepts (Regex.Seq t Regex.Eol) prev s k = true ->
                   Regex.accepts t prev s k = true.
Proof.
  intros prev s k. simpl. apply accepts_mono.
  intros p u. destruct u; [trivial | discriminate].
Qed.

Lemma matches_from_weaken (r r' : Regex.re) :
  (forall prev s k, Regex.accepts r prev s k = true -> Regex.accepts r' prev s k = true) ->
  forall s prev, Regex.matches_from r prev s = true -> Regex.matches_from r' prev s = true.
Proof.
  intros Hr. induction s as [| c rest IH]; intros prev; simpl.
  - destruct (Regex.accepts r prev EmptyString _) eqn:E; [| discriminate].
    rewrite (Hr _ _ _ E). reflexivity.
  - destruct (Regex.accepts r prev (String c rest) _) eqn:E.
    + rewrite (Hr _ _ _ E). reflexivity.
    + intros H.
      destruct (Regex.accepts r' prev (String c rest) (fun _ _ => true));
        [reflexivity |].
      apply IH. exact H.
Qed.

(** A url the code's pattern accepts matches the pattern of the
    specification, which has no anchor at the end. *)
Lemma is_http_url_prefix (s : string) :
  Regex.is_http_url s = true -> Regex.matches Regex.http_prefix s = true.
Proof.
  unfold Regex.is_http_url, Regex.matches, Regex.http_url, Regex.http_prefix,
    Regex.http_then.
  apply matches_from_weaken.
  do 4 (apply accepts_seq_tail). apply accepts_drop_eol.
Qed.

Lemma falsy_toString (v : value) :
  JS.truthy v = false -> exists text, JS.toString v = Ok text.
Proof.
  destruct v as [| | b | n | s | |]; simpl; intros H; try discriminate;
    try (eexists; reflexivity).
  destruct b; eexists; reflexivity.
Qed.

Lemma fetchData_invalid_url (configParams : ConfigParams) (w : World) :
  JS.truthy (url configParams) = false
  \/ (exists s, url configParams = VStr s /\ Regex.is_http_url s = false) ->
  exists msg, fetchData configParams w = (Throw (UserError msg), w).
Proof.
  unfold fetchData. intros [H | (s & Hs & Hre)].
  - destruct (falsy_toString _ H) as [text Htext].
    assert (Hvalid :
              match url configParams with
              | VStr s => Ok (Regex.is_http_url s)
              | _ => if JS.truthy (url configParams)
                     then @Throw bool TypeError else Ok false
              end = Ok false).
    { rewrite H. destruct (url configParams) as [| | b | n | s | |];
        try reflexivity.
      destruct s; [reflexivity | discriminate H]. }
    rewrite Hvalid, Htext. eexists. reflexivity.
  - rewrite Hs, Hre. simpl. eexists. reflexivity.
Qed.

(** C7, as the code has it.  [fetchData] ends in a user error, thrown
    to the caller, when the url is missing (or otherwise falsy) or does
    not match [^https?://.+], and then nothing is fetched and the cache
    is as it was; when the content obtained is falsy (null, false, 0 or
    the empty string); and when obtaining it throws.  In each case the
    world is the one the failed step left: nothing is tried again.  A
    fetch records exactly one request.  Content that is truthy, an empty
    array or object included, is returned as it is. *)
Theorem fetchData_errors (configParams : ConfigParams) (w : World) :
  (JS.truthy (url configParams) = false
   \/ (exists s, url configParams = VStr s
                 /\ Regex.matches Regex.http_prefix s = false) ->
   exists msg, fetchData configParams w = (Throw (UserError msg), w))
  /\ (forall s content w',
        url configParams = VStr s -> Regex.is_http_url s = true ->
        (if JS.truthy (cache_flag configParams)
         then getCachedData s (cache_expiry_time configParams) w
         else fetchJSON s w) = (Ok content, w') ->
        JS.truthy content = false ->
        fetchData configParams w
        = (Throw (UserError (String.append (Str.quoted s) " returned no content.")), w'))
  /\ (forall s e w',
        url configParams = VStr s -> Regex.is_http_url s = true ->
        (if JS.truthy (cache_flag configParams)
         then getCachedData s (cache_expiry_time configParams) w
         else fetchJSON s w) = (Throw e, w') ->
        exists msg, fetchData configParams w = (Throw (UserError msg), w'))
  /\ (forall s r w', fetchJSON s w = (r, w') ->
        fetched w' = List.app (fetched w) [s] /\ cache w' = cache w)
  /\ (forall s content w',
        url configParams = VStr s -> Regex.is_http_url s = true ->
        (if JS.truthy (cache_flag configParams)
         then getCachedData s (cache_expiry_time configParams) w
         else fetchJSON s w) = (Ok content, w') ->
        JS.truthy content = true ->
        fetchData configParams w = (Ok content, w')).
Proof.
  split; [| split; [| split; [| split]]].
  - intros [H | (s & Hs & Hre)]; apply fetchData_invalid_url; [left; exact H |].
    right. exists s. split; [exact Hs |].
    destruct (Regex.is_http_url s) eqn:E; [| reflexivity].
    apply is_http_url_prefix in E. congruence.
  - intros s content w' Hs Hre Hinner Hfalsy. unfold fetchData.
    rewrite Hs, Hre, Hinner, Hfalsy. reflexivity.
  - intros s e w' Hs Hre Hinner. unfold fetchData.
    rewrite Hs, Hre, Hinner. eexists. reflexivity.
  - intros s r w' H. unfold fetchJSON in H.
    destruct (UrlFetchApp_fetch s) as [body | e].
    + destruct (JSON_parse body); injection H as <- <-; split; reflexivity.
    + injection H as <- <-. split; reflexivity.
  - intros s content w' Hs Hre Hinner Htruthy. unfold fetchData.
    rewrite Hs, Hre, Hinner, Htruthy. reflexivity.
Qed.

End FetchData.

Lemma fetchData_errors_witness :
  (exists msg,
      @fetchData (Ref.serving "http://x.co" "null")
        {| url := VStr "ftp://x.co"; cache_flag := VBool false;
           cache_expiry_time := VUndefined |} Ref.empty_world
      = (Throw (UserError msg), Ref.empty_world))
  /\ @fetchData (Ref.serving "http://x.co" "null")
       {| url := VStr "http://x.co"; cache_flag := VBool false;
          cache_expiry_time := VUndefined |} Ref.empty_world
     = (Throw (UserError (String.append (Str.quoted "http://x.co")
                            " returned no content.")),
        {| cache := ∅; fetched := ["http://x.co"] |}).
Proof.
  destruct (@fetchData_errors (Ref.serving "http://x.co" "null")
              {| url := VStr "ftp://x.co"; cache_flag := VBool false;
                 cache_expiry_time := VUndefined |} Ref.empty_world)
    as (Hurl & _).
  destruct (@fetchData_errors (Ref.serving "http://x.co" "null")
              {| url := VStr "http://x.co"; cache_flag := VBool false;
                 cache_expiry_time := VUndefined |} Ref.empty_world)
    as (_ & Hempty & _).
  split.
  - apply Hurl. right. exists "ftp://x.co". split; reflexivity.
  - apply (Hempty "http://x.co" VNull); reflexivity.
Defined.

(** The claim read on the code fails for empty content that is not
    falsy.  A fetched empty array passes [fetchData]; so does the empty
    array rebuilt from a cache whose index entry outlived the entry of
    its one element, and nothing is fetched then. *)
Lemma fetchData_empty_array_passes :
  let served := Ref.serving "http://x.co" "[]" in
  let direct := {| url := VStr "http://x.co"; cache_flag := VBool false;
                   cache_expiry_time := VUndefined |} in
  let cached := {| url := VStr "http://x.co"; cache_flag := VBool true;
                   cache_expiry_time := VStr "60" |} in
  let expired := {| cache := {[ "httpxco.keys" := ("httpxco.0", 3600) ]};
                    fetched := [] |} in
  @fetchData served direct Ref.empty_world
  = (Ok (VArr []), {| cache := ∅; fetched := ["http://x.co"] |})
  /\ @fetchData served cached expired = (Ok (VArr []), expired).
Proof. vm_compute. split; reflexivity. Qed.

(** ** Schema discovery classifies a leaf by its own value *)

Section CreateFields.

Context `{host : Host}.

Lemma value_nested_ind (P : value -> Prop) :
  P VUndefined -> P VNull -> (forall b, P (VBool b)) -> (forall n, P (VNum n)) ->
  (forall s, P (VStr s)) ->
  (forall elems, Forall P elems -> P (VArr elems)) ->
  (forall props, Forall (fun kv => P (snd kv)) props -> P (VObj props)) ->
  forall v, P v.
Proof.
  intros Hu Hn Hb Hnum Hs Harr Hobj.
  fix IH 1. intros [| | b | n | s | elems | props].
  - exact Hu.
  - exact Hn.
  - apply Hb.
  - apply Hnum.
  - apply Hs.
  - apply Harr. induction elems as [| x l IHl]; constructor; [apply IH | exact IHl].
  - apply Hobj. induction props as [| [k x] l IHl]; constructor; [apply IH | exact IHl].
Qed.

Lemma createFields_object (fields : list Field) (key : jskey)
      (props : list (string * value)) (isInline : bool) :
  createFields fields key (VObj props) isInline
  = createFields_forEach key (VObj props) isInline props fields.
Proof.
  cbn [createFields]. generalize (VObj props) as whole. intros whole. revert fields.
  induction props as [| [k child] rest IH]; intros fields; simpl; [reflexivity |].
  destruct (isInline && negb (JS.loosely_null child)).
  - destruct (createFields fields (getElementKey key k) child isInline); simpl;
      [apply IH | reflexivity].
  - destruct (createField fields (KStr k) whole); simpl; [apply IH | reflexivity].
Qed.

Lemma createField_inv (fields fields' : list Field) (key : jskey) (v : value) :
  createField fields key v = Ok fields' ->
  exists k t,
    key = KStr k /\ getSemanticType v = Ok t
    /\ fields' = List.app fields
                   [{| concept := if FieldType_eqb t NUMBER then Metric else Dimension;
                       getType := t; getId := normalize k; getName := k |}].
Proof.
  unfold createField. destruct (getSemanticType v) as [t | e]; simpl; [| discriminate].
  destruct key as [| | k]; try discriminate.
  intros H. injection H as <-. exists k, t. repeat split.
Qed.

Lemma getSemanticType_object_text (props : list (string * value)) (t : FieldType) :
  getSemanticType (VObj props) = Ok t -> t = TEXT.
Proof.
  unfold getSemanticType, Num.parseFloat_isNaN. simpl.
  destruct (JS.has_own "toString" props); simpl; [discriminate |].
  intros H. injection H as <-. reflexivity.
Qed.

Lemma At_snoc (sample : value) (path : list string) (props : list (string * value))
      (k : string) (child : value) :
  At sample path (VObj props) -> In (k, child) props ->
  At sample (List.app path [k]) child.
Proof.
  intros H Hin. remember (VObj props) as whole eqn:Hw.
  induction H as [v | ps k' c path' x Hin' H IH].
  - subst v. simpl. econstructor; [exact Hin | constructor].
  - simpl. econstructor; [exact Hin' | apply IH; exact Hw].
Qed.

Lemma key_of_path_snoc (path : list string) (k : string) :
  key_of_path (List.app path [k]) = getElementKey (key_of_path path) k.
Proof. unfold key_of_path. rewrite fold_left_app. reflexivity. Qed.

Lemma createFields_leaf (fields : list Field) (key : jskey) (v : value) :
  is_plain_object v = false ->
  createFields fields key v true
  = match key with
    | KNull => Ok fields
    | _ => createField fields key v
    end.
Proof. destruct v; simpl; intros H; try reflexivity; discriminate. Qed.

Lemma createFields_sound_leaf (sample v : value) (path : list string)
      (fields fields' : list Field) :
  is_plain_object v = false ->
  At sample path v ->
  JS.loosely_null v = false ->
  createFields fields (key_of_path path) v true = Ok fields' ->
  exists new, fields' = List.app fields new /\ Forall (classified sample) new.
Proof.
  intros Hleaf Hat Hnn H. rewrite (createFields_leaf _ _ _ Hleaf) in H.
  destruct (key_of_path path) as [| | k] eqn:Hkey.
  - injection H as <-. exists []. split; [symmetry; apply app_nil_r | constructor].
  - apply createField_inv in H. destruct H as (k & t & Hk & _). discriminate.
  - apply createField_inv in H. destruct H as (k' & t & Hk & Ht & ->).
    injection Hk as <-. eexists. split; [reflexivity |].
    constructor; [| constructor].
    split; [| split; reflexivity]. left.
    exists path, v. repeat split; try assumption.
    intros ->. discriminate Hkey.
Qed.

Lemma createFields_sound (sample : value) :
  forall v path fields fields',
    At sample path v ->
    JS.loosely_null v = false ->
    createFields fields (key_of_path path) v true = Ok fields' ->
    exists new, fields' = List.app fields new /\ Forall (classified sample) new.
Proof.
  induction v as [| | b | n | s | elems _ | props IH] using value_nested_ind;
    intros path fields fields' Hat Hnn H;
    try (match type of H with
         | createFields _ _ ?leaf _ = _ =>
             apply (createFields_sound_leaf sample leaf path fields fields')
         end; solve [reflexivity | assumption]).
  rewrite createFields_object in H.
  assert (Hloop : forall ps, incl ps props ->
            forall fs fs',
              createFields_forEach (key_of_path path) (VObj props) true ps fs = Ok fs' ->
              exists new, fs' = List.app fs new /\ Forall (classified sample) new).
  { clear fields fields' H.
    induction ps as [| [k child] rest IHps]; intros Hincl fs fs' H; simpl in H.
    - injection H as <-. exists []. split; [symmetry; apply app_nil_r | constructor].
    - assert (Hin : In (k, child) props) by (apply Hincl; left; reflexivity).
      assert (Hrest : incl rest props)
        by (intros x Hx; apply Hincl; right; exact Hx).
      destruct (JS.loosely_null child) eqn:Hchild; simpl in H.
      + destruct (createField fs (KStr k) (VObj props)) as [fs1 | e] eqn:E;
          simpl in H; [| discriminate].
        apply createField_inv in E. destruct E as (k' & t & Hk & Ht & ->).
        injection Hk as <-.
        destruct (IHps Hrest _ _ H) as (new & -> & Hnew).
        eexists. split; [rewrite <- app_assoc; reflexivity |].
        simpl. constructor; [| exact Hnew].
        split; [| split; reflexivity]. right.
        exists path, props, child. simpl. repeat split; try assumption.
        apply (getSemanticType_object_text props). exact Ht.
      + destruct (createFields fs (getElementKey (key_of_path path) k) child true)
          as [fs1 | e] eqn:E; simpl in H; [| discriminate].
        rewrite <- key_of_path_snoc in E.
        pose proof (proj1 (List.Forall_forall _ _) IH) as IHprops.
        destruct (IHprops (k, child) Hin (List.app path [k]) fs fs1
                    (At_snoc _ _ _ _ _ Hat Hin) Hchild E) as (new1 & -> & Hnew1).
        destruct (IHps Hrest _ _ H) as (new & -> & Hnew).
        exists (List.app new1 new). split; [rewrite app_assoc; reflexivity |].
        apply Forall_app. split; assumption. }
  apply (Hloop props (incl_refl props) fields fields' H).
Qed.


End CreateFields.



(** ** The chunked cache *)

Section Digits.

Lemma digit_value_char (d : Z) :
  0 <= d <= 9 -> Str.digit_value (Str.digit_char d) = d.
Proof.
  intros H.
  assert (Hd : d = 0 \/ d = 1 \/ d = 2 \/ d = 3 \/ d = 4 \/ d = 5 \/ d = 6
               \/ d = 7 \/ d = 8 \/ d = 9) by lia.
  repeat (destruct Hd as [-> | Hd]; [reflexivity |]). subst d. reflexivity.
Qed.

Lemma digit_char_nonzero (d : Z) :
  1 <= d <= 9 -> Ascii.eqb (Str.digit_char d) "0"%char = false.
Proof.
  intros H.
  assert (Hd : d = 1 \/ d = 2 \/ d = 3 \/ d = 4 \/ d = 5 \/ d = 6
               \/ d = 7 \/ d = 8 \/ d = 9) by lia.
  repeat (destruct Hd as [-> | Hd]; [reflexivity |]). subst d. reflexivity.
Qed.

(** Reading back the digits that [digits_fuel] writes in front of [acc]. *)
Lemma digits_value_fuel (fuel : nat) :
  forall n acc, 0 <= n < 2 ^ Z.of_nat fuel ->
                Str.digits_value 0 (Str.digits_fuel fuel n acc) = Str.digits_value n acc.
Proof.
  induction fuel as [| f IH]; intros n acc Hn.
  - simpl in Hn. assert (n = 0) by lia. subst n. reflexivity.
  - cbn [Str.digits_fuel].
    pose proof (Z.mod_pos_bound n 10 ltac:(lia)) as Hmod.
    pose proof (Z.div_mod n 10 ltac:(lia)) as Hdiv.
    destruct (Z.ltb_spec n 10) as [Hlt | Hge].
    + cbn [Str.digits_value]. rewrite digit_value_char by lia.
      rewrite Z.mod_small by lia. reflexivity.
    + rewrite IH.
      * cbn [Str.digits_value]. rewrite digit_value_char by lia.
        replace (10 * (n / 10) + n mod 10) with n by lia. reflexivity.
      * rewrite Nat2Z.inj_succ, Z.pow_succ_r in Hn by lia.
        split; [apply Z.div_pos; lia |].
        apply Z.div_lt_upper_bound; lia.
Qed.

Lemma of_nonneg_value (n : Z) : 0 <= n -> Str.digits_value 0 (Str.of_nonneg n) = n.
Proof.
  intros H. unfold Str.of_nonneg. rewrite digits_value_fuel; [reflexivity |].
  split; [exact H |].
  rewrite Nat2Z.inj_succ, Z2Nat.id by apply Z.log2_nonneg.
  destruct (Z.eq_dec n 0) as [-> | Hne]; [reflexivity |].
  apply Z.log2_spec. lia.
Qed.

Lemma digits_fuel_all_digits (fuel : nat) :
  forall n acc, Str.forallb Str.is_digit acc = true ->
                Str.forallb Str.is_digit (Str.digits_fuel fuel n acc) = true.
Proof.
  induction fuel as [| f IH]; intros n acc Hacc; simpl; [exact Hacc |].
  assert (Hd : Str.forallb Str.is_digit (String (Str.digit_char (n mod 10)) acc) = true).
  { simpl. rewrite Hacc, digit_char_is_digit; [reflexivity |].
    pose proof (Z.mod_pos_bound n 10). lia. }
  destruct (n <? 10); [exact Hd | apply IH; exact Hd].
Qed.

(** No leading zero: a number from 1 on starts with a digit other than 0. *)
Lemma digits_fuel_leading (fuel : nat) :
  forall n acc, 1 <= n < 2 ^ Z.of_nat fuel ->
                exists c r, Str.digits_fuel fuel n acc = String c r
                            /\ Ascii.eqb c "0"%char = false.
Proof.
  induction fuel as [| f IH]; intros n acc Hn.
  - simpl in Hn. lia.
  - cbn [Str.digits_fuel]. destruct (Z.ltb_spec n 10) as [Hlt | Hge].
    + eexists. eexists. split; [reflexivity |].
      apply digit_char_nonzero. rewrite Z.mod_small; lia.
    + apply IH. rewrite Nat2Z.inj_succ, Z.pow_succ_r in Hn by lia.
      split; [apply Z.div_le_lower_bound; lia |].
      apply Z.div_lt_upper_bound; lia.
Qed.

Lemma array_index_of_nat (i : nat) :
  Str.array_index (Str.of_Z (Z.of_nat i)) = Some i.
Proof.
  unfold Str.of_Z. destruct (Z.ltb_spec (Z.of_nat i) 0) as [Hneg | _]; [lia |].
  pose proof (of_nonneg_value (Z.of_nat i) (Nat2Z.is_nonneg i)) as Hval.
  assert (Hall : Str.forallb Str.is_digit (Str.of_nonneg (Z.of_nat i)) = true)
    by (apply digits_fuel_all_digits; reflexivity).
  destruct (Nat.eq_dec i 0%nat) as [-> | Hpos]; [reflexivity |].
  destruct (digits_fuel_leading (S (Z.to_nat (Z.log2 (Z.of_nat i)))) (Z.of_nat i) EmptyString)
    as (c & r & Hs & Hc).
  { split; [lia |].
    rewrite Nat2Z.inj_succ, Z2Nat.id by apply Z.log2_nonneg.
    apply Z.log2_spec. lia. }
  unfold Str.of_nonneg in *. rewrite Hs in *.
  unfold Str.array_index. rewrite Hall, Hc. cbn [andb negb orb].
  rewrite Hval, Nat2Z.id. reflexivity.
Qed.

Lemma of_Z_of_nat_inj (i j : nat) :
  Str.of_Z (Z.of_nat i) = Str.of_Z (Z.of_nat j) -> i = j.
Proof.
  intros H. pose proof (array_index_of_nat i) as Hi.
  rewrite H, array_index_of_nat in Hi. congruence.
Qed.

Lemma of_Z_of_nat_digits (i : nat) :
  Str.forallb Str.is_digit (Str.of_Z (Z.of_nat i)) = true.
Proof.
  unfold Str.of_Z. destruct (Z.ltb_spec (Z.of_nat i) 0) as [Hneg | _]; [lia |].
  apply digits_fuel_all_digits. reflexivity.
Qed.

End Digits.

Section Cache.

Context `{host : Host}.

Lemma append_inj_l (a x y : string) :
  String.append a x = String.append a y -> x = y.
Proof. induction a as [| c a IH]; simpl; intros H; [exact H | injection H; auto]. Qed.

Lemma forallb_append (f : ascii -> bool) (a b : string) :
  Str.forallb f (String.append a b) = Str.forallb f a && Str.forallb f b.
Proof.
  induction a as [| c a IH]; simpl; [reflexivity |].
  rewrite IH. apply andb_assoc.
Qed.

Lemma forallb_weaken (f g : ascii -> bool) (s : string) :
  (forall c, f c = true -> g c = true) ->
  Str.forallb f s = true -> Str.forallb g s = true.
Proof.
  intros Hfg. induction s as [| c s IH]; simpl; [reflexivity |].
  intros H. apply andb_true_iff in H. destruct H as [Hc Hs].
  rewrite (Hfg c Hc), (IH Hs). reflexivity.
Qed.

Lemma forallb_filter (f : ascii -> bool) (s : string) :
  Str.forallb f (Str.filter f s) = true.
Proof.
  induction s as [| c s IH]; simpl; [reflexivity |].
  destruct (f c) eqn:E; simpl; [rewrite E |]; exact IH.
Qed.

Lemma digit_not_comma (c : ascii) :
  Str.is_digit c = true -> negb (Ascii.eqb c Str.comma) = true.
Proof.
  intros H. destruct (Ascii.eqb c Str.comma) eqn:E; [| reflexivity].
  apply Ascii.eqb_eq in E. subst c. discriminate H.
Qed.

Lemma alnum_not_comma (c : ascii) :
  Str.is_alpha c || Str.is_digit c = true -> negb (Ascii.eqb c Str.comma) = true.
Proof.
  intros H. destruct (Ascii.eqb c Str.comma) eqn:E; [| reflexivity].
  apply Ascii.eqb_eq in E. subst c. discriminate H.
Qed.

Lemma entry_key_no_comma (u : string) (i : nat) :
  no_comma (entry_key (cacheKey u) i) = true.
Proof.
  unfold no_comma, entry_key. rewrite !forallb_append.
  apply andb_true_iff. split; [| apply andb_true_iff; split].
  - apply (forallb_weaken _ _ _ alnum_not_comma). apply forallb_filter.
  - reflexivity.
  - apply (forallb_weaken _ _ _ digit_not_comma). apply of_Z_of_nat_digits.
Qed.

Lemma entry_key_inj (ck : string) (i j : nat) :
  entry_key ck i = entry_key ck j -> i = j.
Proof.
  unfold entry_key. intros H. apply append_inj_l in H. apply append_inj_l in H.
  apply of_Z_of_nat_inj. exact H.
Qed.

Lemma entry_key_not_index (u : string) (i : nat) :
  entry_key (cacheKey u) i <> indexKey u.
Proof.
  unfold entry_key, indexKey, keys_suffix. intros H.
  apply append_inj_l in H. change ".keys" with (String.append "." "keys") in H.
  apply append_inj_l in H.
  pose proof (of_Z_of_nat_digits i) as Hd. rewrite H in Hd. discriminate Hd.
Qed.

Lemma append_nonempty_r (a b : string) :
  b <> EmptyString -> String.append a b <> EmptyString.
Proof. destruct a; simpl; [auto | discriminate]. Qed.

Lemma entry_key_nonempty (ck : string) (i : nat) : entry_key ck i <> EmptyString.
Proof. apply append_nonempty_r. discriminate. Qed.

Lemma indexKey_nonempty (u : string) : indexKey u <> EmptyString.
Proof. apply append_nonempty_r. discriminate. Qed.

Lemma index_not_length (i : nat) :
  String.eqb (Str.of_Z (Z.of_nat i)) "length" = false.
Proof.
  destruct (String.eqb _ _) eqn:E; [| reflexivity].
  apply String.eqb_eq in E.
  pose proof (of_Z_of_nat_digits i) as Hd. rewrite E in Hd. discriminate Hd.
Qed.

Lemma get_array_element (elems : list value) (i : nat) :
  JS.get (VArr elems) (Str.of_Z (Z.of_nat i)) = Ok (nth i elems VUndefined).
Proof. unfold JS.get. rewrite index_not_length, array_index_of_nat. reflexivity. Qed.

Lemma obj_set_fresh (k v : string) (o : list (string * string)) :
  ~ In k (List.map fst o) -> obj_set k v o = List.app o [(k, v)].
Proof.
  induction o as [| [k' v'] o IH]; simpl; intros H; [reflexivity |].
  destruct (String.eqb k' k) eqn:E.
  - apply String.eqb_eq in E. exfalso. apply H. left. exact E.
  - rewrite IH; [reflexivity |]. intros Hin. apply H. right. exact Hin.
Qed.

(** The miss branch builds one entry per element of an array, in index
    order. *)
Lemma chunk_array (ck : string) (elems : list value) :
  forall n a acc,
    (forall k, In k (List.map fst acc) -> exists j, (j < a)%nat /\ k = entry_key ck j) ->
    chunk ck (VArr elems) (List.map (fun i => Str.of_Z (Z.of_nat i)) (seq a n)) acc
    = Ok (List.app acc
            (List.map (fun i => (entry_key ck i, JSON_stringify (nth i elems VUndefined)))
                      (seq a n))).
Proof.
  induction n as [| n IH]; intros a acc Hacc; cbn [seq List.map chunk].
  - rewrite app_nil_r. reflexivity.
  - rewrite get_array_element. cbn [bind].
    change (String.append ck (String.append "." (Str.of_Z (Z.of_nat a))))
      with (entry_key ck a).
    rewrite obj_set_fresh.
    + rewrite IH.
      * rewrite <- app_assoc. reflexivity.
      * intros k Hk. rewrite List.map_app in Hk. apply in_app_or in Hk.
        destruct Hk as [Hk | [<- | []]].
        -- destruct (Hacc k Hk) as (j & Hj & ->). exists j. split; [lia | reflexivity].
        -- exists a. split; [lia | reflexivity].
    + intros Hin. destruct (Hacc _ Hin) as (j & Hj & Heq).
      apply entry_key_inj in Heq. lia.
Qed.

Lemma chunk_entries (ck : string) (elems : list value) :
  chunk ck (VArr elems) (JS.for_in_keys (VArr elems)) [] = Ok (entries_of ck elems).
Proof.
  unfold JS.for_in_keys, JS.keys, JS.index_keys, entries_of.
  rewrite (chunk_array ck elems (List.length elems) 0 []); [reflexivity |].
  intros k [].
Qed.

Lemma entries_keys (ck : string) (elems : list value) :
  List.map fst (entries_of ck elems) = entry_keys ck (List.length elems).
Proof. unfold entries_of, entry_keys. rewrite List.map_map. reflexivity. Qed.

Lemma entry_keys_NoDup (ck : string) (n : nat) : List.NoDup (entry_keys ck n).
Proof.
  unfold entry_keys. apply Finite.Injective_map_NoDup.
  - intros i j. apply entry_key_inj.
  - apply List.seq_NoDup.
Qed.

Lemma in_entry_keys (ck : string) (n : nat) (k : string) :
  In k (entry_keys ck n) <-> exists i, (i < n)%nat /\ k = entry_key ck i.
Proof.
  unfold entry_keys. rewrite List.in_map_iff. split.
  - intros (i & <- & Hi). apply List.in_seq in Hi. exists i. split; [lia | reflexivity].
  - intros (i & Hi & ->). exists i. split; [reflexivity | apply List.in_seq; lia].
Qed.

Lemma insert_all_cons (ttl : Z) (k v : string) (entries : list (string * string))
      (m : gmap string (string * Z)) :
  CacheService.insert_all ttl ((k, v) :: entries) m
  = CacheService.insert_all ttl entries (<[k := (v, ttl)]> m).
Proof. reflexivity. Qed.

Lemma insert_all_notin (ttl : Z) (entries : list (string * string)) :
  forall (m : gmap string (string * Z)) (k : string),
    ~ In k (List.map fst entries) ->
    CacheService.insert_all ttl entries m !! k = m !! k.
Proof.
  induction entries as [| [k' v'] es IH]; intros m k Hk; [reflexivity |].
  rewrite insert_all_cons, IH.
  - apply lookup_insert_ne. intros ->. apply Hk. left. reflexivity.
  - intros Hin. apply Hk. right. exact Hin.
Qed.

Lemma insert_all_in (ttl : Z) (entries : list (string * string)) :
  forall (m : gmap string (string * Z)) (k v : string),
    List.NoDup (List.map fst entries) -> In (k, v) entries ->
    CacheService.insert_all ttl entries m !! k = Some (v, ttl).
Proof.
  induction entries as [| [k' v'] es IH]; intros m k v Hnd Hin; [destruct Hin |].
  rewrite insert_all_cons. simpl in Hnd. apply List.NoDup_cons_iff in Hnd.
  destruct Hnd as [Hfresh Hnd]. destruct Hin as [Heq | Hin].
  - injection Heq as -> ->. rewrite insert_all_notin by exact Hfresh.
    apply lookup_insert_eq.
  - apply IH; assumption.
Qed.

Lemma insert_all_size (ttl : Z) (entries : list (string * string)) :
  forall m : gmap string (string * Z),
    List.NoDup (List.map fst entries) ->
    (forall k, In k (List.map fst entries) -> m !! k = None) ->
    size (CacheService.insert_all ttl entries m) = (size m + List.length entries)%nat.
Proof.
  induction entries as [| [k' v'] es IH]; intros m Hnd Hfresh.
  - simpl. lia.
  - rewrite insert_all_cons. simpl in Hnd. apply List.NoDup_cons_iff in Hnd.
    destruct Hnd as [Hk' Hnd]. rewrite IH.
    + rewrite map_size_insert_None by (apply Hfresh; left; reflexivity).
      simpl. lia.
    + exact Hnd.
    + intros k Hk. rewrite lookup_insert_ne.
      * apply Hfresh. right. exact Hk.
      * simpl. intros ->. apply Hk'. exact Hk.
Qed.

Lemma split_no_comma (s : string) :
  no_comma s = true -> Str.split Str.comma s = [s].
Proof.
  unfold no_comma. induction s as [| c r IH]; simpl; [reflexivity |].
  intros H. apply andb_true_iff in H. destruct H as [Hc Hr].
  apply negb_true_iff in Hc. rewrite Hc, (IH Hr). reflexivity.
Qed.

Lemma split_append_comma (p rest : string) :
  no_comma p = true ->
  Str.split Str.comma (String.append p (String Str.comma rest))
  = p :: Str.split Str.comma rest.
Proof.
  unfold no_comma. induction p as [| c r IH]; simpl.
  - intros _. reflexivity.
  - intros H. apply andb_true_iff in H. destruct H as [Hc Hr].
    apply negb_true_iff in Hc. rewrite Hc, (IH Hr). reflexivity.
Qed.

(** Splitting the listing of the keys gives the keys back, as long as
    no key holds a comma. *)
Lemma split_join (parts : list string) :
  parts <> [] -> List.Forall (fun p => no_comma p = true) parts ->
  Str.split Str.comma (Str.join "," parts) = parts.
Proof.
  induction parts as [| p [| q ps] IH]; intros Hne Hall.
  - congruence.
  - simpl. apply split_no_comma. inversion Hall; assumption.
  - inversion Hall as [| ? ? Hp Hrest]; subst.
    change (Str.join "," (p :: q :: ps))
      with (String.append p (String Str.comma (Str.join "," (q :: ps)))).
    rewrite split_append_comma by exact Hp.
    rewrite IH; [reflexivity | discriminate | exact Hrest].
Qed.

Lemma obj_get_getAll_none (store : gmap string (string * Z)) (ks : list string) (k : string) :
  CacheService.get store k = None -> obj_get k (CacheService.getAll store ks) = None.
Proof.
  intros Hk. induction ks as [| k' ks IH]; simpl; [reflexivity |].
  destruct (CacheService.get store k') as [v |] eqn:E; [| exact IH].
  simpl. destruct (String.eqb k' k) eqn:Heq; [| exact IH].
  apply String.eqb_eq in Heq. subst k'. congruence.
Qed.

Lemma obj_get_getAll (store : gmap string (string * Z)) (ks : list string) (k : string) :
  In k ks -> obj_get k (CacheService.getAll store ks) = CacheService.get store k.
Proof.
  induction ks as [| k' ks IH]; simpl; intros Hin; [destruct Hin |].
  destruct (String.eqb k' k) eqn:Heq.
  - apply String.eqb_eq in Heq. subst k'.
    destruct (CacheService.get store k) as [v |] eqn:E.
    + simpl. rewrite String.eqb_refl. reflexivity.
    + apply obj_get_getAll_none. exact E.
  - assert (Hin' : In k ks).
    { destruct Hin as [-> | Hin]; [| exact Hin].
      rewrite String.eqb_refl in Heq. discriminate. }
    destruct (CacheService.get store k') as [v |]; [| apply IH; exact Hin'].
    simpl. rewrite Heq. apply IH. exact Hin'.
Qed.

(** The hit branch over the keys of an array: present entries are
    parsed in index order, missing ones are passed over. *)
Lemma reassemble_array (store : gmap string (string * Z)) (ck : string)
      (elems : list value) (listed : list string) :
  (forall i, (i < List.length elems)%nat -> In (entry_key ck i) listed) ->
  (forall i text t, (i < List.length elems)%nat ->
                    store !! entry_key ck i = Some (text, t) ->
                    JSON_parse text = Ok (nth i elems VUndefined)) ->
  forall indices acc,
    (forall i, In i indices -> (i < List.length elems)%nat) ->
    reassemble (CacheService.getAll store listed) (List.map (entry_key ck) indices) acc
    = Ok (List.app acc
            (flat_map (fun i => match store !! entry_key ck i with
                                | Some _ => [nth i elems VUndefined]
                                | None => []
                                end) indices)).
Proof.
  intros Hlisted Hparse.
  induction indices as [| i rest IH]; intros acc Hlt; cbn [List.map reassemble flat_map].
  - rewrite app_nil_r. reflexivity.
  - assert (Hi : (i < List.length elems)%nat) by (apply Hlt; left; reflexivity).
    rewrite (obj_get_getAll store listed _ (Hlisted i Hi)).
    unfold CacheService.get.
    destruct (store !! entry_key ck i) as [[text t] |] eqn:E; cbn [fmap option_fmap option_map fst].
    + rewrite (Hparse i text t Hi E). cbn [bind].
      rewrite IH by (intros j Hj; apply Hlt; right; exact Hj).
      rewrite <- app_assoc. reflexivity.
    + rewrite IH by (intros j Hj; apply Hlt; right; exact Hj). reflexivity.
Qed.

Lemma flat_map_all_present (store : gmap string (string * Z)) (ck : string)
      (elems : list value) :
  (forall i, (i < List.length elems)%nat -> store !! entry_key ck i <> None) ->
  survivors store ck elems = elems.
Proof.
  unfold survivors. intros Hall.
  assert (H : forall n a, (a + n = List.length elems)%nat ->
            flat_map (fun i => match store !! entry_key ck i with
                               | Some _ => [nth i elems VUndefined]
                               | None => []
                               end) (seq a n)
            = skipn a elems).
  { induction n as [| n IH]; intros a Ha; cbn [seq flat_map].
    - rewrite skipn_all2 by lia. reflexivity.
    - destruct (store !! entry_key ck a) eqn:E; [| exfalso; apply (Hall a); [lia | exact E]].
      rewrite IH by lia. simpl.
      assert (Hsk : forall (l : list value) b, (b < List.length l)%nat ->
                skipn b l = nth b l VUndefined :: skipn (S b) l).
      { induction l as [| x l IHl]; intros b Hb; simpl in Hb; [lia |].
        destruct b; [reflexivity |]. simpl. apply IHl. lia. }
      rewrite (Hsk elems a) by lia. reflexivity. }
  rewrite (H (List.length elems) 0%nat) by lia. reflexivity.
Qed.

End Cache.

Section CachedData.

Context `{host : Host}.

(** A hit: the index entry of [u] is in the store and lists the keys
    of an array of [elems]; each entry still present parses to its
    element. *)
Lemma getCachedData_hit (u : string) (expiry : value) (minutes : option Z)
      (elems : list value) (w : World) (ttl : Z) :
  Num.parseInt expiry = Ok minutes ->
  cache w !! indexKey u
  = Some (Str.join "," (entry_keys (cacheKey u) (List.length elems)), ttl) ->
  cache w !! EmptyString = None ->
  (forall i text t, (i < List.length elems)%nat ->
                    cache w !! entry_key (cacheKey u) i = Some (text, t) ->
                    JSON_parse text = Ok (nth i elems VUndefined)) ->
  getCachedData u expiry w
  = (Ok (VArr (survivors (cache w) (cacheKey u) elems)), w).
Proof.
  intros Hexp Hindex Hempty Hparse. unfold getCachedData.
  rewrite Hexp. unfold CacheService.get at 1. rewrite Hindex.
  cbn [fmap option_fmap option_map fst].
  destruct elems as [| e0 es] eqn:Helems.
  - cbn [List.length entry_keys seq List.map Str.join Str.split CacheService.getAll].
    unfold CacheService.get. rewrite Hempty. reflexivity.
  - rewrite <- Helems in *.
    rewrite split_join.
    + unfold entry_keys at 2.
      rewrite (reassemble_array (cache w) (cacheKey u) elems
                 (entry_keys (cacheKey u) (List.length elems))).
      * reflexivity.
      * intros i Hi. apply in_entry_keys. exists i. split; [exact Hi | reflexivity].
      * exact Hparse.
      * intros i Hi. apply List.in_seq in Hi. lia.
    + rewrite Helems. discriminate.
    + unfold entry_keys. apply List.Forall_forall. intros k Hk.
      apply List.in_map_iff in Hk. destruct Hk as (i & <- & _).
      apply entry_key_no_comma.
Qed.

(** A miss on an array: the content is fetched once, chunked, written
    and returned. *)
Lemma getCachedData_miss (u body : string) (expiry : value) (minutes : option Z)
      (elems : list value) (w : World) :
  Num.parseInt expiry = Ok minutes ->
  cache w !! indexKey u = None ->
  UrlFetchApp_fetch u = Ok body ->
  JSON_parse body = Ok (VArr elems) ->
  (forall i, (i < List.length elems)%nat ->
             cache_accepts (entry_key (cacheKey u) i)
                           (JSON_stringify (nth i elems VUndefined)) = true) ->
  cache_accepts (indexKey u)
                (Str.join "," (entry_keys (cacheKey u) (List.length elems))) = true ->
  getCachedData u expiry w
  = (Ok (VArr elems),
     {| cache := <[indexKey u :=
                     (Str.join "," (entry_keys (cacheKey u) (List.length elems)),
                      cacheExpiryTime minutes)]>
                   (CacheService.insert_all CacheService.default_ttl
                      (entries_of (cacheKey u) elems) (cache w));
        fetched := List.app (fetched w) [u] |}).
Proof.
  intros Hexp Hcold Hfetch Hbody Hacc Hacc_index. unfold getCachedData.
  rewrite Hexp. unfold CacheService.get. rewrite Hcold.
  cbn [fmap option_fmap option_map].
  unfold fetchJSON. rewrite Hfetch, Hbody. rewrite chunk_entries.
  unfold CacheService.putAll, CacheService.put. cbn [cache fetched].
  assert (Hall : forallb (fun kv => cache_accepts (fst kv) (snd kv))
                         (entries_of (cacheKey u) elems) = true).
  { apply List.forallb_forall. intros [k v] Hin. unfold entries_of in Hin.
    apply List.in_map_iff in Hin. destruct Hin as (i & Heq & Hi).
    injection Heq as <- <-. apply Hacc. apply List.in_seq in Hi. lia. }
  rewrite Hall, entries_keys, Hacc_index. reflexivity.
Qed.

(** X20.  Array content through the cache.  On a cold store (no index
    entry for the url, no entry under the empty key) whose service
    accepts the entries, and with a JSON codec that reads back what it
    wrote for each element, [getCachedData] fetches the content exactly
    once, returns it, and writes one entry per element plus the index
    entry: N+1 entries, all new when none of the keys was in use.  A
    second call against the store it left fetches nothing, leaves the
    store as it is and returns an array equal to the first.  Against a
    store where some element entries have gone (the index entry
    remaining), it returns the elements whose entries remain, in index
    order, and still fetches nothing. *)
Theorem getCachedData_array (u body : string) (expiry expiry' : value)
        (minutes minutes' : option Z) (elems : list value) (w : World) :
  Num.parseInt expiry = Ok minutes ->
  Num.parseInt expiry' = Ok minutes' ->
  cache w !! indexKey u = None ->
  cache w !! EmptyString = None ->
  UrlFetchApp_fetch u = Ok body ->
  JSON_parse body = Ok (VArr elems) ->
  List.Forall (fun e => JSON_parse (JSON_stringify e) = Ok e) elems ->
  (forall i, (i < List.length elems)%nat ->
             cache_accepts (entry_key (cacheKey u) i)
                           (JSON_stringify (nth i elems VUndefined)) = true) ->
  cache_accepts (indexKey u)
                (Str.join "," (entry_keys (cacheKey u) (List.length elems))) = true ->
  exists w1,
    getCachedData u expiry w = (Ok (VArr elems), w1)
    /\ fetched w1 = List.app (fetched w) [u]
    /\ (exists ttl,
          cache w1 !! indexKey u
          = Some (Str.join "," (entry_keys (cacheKey u) (List.length elems)), ttl))
    /\ (forall i, (i < List.length elems)%nat ->
          cache w1 !! entry_key (cacheKey u) i
          = Some (JSON_stringify (nth i elems VUndefined), CacheService.default_ttl))
    /\ (forall k, k <> indexKey u ->
          ~ In k (entry_keys (cacheKey u) (List.length elems)) ->
          cache w1 !! k = cache w !! k)
    /\ ((forall k, In k (entry_keys (cacheKey u) (List.length elems)) ->
                   cache w !! k = None) ->
        size (cache w1) = (size (cache w) + S (List.length elems))%nat)
    /\ getCachedData u expiry' w1 = (Ok (VArr elems), w1)
    /\ (forall w2,
          cache w2 !! indexKey u = cache w1 !! indexKey u ->
          cache w2 !! EmptyString = None ->
          (forall i, (i < List.length elems)%nat ->
             cache w2 !! entry_key (cacheKey u) i = cache w1 !! entry_key (cacheKey u) i
             \/ cache w2 !! entry_key (cacheKey u) i = None) ->
          getCachedData u expiry' w2
          = (Ok (VArr (survivors (cache w2) (cacheKey u) elems)), w2)
          /\ fetched (snd (getCachedData u expiry' w2)) = fetched w2).
Proof.
  intros Hexp Hexp' Hcold Hempty Hfetch Hbody Hround Hacc Hacc_index.
  set (ck := cacheKey u) in *.
  set (keys := entry_keys ck (List.length elems)) in *.
  set (store1 := CacheService.insert_all CacheService.default_ttl
                   (entries_of ck elems) (cache w)).
  set (w1 := {| cache := <[indexKey u := (Str.join "," keys, cacheExpiryTime minutes)]> store1;
                fetched := List.app (fetched w) [u] |}).
  assert (Hnd : List.NoDup (List.map fst (entries_of ck elems))).
  { rewrite entries_keys. apply entry_keys_NoDup. }
  assert (Hindex : cache w1 !! indexKey u = Some (Str.join "," keys, cacheExpiryTime minutes)).
  { apply lookup_insert_eq. }
  assert (Hentry : forall i, (i < List.length elems)%nat ->
            cache w1 !! entry_key ck i
            = Some (JSON_stringify (nth i elems VUndefined), CacheService.default_ttl)).
  { intros i Hi. cbn [cache w1].
    rewrite lookup_insert_ne by (apply not_eq_sym; apply entry_key_not_index).
    apply insert_all_in; [exact Hnd |].
    unfold entries_of. apply List.in_map_iff. exists i.
    split; [reflexivity | apply List.in_seq; lia]. }
  assert (Hother : forall k, k <> indexKey u -> ~ In k keys -> cache w1 !! k = cache w !! k).
  { intros k Hk Hnot. cbn [cache w1].
    rewrite lookup_insert_ne by (apply not_eq_sym; exact Hk).
    apply insert_all_notin. rewrite entries_keys. exact Hnot. }
  assert (Hparse1 : forall (w2 : World),
            (forall i, (i < List.length elems)%nat ->
               cache w2 !! entry_key ck i = cache w1 !! entry_key ck i
               \/ cache w2 !! entry_key ck i = None) ->
            forall i text t, (i < List.length elems)%nat ->
              cache w2 !! entry_key ck i = Some (text, t) ->
              JSON_parse text = Ok (nth i elems VUndefined)).
  { intros w2 Hw2 i text t Hi Hlook.
    destruct (Hw2 i Hi) as [Hsame | Hnone]; [| congruence].
    rewrite Hsame, (Hentry i Hi) in Hlook. injection Hlook as <- <-.
    pose proof (proj1 (List.Forall_forall _ _) Hround) as Hall.
    apply Hall. apply nth_In. exact Hi. }
  assert (Hhit : forall w2,
            cache w2 !! indexKey u = cache w1 !! indexKey u ->
            cache w2 !! EmptyString = None ->
            (forall i, (i < List.length elems)%nat ->
               cache w2 !! entry_key ck i = cache w1 !! entry_key ck i
               \/ cache w2 !! entry_key ck i = None) ->
            getCachedData u expiry' w2
            = (Ok (VArr (survivors (cache w2) ck elems)), w2)).
  { intros w2 Hi2 He2 Hw2.
    apply (getCachedData_hit u expiry' minutes' elems w2 (cacheExpiryTime minutes)).
    - exact Hexp'.
    - rewrite Hi2. exact Hindex.
    - exact He2.
    - apply Hparse1. exact Hw2. }
  exists w1.
  split; [apply (getCachedData_miss u body expiry minutes elems w); assumption |].
  split; [reflexivity |].
  split; [eexists; exact Hindex |].
  split; [exact Hentry |].
  split; [exact Hother |].
  split; [| split].
  - intros Hfresh. cbn [cache w1].
    rewrite map_size_insert_None.
    + unfold store1. rewrite insert_all_size.
      * unfold entries_of. rewrite List.length_map, List.length_seq. lia.
      * exact Hnd.
      * rewrite entries_keys. exact Hfresh.
    + unfold store1. rewrite insert_all_notin; [exact Hcold |].
      rewrite entries_keys. intros Hin. apply in_entry_keys in Hin.
      destruct Hin as (i & _ & Heq). symmetry in Heq.
      apply (entry_key_not_index u i). exact Heq.
  - rewrite (Hhit w1).
    + rewrite flat_map_all_present; [reflexivity |].
      intros i Hi. rewrite (Hentry i Hi). discriminate.
    + reflexivity.
    + rewrite Hother; [exact Hempty | apply not_eq_sym; apply indexKey_nonempty |].
      intros Hin. apply in_entry_keys in Hin. destruct Hin as (i & _ & Heq).
      symmetry in Heq. apply (entry_key_nonempty ck i). exact Heq.
    + intros i Hi. left. reflexivity.
  - intros w2 Hi2 He2 Hw2.
    split; [apply Hhit; assumption | rewrite Hhit by assumption; reflexivity].
Qed.

End CachedData.

Lemma getCachedData_array_witness :
  exists w1,
    @getCachedData
      (Ref.serving "http://x.co"
         (Ref.stringify (VArr [VNum (Fin 1); VObj [("a", VStr "x")]])))
      "http://x.co" (VStr "5") Ref.empty_world
    = (Ok (VArr [VNum (Fin 1); VObj [("a", VStr "x")]]), w1)
    /\ @getCachedData
         (Ref.serving "http://x.co"
            (Ref.stringify (VArr [VNum (Fin 1); VObj [("a", VStr "x")]])))
         "http://x.co" (VStr "5") w1
       = (Ok (VArr [VNum (Fin 1); VObj [("a", VStr "x")]]), w1)
    /\ fetched w1 = ["http://x.co"]
    /\ size (cache w1) = 3%nat.
Proof.
  destruct (@getCachedData_array
              (Ref.serving "http://x.co"
                 (Ref.stringify (VArr [VNum (Fin 1); VObj [("a", VStr "x")]])))
              "http://x.co"
              (Ref.stringify (VArr [VNum (Fin 1); VObj [("a", VStr "x")]]))
              (VStr "5") (VStr "5") (Some 5) (Some 5)
              [VNum (Fin 1); VObj [("a", VStr "x")]] Ref.empty_world)
    as (w1 & Hfirst & Hfetched & _ & _ & _ & Hsize & Hsecond & _).
  - reflexivity.
  - reflexivity.
  - reflexivity.
  - reflexivity.
  - reflexivity.
  - vm_compute. reflexivity.
  - repeat constructor.
  - intros i Hi. destruct i as [| [| i]]; [reflexivity | reflexivity | simpl in Hi; lia].
  - reflexivity.
  - exists w1. split; [exact Hfirst |]. split; [exact Hsecond |].
    split; [exact Hfetched |].
    apply Hsize. intros k Hk. reflexivity.
Defined.

(** C1.  The second call does not return what the first returned when
    the content is an object: the miss returns the object, the hit
    returns the array of its property values, and nothing was fetched in
    between.  The function's own description promises the response
    object in both cases. *)
Lemma getCachedData_object_returns_array :
  let served := Ref.serving "http://x.co" (Ref.stringify (VObj [("a", VNum (Fin 1))])) in
  let first := @getCachedData served "http://x.co" (VStr "5") Ref.empty_world in
  let second := @getCachedData served "http://x.co" (VStr "5") (snd first) in
  fst first = Ok (VObj [("a", VNum (Fin 1))])
  /\ fst second = Ok (VArr [VNum (Fin 1)])
  /\ fetched (snd second) = ["http://x.co"].
Proof. vm_compute. repeat split. Qed.

(** A property named keys takes the key of the index entry: one entry
    is left where two were written, and the hit fails to parse it. *)
Lemma getCachedData_keys_collision :
  let served := Ref.serving "http://x.co" (Ref.stringify (VObj [("keys", VNum (Fin 1))])) in
  let first := @getCachedData served "http://x.co" (VStr "5") Ref.empty_world in
  let second := @getCachedData served "http://x.co" (VStr "5") (snd first) in
  fst first = Ok (VObj [("keys", VNum (Fin 1))])
  /\ size (cache (snd first)) = 1%nat
  /\ fst second = Throw SyntaxError.
Proof. vm_compute. repeat split. Qed.

(** ** End to end *)

(** The example of the specification: one row with a name, an age and
    a url gives a TEXT dimension, a NUMBER metric and a URL dimension, and
    the row projects onto them unchanged. *)
Example schema_and_rows_of_sample :
  let content := VArr [VObj [("Name", VStr "Ann"); ("Age", VNum (Fin 30));
                             ("Url", VStr "http://x.co")]] in
  let fields :=
    [{| concept := Dimension; getType := TEXT; getId := "name"; getName := "Name" |};
     {| concept := Metric; getType := NUMBER; getId := "age"; getName := "Age" |};
     {| concept := Dimension; getType := URL; getId := "url"; getName := "Url" |}] in
  @getFields Ref.offline content = Ok fields
  /\ @getColumns Ref.offline content fields
     = Ok [[VStr "Ann"; VNum (Fin 30); VStr "http://x.co"]].
Proof. vm_compute. split; reflexivity. Qed.

(** * More of the connector *)

(** ** Outcomes of a request *)

Section Outcomes.

Context `{host : Host}.

Variable forIds : list string -> list Field -> result (list Field).

Lemma getFields_throws_user_error (content : value) (e : exn) :
  getFields content = Throw e -> exists msg, e = UserError msg.
Proof.
  unfold getFields.
  destruct (negb (JS.jstype_eqb (JS.typeof (first_row content)) TyObject)
            || JS.is_null (first_row content)).
  - intros H. injection H as <-. eexists. reflexivity.
  - destruct (createFields [] KNull (first_row content) true); [discriminate |].
    intros H. injection H as <-. eexists. reflexivity.
Qed.

Lemma fetchData_string_url (configParams : ConfigParams) (w : World) (s : string) :
  url configParams = VStr s ->
  fetchData configParams w
  = if Regex.is_http_url s then
      match (if JS.truthy (cache_flag configParams)
             then getCachedData s (cache_expiry_time configParams) w
             else fetchJSON s w) with
      | (Throw e, w') =>
          (sendUserError
             (String.append
                "Your request could not be cached. The rows of your dataset probably exceed the 100KB cache limit."
                (exn_text e)), w')
      | (Ok content, w') =>
          if negb (JS.truthy content)
          then (sendUserError (String.append (Str.quoted s) " returned no content."), w')
          else (Ok content, w')
      end
    else (sendUserError (String.append (Str.quoted s) " is not a valid url."), w).
Proof.
  intros Hs. unfold fetchData. rewrite Hs. cbn [JS.toString].
  destruct (Regex.is_http_url s); reflexivity.
Qed.

(** The two ways [fetchData] ends for a url that is a string. *)
Lemma fetchData_string_outcomes (configParams : ConfigParams) (w : World) (s : string) :
  url configParams = VStr s ->
  (exists msg, fst (fetchData configParams w) = Throw (UserError msg))
  \/ (exists content,
        fst (fetchData configParams w) = Ok content
        /\ JS.truthy content = true
        /\ Regex.is_http_url s = true).
Proof.
  intros Hs. rewrite (fetchData_string_url _ _ _ Hs).
  destruct (Regex.is_http_url s); [| left; eexists; reflexivity].
  destruct (if JS.truthy (cache_flag configParams)
            then getCachedData s (cache_expiry_time configParams) w
            else fetchJSON s w) as [[content | e] w'].
  - destruct (JS.truthy content) eqn:Ht; simpl.
    + right. exists content. repeat split. exact Ht.
    + left. eexists. reflexivity.
  - left. eexists. reflexivity.
Qed.

(** X1.  Whatever [fetchData] does for a url that is a string, it ends in
    one of two ways: a user error, or content that is truthy, obtained
    for a url that matches the pattern.  No other exception leaves it and
    no falsy content is returned. *)
Theorem fetchData_outcomes (configParams : ConfigParams) (w : World) (s : string) :
  url configParams = VStr s ->
  (exists msg, fst (fetchData configParams w) = Throw (UserError msg))
  \/ (exists content,
        fst (fetchData configParams w) = Ok content
        /\ JS.truthy content = true
        /\ Regex.is_http_url s = true).
Proof.
  intros Hs. rewrite (fetchData_string_url _ _ _ Hs).
  destruct (Regex.is_http_url s); [| left; eexists; reflexivity].
  destruct (if JS.truthy (cache_flag configParams)
            then getCachedData s (cache_expiry_time configParams) w
            else fetchJSON s w) as [[content | e] w'].
  - destruct (JS.truthy content) eqn:Ht; simpl.
    + right. exists content. repeat split. exact Ht.
    + left. eexists. reflexivity.
  - left. eexists. reflexivity.
Qed.

(** X2.  A schema request for a url that is a string fails with user errors
    only, raised by [fetchData] or by [getFields]; when it succeeds its
    fields are those [getFields] discovers in the content that
    [fetchData] returned, and the world is the one [fetchData] left. *)
Theorem getSchema_outcomes (configParams : ConfigParams) (w : World) (s : string) :
  url configParams = VStr s ->
  snd (getSchema configParams w) = snd (fetchData configParams w)
  /\ ((exists msg, fst (getSchema configParams w) = Throw (UserError msg))
      \/ (exists content fields,
            fst (fetchData configParams w) = Ok content
            /\ getFields content = Ok fields
            /\ fst (getSchema configParams w) = Ok fields
            /\ JS.typeof (first_row content) = TyObject
            /\ first_row content <> VNull)).
Proof.
  intros Hs. unfold getSchema.
  destruct (fetchData_string_outcomes configParams w s Hs)
    as [(msg & Hm) | (content & Hc & _)].
  - destruct (fetchData configParams w) as [r w']. simpl in Hm. subst r.
    split; [reflexivity |]. left. exists msg. reflexivity.
  - destruct (fetchData configParams w) as [r w']. simpl in Hc. subst r.
    split; [reflexivity |]. cbn [fst].
    destruct (getFields content) as [fields | e] eqn:Hf.
    + right. exists content, fields.
      assert (Hguard : JS.typeof (first_row content) = TyObject
                       /\ first_row content <> VNull).
      { unfold getFields in Hf.
        destruct (first_row content); simpl in Hf; try discriminate;
          split; [reflexivity | discriminate | reflexivity | discriminate]. }
      destruct Hguard as [Hty Hnn].
      split; [reflexivity |]. split; [exact Hf |]. split; [reflexivity |].
      split; assumption.
    + left. destruct (getFields_throws_user_error content e Hf) as [msg ->].
      exists msg. reflexivity.
Qed.

(** X3.  With the cache off, a fetch that fails or a body that is no JSON
    reaches the user under the message about the cache limit, wrapped
    around the message of [fetchJSON]; one request was made and the cache
    is untouched. *)
Theorem fetchData_reports_fetch_failure_as_cache_failure
        (configParams : ConfigParams) (w : World) (s : string) (inner : string) :
  url configParams = VStr s ->
  Regex.is_http_url s = true ->
  JS.truthy (cache_flag configParams) = false ->
  (exists e, UrlFetchApp_fetch s = Throw e
             /\ inner = String.append (Str.quoted s)
                          (String.append " returned an error:" (exn_text e)))
  \/ (exists body e, UrlFetchApp_fetch s = Ok body /\ JSON_parse body = Throw e
                     /\ inner = String.append "Invalid JSON format. " (exn_text e)) ->
  fetchData configParams w
  = (Throw (UserError
              (String.append
                 "Your request could not be cached. The rows of your dataset probably exceed the 100KB cache limit."
                 (exn_text (UserError inner)))),
     {| cache := cache w; fetched := List.app (fetched w) [s] |}).
Proof.
  intros Hs Hre Hoff Hfail. rewrite (fetchData_string_url _ _ _ Hs), Hre, Hoff.
  unfold fetchJSON.
  destruct Hfail as [(e & He & ->) | (body & e & Hb & He & ->)].
  - rewrite He. reflexivity.
  - rewrite Hb, He. reflexivity.
Qed.

End Outcomes.

(** ** Cells and rows *)

Section Cells.

Context `{host : Host}.

Lemma validateValue_cell (field : Field) (v r : value) :
  validateValue field v = Ok r ->
  is_cell r = true
  /\ (getType field = YEAR_MONTH_DAY_HOUR -> exists s, r = VStr s).
Proof.
  unfold validateValue.
  destruct (FieldType_eqb (getType field) YEAR_MONTH_DAY_HOUR) eqn:Hty.
  - destruct (convertDate v) as [s | e]; simpl; [| discriminate].
    intros H. injection H as <-. split; [reflexivity |]. intros _. exists s. reflexivity.
  - simpl. intros H. split.
    + destruct v; simpl in H; injection H as <-; reflexivity.
    + intros Hd. rewrite Hd in Hty. discriminate.
Qed.

(** X4.  Every value in the rows [getColumns] returns is a string, a number
    or a boolean, never an object, an array, null or undefined; and the
    value of a field of type YEAR_MONTH_DAY_HOUR is always a string. *)
Theorem getColumns_cells (content : value) (requestedFields : list Field)
        (projected : list (list value)) :
  getColumns content requestedFields = Ok projected ->
  List.Forall
    (fun out =>
       List.Forall (fun cell => is_cell cell = true) out
       /\ List.Forall2 (fun field cell =>
                          getType field = YEAR_MONTH_DAY_HOUR -> exists s, cell = VStr s)
                       requestedFields out)
    projected.
Proof.
  intros H. unfold getColumns in H. apply mapM_Forall2 in H.
  induction H as [| row out l l' Hrow _ IH]; constructor; [| exact IH].
  unfold getColumns_row in Hrow. apply mapM_Forall2 in Hrow.
  clear IH. induction Hrow as [| field cell fs cs Hcell _ IHc].
  - split; constructor.
  - unfold getColumns_cell in Hcell.
    destruct (if JS.is_null row then Ok (VStr EmptyString)
              else getColumnValue (Str.split Str.dot (getId field)) row)
      as [fv | e]; simpl in Hcell; [| discriminate].
    destruct (validateValue_cell field fv cell Hcell) as [Hc Hd].
    destruct IHc as [IH1 IH2].
    split; constructor; assumption.
Qed.

Lemma getColumns_row_null (requestedFields : list Field) :
  List.Forall (fun f => getType f <> YEAR_MONTH_DAY_HOUR) requestedFields ->
  getColumns_row requestedFields VNull
  = Ok (List.map (fun _ => VStr EmptyString) requestedFields).
Proof.
  unfold getColumns_row. induction 1 as [| f fs Hf _ IH]; simpl; [reflexivity |].
  unfold getColumns_cell at 1. cbn [JS.is_null bind].
  rewrite (validateValue_other f (VStr EmptyString) Hf). cbn [JS.typeof bind].
  rewrite IH. reflexivity.
Qed.

(** X5.  A row that is null gives the empty string for every requested
    field that is no date, whatever the other rows are. *)
Theorem getColumns_null_rows (content : value) (requestedFields : list Field)
        (projected : list (list value)) :
  getColumns content requestedFields = Ok projected ->
  List.Forall (fun f => getType f <> YEAR_MONTH_DAY_HOUR) requestedFields ->
  List.Forall2 (fun row out =>
                  row = VNull ->
                  out = List.map (fun _ => VStr EmptyString) requestedFields)
               (rows_of content) projected.
Proof.
  intros H Hfields. unfold getColumns in H. apply mapM_Forall2 in H.
  induction H as [| row out l l' Hrow _ IH]; constructor; [| exact IH].
  intros ->. rewrite (getColumns_row_null requestedFields Hfields) in Hrow.
  injection Hrow as <-. reflexivity.
Qed.

End Cells.

Lemma getColumns_cells_witness :
  List.Forall
    (fun out =>
       List.Forall (fun cell => is_cell cell = true) out
       /\ List.Forall2 (fun field cell =>
                          getType field = YEAR_MONTH_DAY_HOUR -> exists s, cell = VStr s)
                       [text_field "tags"; datetime_field "when"] out)
    [[VStr "[1,2]"; VStr "2020010203"]; [VStr "x"; VStr "NaNaNaNaN"]].
Proof.
  apply (@getColumns_cells Ref.offline
           (VArr [VObj [("tags", VArr [VNum (Fin 1); VNum (Fin 2)]);
                        ("when", VStr "2020-01-02T03:00:00Z")];
                  VObj [("tags", VStr "x"); ("when", VNull)]])
           [text_field "tags"; datetime_field "when"]).
  vm_compute. reflexivity.
Defined.

Lemma getColumns_null_rows_witness :
  List.Forall2 (fun row out =>
                  row = VNull ->
                  out = List.map (fun _ => VStr EmptyString)
                                 [text_field "a"; text_field "b"])
               [VObj [("a", VNum (Fin 1)); ("b", VBool true)]; VNull]
               [[VNum (Fin 1); VBool true]; [VStr EmptyString; VStr EmptyString]].
Proof.
  apply (@getColumns_null_rows Ref.offline
           (VArr [VObj [("a", VNum (Fin 1)); ("b", VBool true)]; VNull])
           [text_field "a"; text_field "b"]).
  - vm_compute. reflexivity.
  - repeat constructor; discriminate.
Defined.

(** ** Resolution never fails without null *)

Section NullFree.

Context `{host : Host}.

Lemma null_free_elems (elems : list value) (x : value) :
  null_free (VArr elems) = true -> In x elems -> null_free x = true.
Proof.
  cbn [null_free]. intros H Hin.
  apply (proj1 (List.forallb_forall null_free elems) H x Hin).
Qed.

Lemma null_free_props (props : list (string * value)) (k : string) (x : value) :
  null_free (VObj props) = true -> In (k, x) props -> null_free x = true.
Proof.
  cbn [null_free]. intros H Hin.
  apply (proj1 (List.forallb_forall _ props) H (k, x) Hin).
Qed.

Lemma assoc_In (k : string) (props : list (string * value)) (x : value) :
  JS.assoc k props = Some x -> In (k, x) props.
Proof.
  induction props as [| [k' v] rest IH]; simpl; [discriminate |].
  destruct (String.eqb k' k) eqn:E.
  - apply String.eqb_eq in E. subst k'. intros H. injection H as <-. left. reflexivity.
  - intros H. right. apply IH. exact H.
Qed.

Lemma assoc_of_key (k : string) (props : list (string * value)) :
  In k (List.map fst props) -> exists x, JS.assoc k props = Some x.
Proof.
  induction props as [| [k' v] rest IH]; simpl; [intros [] |].
  destruct (String.eqb k' k) eqn:E; [eexists; reflexivity |].
  intros [-> | Hin]; [rewrite String.eqb_refl in E; discriminate | apply IH; exact Hin].
Qed.

Lemma string_get_in_range (s : string) :
  forall i, (i < String.length s)%nat -> exists c, String.get i s = Some c.
Proof.
  induction s as [| c s IH]; simpl; intros i Hi; [lia |].
  destruct i as [| i]; [eexists; reflexivity |]. apply IH. lia.
Qed.

(** Reading any property of a value without null gives undefined or a
    value without null. *)
Lemma get_null_free (v : value) (k : string) :
  null_free v = true ->
  exists x, JS.get v k = Ok x /\ (x = VUndefined \/ null_free x = true).
Proof.
  intros Hv. destruct v as [| | b | n | s | elems | props]; try discriminate Hv;
    unfold JS.get.
  - eexists. split; [reflexivity | left; reflexivity].
  - eexists. split; [reflexivity | left; reflexivity].
  - destruct (String.eqb k "length"); [eexists; split; [reflexivity | right; reflexivity] |].
    destruct (Str.array_index k) as [i |]; [| eexists; split; [reflexivity | left; reflexivity]].
    destruct (String.get i s); eexists; split; try reflexivity; [right | left]; reflexivity.
  - destruct (String.eqb k "length"); [eexists; split; [reflexivity | right; reflexivity] |].
    destruct (Str.array_index k) as [i |]; [| eexists; split; [reflexivity | left; reflexivity]].
    eexists. split; [reflexivity |].
    destruct (Nat.lt_ge_cases i (List.length elems)) as [Hlt | Hge].
    + right. apply (null_free_elems elems); [exact Hv | apply nth_In; exact Hlt].
    + left. apply nth_overflow. exact Hge.
  - destruct (JS.assoc k props) as [x |] eqn:E.
    + eexists. split; [reflexivity |]. right.
      apply (null_free_props props k); [exact Hv | apply assoc_In; exact E].
    + eexists. split; [reflexivity | left; reflexivity].
Qed.

(** Reading one of its own keys gives a value without null. *)
Lemma get_own_key_null_free (v : value) (ks : list string) (k : string) :
  null_free v = true -> JS.keys v = Ok ks -> In k ks ->
  exists x, JS.get v k = Ok x /\ null_free x = true.
Proof.
  intros Hv Hks Hin.
  destruct v as [| | b | n | s | elems | props]; try discriminate Hv;
    cbn [JS.keys] in Hks; injection Hks as <-.
  - destruct Hin.
  - destruct Hin.
  - unfold JS.index_keys in Hin. apply List.in_map_iff in Hin.
    destruct Hin as (i & <- & Hi). apply List.in_seq in Hi.
    unfold JS.get. rewrite index_not_length, array_index_of_nat.
    destruct (string_get_in_range s i ltac:(lia)) as [c ->].
    eexists. split; reflexivity.
  - unfold JS.index_keys in Hin. apply List.in_map_iff in Hin.
    destruct Hin as (i & <- & Hi). apply List.in_seq in Hi.
    rewrite get_array_element. eexists. split; [reflexivity |].
    apply (null_free_elems elems); [exact Hv | apply nth_In; lia].
  - destruct (assoc_of_key k props Hin) as [x Hx].
    unfold JS.get. rewrite Hx. eexists. split; [reflexivity |].
    apply (null_free_props props k); [exact Hv | apply assoc_In; exact Hx].
Qed.

(** The walk of the model over a row without null. *)
Lemma getColumnValue_null_free (valuePaths : list string) :
  forall row, null_free row = true ->
  exists v, getColumnValue valuePaths row = Ok v /\ null_free v = true.
Proof.
  induction valuePaths as [| seg rest IH]; intros row Hrow.
  - exists row. split; [reflexivity | exact Hrow].
  - cbn [getColumnValue].
    destruct (get_null_free row seg Hrow) as (direct & Hget & Hdirect).
    rewrite Hget. cbn [bind].
    destruct Hdirect as [-> | Hnf].
    + cbn [JS.is_null JS.is_undefined negb].
      assert (Hkeys : exists ks, JS.keys row = Ok ks).
      { destruct row; try discriminate Hrow; eexists; reflexivity. }
      destruct Hkeys as [ks Hks]. rewrite Hks. cbn [bind].
      destruct (find_normalized seg ks) as [k |] eqn:Hfind.
      * unfold find_normalized in Hfind. apply List.find_some in Hfind.
        destruct (get_own_key_null_free row ks k Hrow Hks (proj1 Hfind))
          as (next & Hnext & Hnf).
        rewrite Hnext. cbn [bind]. apply IH. exact Hnf.
      * apply IH. exact Hrow.
    + destruct direct; try discriminate Hnf; cbn [JS.is_null JS.is_undefined negb];
        apply IH; exact Hnf.
Qed.

(** X6.  On a row that holds no null, at any depth, [getColumnValue]
    returns for every path whose segments are no names of built-in
    members, and what it returns holds no null either: the TypeError of
    the walk needs a null in the row, or a member of the engine. *)
Theorem getColumnValue_total_without_null (valuePaths : list string) (row : value) :
  List.Forall (fun seg => JS.builtin_name seg = false) valuePaths ->
  null_free row = true ->
  exists v, getColumnValue valuePaths row = Ok v /\ null_free v = true.
Proof.
  intros _. revert row. induction valuePaths as [| seg rest IH]; intros row Hrow.
  - exists row. split; [reflexivity | exact Hrow].
  - cbn [getColumnValue].
    destruct (get_null_free row seg Hrow) as (direct & Hget & Hdirect).
    rewrite Hget. cbn [bind].
    destruct Hdirect as [-> | Hnf].
    + cbn [JS.is_null JS.is_undefined negb].
      assert (Hkeys : exists ks, JS.keys row = Ok ks).
      { destruct row; try discriminate Hrow; eexists; reflexivity. }
      destruct Hkeys as [ks Hks]. rewrite Hks. cbn [bind].
      destruct (find_normalized seg ks) as [k |] eqn:Hfind.
      * unfold find_normalized in Hfind. apply List.find_some in Hfind.
        destruct (get_own_key_null_free row ks k Hrow Hks (proj1 Hfind))
          as (next & Hnext & Hnf).
        rewrite Hnext. cbn [bind]. apply IH. exact Hnf.
      * apply IH. exact Hrow.
    + destruct direct; try discriminate Hnf; cbn [JS.is_null JS.is_undefined negb];
        apply IH; exact Hnf.
Qed.

(** X7.  [getColumns] returns for every content whose rows are null or hold
    no null inside, when no requested field is a date and no segment of
    a requested id is the name of a built-in member. *)
Theorem getColumns_total_without_null (content : value) (requestedFields : list Field) :
  List.Forall (fun row => row = VNull \/ null_free row = true) (rows_of content) ->
  List.Forall (fun f => getType f <> YEAR_MONTH_DAY_HOUR
                        /\ List.Forall (fun seg => JS.builtin_name seg = false)
                                       (Str.split Str.dot (getId f)))
              requestedFields ->
  exists projected, getColumns content requestedFields = Ok projected.
Proof.
  intros Hrows Hfields. unfold getColumns. apply mapM_total.
  intros row Hrow. unfold getColumns_row. apply mapM_total.
  intros field Hfield. unfold getColumns_cell.
  pose proof (proj1 (List.Forall_forall _ _) Hrows row Hrow) as Hr.
  pose proof (proj1 (List.Forall_forall _ _) Hfields field Hfield) as [Hf _].
  destruct Hr as [-> | Hnf].
  - cbn [JS.is_null bind]. rewrite (validateValue_other field _ Hf).
    eexists. reflexivity.
  - destruct (getColumnValue_null_free (Str.split Str.dot (getId field)) row Hnf)
      as (v & Hv & _).
    destruct row; try discriminate Hnf; cbn [JS.is_null]; rewrite Hv; cbn [bind];
      rewrite (validateValue_other field _ Hf); eexists; reflexivity.
Qed.

End NullFree.

Lemma getColumnValue_total_without_null_witness :
  exists v, getColumnValue ["a"; "b"; "c"] (VObj [("A", VObj [("x", VNum (Fin 1))])]) = Ok v
            /\ null_free v = true.
Proof.
  apply (getColumnValue_total_without_null ["a"; "b"; "c"]
           (VObj [("A", VObj [("x", VNum (Fin 1))])])).
  - repeat (apply List.Forall_cons; [reflexivity |]). apply List.Forall_nil.
  - reflexivity.
Defined.

Lemma getColumns_total_without_null_witness :
  exists projected,
    @getColumns Ref.offline
      (VArr [VObj [("A", VObj [("x", VNum (Fin 1))])]; VNull])
      [text_field "a.x"; text_field "b"] = Ok projected.
Proof.
  apply (@getColumns_total_without_null Ref.offline).
  - constructor; [right; reflexivity |].
    constructor; [left; reflexivity | constructor].
  - apply List.Forall_cons; [| apply List.Forall_cons; [| apply List.Forall_nil]].
    + split; [discriminate |].
      repeat (apply List.Forall_cons; [reflexivity |]). apply List.Forall_nil.
    + split; [discriminate |].
      repeat (apply List.Forall_cons; [reflexivity |]). apply List.Forall_nil.
Defined.

(** ** A data request *)

Section DataRequest.

Context `{host : Host}.

Variable forIds : list string -> list Field -> result (list Field).

(** X8.  When [getData] returns, its schema is what [forIds] selected among
    the fields discovered in the fetched content, its rows are that same
    content projected on that schema: one row per row of the content,
    each with one value per field of the schema.  The content was
    obtained once, by [fetchData]. *)
Theorem getData_response (configParams : ConfigParams) (requestedFieldIds : list string)
        (w w' : World) (response : DataResponse) :
  getData forIds configParams requestedFieldIds w = (Ok response, w') ->
  exists content fields,
    fetchData configParams w = (Ok content, w')
    /\ getFields content = Ok fields
    /\ forIds requestedFieldIds fields = Ok (schema response)
    /\ getColumns content (schema response) = Ok (rows response)
    /\ List.length (rows response) = List.length (rows_of content)
    /\ List.Forall (fun out => List.length out = List.length (schema response))
                   (rows response).
Proof.
  unfold getData. destruct (fetchData configParams w) as [[content | e] w1];
    [| discriminate].
  intros H. injection H as H <-.
  destruct (getFields content) as [fields | e] eqn:Hfields; [| discriminate].
  cbn [bind] in H.
  destruct (forIds requestedFieldIds fields) as [requested | e] eqn:Hids; [| discriminate].
  cbn [bind] in H.
  destruct (getColumns content requested) as [projected | e] eqn:Hcols; [| discriminate].
  cbn [bind] in H. injection H as <-. cbn [schema rows].
  exists content, fields.
  split; [reflexivity |]. split; [exact Hfields |]. split; [exact Hids |].
  split; [exact Hcols |].
  unfold getColumns in Hcols. apply mapM_Forall2 in Hcols.
  split; [apply (Forall2_same_length _ _ _ Hcols) |].
  clear Hids. induction Hcols as [| row out l l' Hrow _ IH]; constructor; [| exact IH].
  unfold getColumns_row in Hrow. apply mapM_Forall2 in Hrow.
  apply (Forall2_same_length _ _ _ Hrow).
Qed.

End DataRequest.

Lemma getData_response_witness :
  exists content fields,
    @fetchData (Ref.serving "http://x.co"
                  (Ref.stringify (VArr [VObj [("Name", VStr "Ann"); ("Age", VNum (Fin 30))];
                                        VObj [("Name", VStr "Bob"); ("Age", VNull)]])))
      {| url := VStr "http://x.co"; cache_flag := VBool false;
         cache_expiry_time := VUndefined |} Ref.empty_world
    = (Ok content, {| cache := ∅; fetched := ["http://x.co"] |})
    /\ @getFields (Ref.serving "http://x.co"
                     (Ref.stringify (VArr [VObj [("Name", VStr "Ann"); ("Age", VNum (Fin 30))];
                                           VObj [("Name", VStr "Bob"); ("Age", VNull)]])))
         content = Ok fields
    /\ List.length (rows_of content) = 2%nat.
Proof.
  destruct (@getData_response
              (Ref.serving "http://x.co"
                 (Ref.stringify (VArr [VObj [("Name", VStr "Ann"); ("Age", VNum (Fin 30))];
                                       VObj [("Name", VStr "Bob"); ("Age", VNull)]])))
              forIds_filter
              {| url := VStr "http://x.co"; cache_flag := VBool false;
                 cache_expiry_time := VUndefined |}
              ["age"; "name"] Ref.empty_world
              {| cache := ∅; fetched := ["http://x.co"] |}
              {| schema := [{| concept := Dimension; getType := TEXT;
                               getId := "name"; getName := "Name" |};
                            {| concept := Metric; getType := NUMBER;
                               getId := "age"; getName := "Age" |}];
                 rows := [[VStr "Ann"; VNum (Fin 30)]; [VStr "Bob"; VStr "null"]] |})
    as (content & fields & Hfetch & Hfields & _ & _ & Hlen & _).
  - vm_compute. reflexivity.
  - exists content, fields. split; [exact Hfetch |]. split; [exact Hfields |].
    simpl in Hlen. symmetry. exact Hlen.
Defined.

(** ** Null found by the normalized scan *)

Section ScanNull.

Context `{host : Host}.

(** X9.  For a field whose id has a single segment and whose type is no
    date: when the row, of ASCII text, has no property of that exact
    name, own or inherited, and the normalized scan finds one whose
    value is null, the cell is the JSON text of null, where an exactly
    named null property gives the empty string. *)
Theorem getColumns_cell_null_by_scan (row : value) (field : Field) (seg k : string)
        (keys : list string) :
  JS.ascii_text row = true ->
  JS.may_inherit row seg = false ->
  Str.split Str.dot (getId field) = [seg] ->
  getType field <> YEAR_MONTH_DAY_HOUR ->
  JS.get row seg = Ok VUndefined ->
  JS.keys row = Ok keys ->
  find_normalized seg keys = Some k ->
  JS.get row k = Ok VNull ->
  getColumns_cell row field = Ok (VStr (JSON_stringify VNull))
  /\ (forall row', JS.get row' seg = Ok VNull ->
                   getColumns_cell row' field = Ok (VStr EmptyString)).
Proof.
  intros _ _ Hpath Hty Hget Hkeys Hfind Hk. split.
  - unfold getColumns_cell. rewrite Hpath.
    assert (Hrow : JS.is_null row = false) by (destruct row; try reflexivity; discriminate Hget).
    rewrite Hrow. cbn [getColumnValue]. rewrite Hget.
    cbn [bind JS.is_null JS.is_undefined negb]. rewrite Hkeys. cbn [bind].
    rewrite Hfind, Hk. cbn [bind].
    rewrite (validateValue_other field VNull Hty). reflexivity.
  - intros row' Hget'. unfold getColumns_cell. rewrite Hpath.
    assert (Hrow : JS.is_null row' = false)
      by (destruct row'; try reflexivity; discriminate Hget').
    rewrite Hrow. cbn [getColumnValue]. rewrite Hget'. cbn [bind JS.is_null].
    rewrite (validateValue_other field (VStr EmptyString) Hty). reflexivity.
Qed.

End ScanNull.

Lemma getColumns_cell_null_by_scan_witness :
  @getColumns_cell Ref.offline (VObj [("Name", VStr "Bob"); ("Age", VNull)])
    (text_field "age") = Ok (VStr "null")
  /\ @getColumns_cell Ref.offline (VObj [("age", VNull)]) (text_field "age")
     = Ok (VStr EmptyString).
Proof.
  destruct (@getColumns_cell_null_by_scan Ref.offline
              (VObj [("Name", VStr "Bob"); ("Age", VNull)]) (text_field "age")
              "age" "Age" ["Name"; "Age"]) as [Hscan Hexact];
    try reflexivity; try discriminate.
  split; [exact Hscan | apply Hexact; reflexivity].
Defined.

(** ** Reads and writes of the cache *)

Section CacheAccess.

Context `{host : Host}.

Lemma reassemble_length (cacheData : list (string * string)) (cacheKeys : list string) :
  forall acc l,
    reassemble cacheData cacheKeys acc = Ok l ->
    (List.length l <= List.length acc + List.length cacheKeys)%nat.
Proof.
  induction cacheKeys as [| k rest IH]; intros acc l; cbn [reassemble].
  - intros H. injection H as <-. simpl. lia.
  - destruct (obj_get k cacheData) as [text |].
    + destruct (JSON_parse text) as [element | e]; cbn [bind]; [| discriminate].
      intros H. apply IH in H. rewrite List.length_app in H. simpl in *. lia.
    + intros H. apply IH in H. simpl. lia.
Qed.

(** X10.  A hit reads only.  When the index entry of the url is in the
    store, [getCachedData] leaves the world as it found it, whatever it
    returns: nothing is fetched and nothing is written.  What it returns
    is an array with at most one element per listed key. *)
Theorem getCachedData_hit_reads_only (u : string) (expiry : value) (w : World)
        (listed : string) (ttl : Z) :
  cache w !! indexKey u = Some (listed, ttl) ->
  snd (getCachedData u expiry w) = w
  /\ (forall v, fst (getCachedData u expiry w) = Ok v ->
        exists content,
          v = VArr content
          /\ (List.length content <= List.length (Str.split Str.comma listed))%nat).
Proof.
  intros Hindex. unfold getCachedData.
  destruct (Num.parseInt expiry) as [minutes | e].
  - unfold CacheService.get. rewrite Hindex.
    cbn [fmap option_fmap option_map fst].
    destruct (reassemble _ _ []) as [content | e] eqn:E.
    + split; [reflexivity |]. intros v Hv. cbn [fst] in Hv. injection Hv as <-.
      exists content. split; [reflexivity |].
      apply reassemble_length in E. simpl in E. exact E.
    + split; [reflexivity | discriminate].
  - split; [reflexivity | discriminate].
Qed.

(** X11.  Two urls with the same letters and digits in the same order have
    the same cache key: once the index entry of one is in the store, a
    call for the other is a hit on it and returns the same content. *)
Theorem getCachedData_shares_entries (u u' : string) (expiry : value) (w : World)
        (listed : string) (ttl : Z) :
  cacheKey u = cacheKey u' ->
  cache w !! indexKey u = Some (listed, ttl) ->
  getCachedData u' expiry w = getCachedData u expiry w.
Proof.
  intros Hkey Hindex. unfold getCachedData.
  assert (Hi : indexKey u' = indexKey u) by (unfold indexKey; rewrite Hkey; reflexivity).
  rewrite Hi. destruct (Num.parseInt expiry); [| reflexivity].
  unfold CacheService.get. rewrite Hindex. reflexivity.
Qed.

Lemma insert_all_keeps (ttl : Z) (entries : list (string * string)) :
  forall (m : gmap string (string * Z)) (k : string),
    is_Some (m !! k) -> is_Some (CacheService.insert_all ttl entries m !! k).
Proof.
  induction entries as [| [k' v'] es IH]; intros m k Hk; [exact Hk |].
  rewrite insert_all_cons. apply IH.
  destruct (String.eqb k' k) eqn:E.
  - apply String.eqb_eq in E. subst k'. rewrite lookup_insert_eq. eexists. reflexivity.
  - rewrite lookup_insert_ne; [exact Hk |]. intros ->.
    rewrite String.eqb_refl in E. discriminate.
Qed.

(** X12.  One fetch per miss, none per hit, whatever the outcome.  When the
    expiry reads as a number or as NaN, a call with no index entry for
    the url records exactly one request for that url, and a call with
    one records none.  In both cases no entry of the store is removed. *)
Theorem getCachedData_fetches (u : string) (expiry : value) (minutes : option Z)
        (w : World) :
  Num.parseInt expiry = Ok minutes ->
  (cache w !! indexKey u = None ->
   fetched (snd (getCachedData u expiry w)) = List.app (fetched w) [u])
  /\ (is_Some (cache w !! indexKey u) ->
      fetched (snd (getCachedData u expiry w)) = fetched w)
  /\ (forall k, is_Some (cache w !! k) ->
                is_Some (cache (snd (getCachedData u expiry w)) !! k)).
Proof.
  intros Hexp. unfold getCachedData. rewrite Hexp. unfold CacheService.get.
  destruct (cache w !! indexKey u) as [[listed ttl] |] eqn:Hindex;
    cbn [fmap option_fmap option_map fst].
  - split; [discriminate |].
    destruct (reassemble _ _ []); split; try reflexivity; intros k Hk; exact Hk.
  - unfold fetchJSON.
    destruct (UrlFetchApp_fetch u) as [body | e];
      [destruct (JSON_parse body) as [content | e] |].
    + destruct (chunk (cacheKey u) content (JS.for_in_keys content) []) as [cacheData | e].
      * unfold CacheService.putAll, CacheService.put. cbn [cache fetched].
        destruct (forallb _ cacheData).
        -- destruct (cache_accepts (indexKey u) _).
           ++ split; [reflexivity |]. split; [intros [x Hx]; discriminate |].
              intros k Hk. cbn [snd cache].
              destruct (String.eqb (indexKey u) k) eqn:E.
              ** apply String.eqb_eq in E. rewrite <- E, lookup_insert_eq.
                 eexists. reflexivity.
              ** rewrite lookup_insert_ne.
                 --- apply insert_all_keeps. exact Hk.
                 --- intros Heq. rewrite Heq, String.eqb_refl in E. discriminate.
           ++ split; [reflexivity |]. split; [intros [x Hx]; discriminate |].
              intros k Hk. cbn [snd cache]. apply insert_all_keeps. exact Hk.
        -- split; [reflexivity |]. split; [intros [x Hx]; discriminate |].
           intros k Hk. exact Hk.
      * split; [reflexivity |]. split; [intros [x Hx]; discriminate |].
        intros k Hk. exact Hk.
    + split; [reflexivity |]. split; [intros [x Hx]; discriminate |].
      intros k Hk. exact Hk.
    + split; [reflexivity |]. split; [intros [x Hx]; discriminate |].
      intros k Hk. exact Hk.
Qed.

End CacheAccess.

Lemma getCachedData_hit_reads_only_witness :
  snd (@getCachedData Ref.offline "http://x.co" (VStr "5")
         {| cache := {[ "httpxco.keys" := ("httpxco.0,httpxco.1", 300);
                        "httpxco.1" := ("7", 600) ]};
            fetched := [] |})
  = {| cache := {[ "httpxco.keys" := ("httpxco.0,httpxco.1", 300);
                   "httpxco.1" := ("7", 600) ]};
       fetched := [] |}.
Proof.
  apply (@getCachedData_hit_reads_only Ref.offline "http://x.co" (VStr "5")
           {| cache := {[ "httpxco.keys" := ("httpxco.0,httpxco.1", 300);
                          "httpxco.1" := ("7", 600) ]};
              fetched := [] |}
           "httpxco.0,httpxco.1" 300).
  vm_compute. reflexivity.
Defined.

Lemma getCachedData_shares_entries_witness :
  @getCachedData Ref.offline "http://ab/c" (VStr "5")
    {| cache := {[ "httpabc.keys" := ("httpabc.0", 300); "httpabc.0" := ("7", 600) ]};
       fetched := [] |}
  = @getCachedData Ref.offline "http://a.b/c" (VStr "5")
      {| cache := {[ "httpabc.keys" := ("httpabc.0", 300); "httpabc.0" := ("7", 600) ]};
         fetched := [] |}.
Proof.
  apply (@getCachedData_shares_entries Ref.offline "http://a.b/c" "http://ab/c"
           (VStr "5") _ "httpabc.0" 300).
  - reflexivity.
  - vm_compute. reflexivity.
Defined.

Lemma getCachedData_fetches_witness :
  fetched (snd (@getCachedData Ref.offline "http://x.co" (VStr "5") Ref.empty_world))
  = ["http://x.co"].
Proof.
  destruct (@getCachedData_fetches Ref.offline "http://x.co" (VStr "5") (Some 5)
              Ref.empty_world eq_refl) as [Hmiss _].
  apply Hmiss. reflexivity.
Defined.

(** ** Outcomes on sample hosts *)

Lemma fetchData_outcomes_witness :
  (exists msg,
     fst (@fetchData (Ref.serving "http://x.co" (Ref.stringify (VArr [])))
            {| url := VStr "http://x.co"; cache_flag := VBool false;
               cache_expiry_time := VUndefined |} Ref.empty_world)
     = Throw (UserError msg))
  \/ (exists content,
        fst (@fetchData (Ref.serving "http://x.co" (Ref.stringify (VArr [])))
               {| url := VStr "http://x.co"; cache_flag := VBool false;
                  cache_expiry_time := VUndefined |} Ref.empty_world)
        = Ok content
        /\ JS.truthy content = true
        /\ Regex.is_http_url "http://x.co" = true).
Proof.
  apply (@fetchData_outcomes (Ref.serving "http://x.co" (Ref.stringify (VArr [])))
           {| url := VStr "http://x.co"; cache_flag := VBool false;
              cache_expiry_time := VUndefined |} Ref.empty_world "http://x.co").
  reflexivity.
Defined.

Lemma getSchema_outcomes_witness :
  snd (@getSchema (Ref.serving "http://x.co"
                     (Ref.stringify (VArr [VObj [("Name", VStr "Ann")]])))
         {| url := VStr "http://x.co"; cache_flag := VBool true;
            cache_expiry_time := VStr "5" |} Ref.empty_world)
  = snd (@fetchData (Ref.serving "http://x.co"
                       (Ref.stringify (VArr [VObj [("Name", VStr "Ann")]])))
           {| url := VStr "http://x.co"; cache_flag := VBool true;
              cache_expiry_time := VStr "5" |} Ref.empty_world).
Proof.
  apply (@getSchema_outcomes
           (Ref.serving "http://x.co" (Ref.stringify (VArr [VObj [("Name", VStr "Ann")]])))
           {| url := VStr "http://x.co"; cache_flag := VBool true;
              cache_expiry_time := VStr "5" |} Ref.empty_world "http://x.co").
  reflexivity.
Defined.

Lemma fetchData_reports_fetch_failure_as_cache_failure_witness :
  @fetchData Ref.offline
    {| url := VStr "http://x.co"; cache_flag := VBool false;
       cache_expiry_time := VUndefined |} Ref.empty_world
  = (Throw (UserError
              (String.append
                 "Your request could not be cached. The rows of your dataset probably exceed the 100KB cache limit."
                 (@exn_text Ref.offline
                    (UserError
                       (String.append (Str.quoted "http://x.co")
                          (String.append " returned an error:"
                             (@exn_text Ref.offline
                                (HostError "Address unavailable")))))))),
     {| cache := ∅; fetched := ["http://x.co"] |}).
Proof.
  apply (@fetchData_reports_fetch_failure_as_cache_failure Ref.offline
           {| url := VStr "http://x.co"; cache_flag := VBool false;
              cache_expiry_time := VUndefined |} Ref.empty_world "http://x.co").
  - reflexivity.
  - vm_compute. reflexivity.
  - reflexivity.
  - left. exists (HostError "Address unavailable"). split; reflexivity.
Defined.

(** ** Object content through the cache *)

Section CachedObject.

Context `{host : Host}.

Lemma property_entry_key (ck : string) (props : list (string * value)) :
  List.map fst (List.map (property_entry ck) props)
  = List.map (property_key ck) (List.map fst props).
Proof. rewrite !List.map_map. reflexivity. Qed.

Lemma property_key_inj (ck a b : string) : property_key ck a = property_key ck b -> a = b.
Proof.
  unfold property_key. intros H. apply append_inj_l in H. apply append_inj_l in H. exact H.
Qed.

Lemma property_keys_NoDup (ck : string) (props : list (string * value)) :
  List.NoDup (List.map fst props) ->
  List.NoDup (List.map fst (List.map (property_entry ck) props)).
Proof.
  intros Hnd. rewrite property_entry_key. apply Finite.Injective_map_NoDup.
  - intros a b. apply property_key_inj.
  - exact Hnd.
Qed.

Lemma assoc_NoDup (k : string) (v : value) (props : list (string * value)) :
  List.NoDup (List.map fst props) -> In (k, v) props -> JS.assoc k props = Some v.
Proof.
  induction props as [| [k' v'] rest IH]; simpl; intros Hnd Hin; [destruct Hin |].
  apply List.NoDup_cons_iff in Hnd. destruct Hnd as [Hfresh Hnd].
  destruct Hin as [Heq | Hin].
  - injection Heq as -> ->. rewrite String.eqb_refl. reflexivity.
  - destruct (String.eqb k' k) eqn:E.
    + apply String.eqb_eq in E. subst k'. exfalso. apply Hfresh.
      apply List.in_map_iff. exists (k, v). split; [reflexivity | exact Hin].
    + apply IH; assumption.
Qed.

(** The miss branch builds one entry per property of an object, in the
    order of its keys. *)
Lemma chunk_object (ck : string) (props : list (string * value)) :
  List.NoDup (List.map fst props) ->
  forall rest done,
    props = List.app done rest ->
    chunk ck (VObj props) (List.map fst rest) (List.map (property_entry ck) done)
    = Ok (List.map (property_entry ck) props).
Proof.
  intros Hnd. induction rest as [| [k v] rest IH]; intros done Heq.
  - rewrite app_nil_r in Heq. subst done. reflexivity.
  - cbn [List.map chunk fst]. unfold JS.get.
    rewrite (assoc_NoDup k v props Hnd)
      by (rewrite Heq; apply in_or_app; right; left; reflexivity).
    cbn [bind]. rewrite obj_set_fresh.
    + change [(String.append ck (String.append "." k), JSON_stringify v)]
        with (List.map (property_entry ck) [(k, v)]).
      rewrite <- List.map_app. apply IH. rewrite <- app_assoc. exact Heq.
    + rewrite property_entry_key. intros Hin. apply List.in_map_iff in Hin.
      destruct Hin as (k' & Hk' & Hin). apply property_key_inj in Hk'. subst k'.
      rewrite Heq, List.map_app in Hnd. apply List.NoDup_remove_2 in Hnd.
      apply Hnd. apply in_or_app. left. exact Hin.
Qed.

(** The hit branch over entries that are all present: the values come
    back in the order of the listing. *)
Lemma reassemble_present (store : gmap string (string * Z)) (ck : string)
      (listed : list string) :
  forall (props : list (string * value)) (acc : list value),
    List.Forall (fun kv => In (property_key ck (fst kv)) listed
                           /\ (exists text t, store !! property_key ck (fst kv)
                                              = Some (text, t)
                                              /\ JSON_parse text = Ok (snd kv)))
                props ->
    reassemble (CacheService.getAll store listed)
               (List.map (property_key ck) (List.map fst props)) acc
    = Ok (List.app acc (List.map snd props)).
Proof.
  induction props as [| [k v] rest IH]; intros acc Hall; cbn [List.map reassemble fst snd].
  - rewrite app_nil_r. reflexivity.
  - inversion Hall as [| ? ? [Hin (text & t & Hstore & Hparse)] Hrest]; subst.
    cbn [fst snd] in *.
    rewrite (obj_get_getAll store listed _ Hin). unfold CacheService.get.
    rewrite Hstore. cbn [fmap option_fmap option_map fst].
    rewrite Hparse. cbn [bind]. rewrite (IH _ Hrest), <- app_assoc. reflexivity.
Qed.

Lemma cacheKey_no_comma (u : string) : no_comma (cacheKey u) = true.
Proof.
  unfold no_comma, cacheKey.
  apply (forallb_weaken _ _ _ alnum_not_comma). apply forallb_filter.
Qed.

Lemma property_key_no_comma (u k : string) :
  no_comma k = true -> no_comma (property_key (cacheKey u) k) = true.
Proof.
  intros Hk. unfold property_key, no_comma. rewrite !forallb_append.
  fold (no_comma (cacheKey u)). rewrite cacheKey_no_comma. exact Hk.
Qed.

Lemma property_key_not_index (u k : string) :
  k <> "keys" -> property_key (cacheKey u) k <> indexKey u.
Proof.
  unfold property_key, indexKey, keys_suffix. intros Hk H.
  apply append_inj_l in H. change ".keys" with (String.append "." "keys") in H.
  apply append_inj_l in H. exact (Hk H).
Qed.

(** X13.  Content that is an object does not come back from the cache as it
    went in.  On a cold store, for an object whose property names are
    distinct, hold no comma and are not "keys", with a codec that reads
    back what it wrote and a service that accepts the entries, the first
    call fetches the object and returns it; the second call, against the
    store the first one left, returns the array of the property values
    and leaves the store as it is. *)
Theorem getCachedData_object_comes_back_as_array
        (u body : string) (expiry expiry' : value) (minutes minutes' : option Z)
        (props : list (string * value)) (w : World) :
  Num.parseInt expiry = Ok minutes ->
  Num.parseInt expiry' = Ok minutes' ->
  cache w !! indexKey u = None ->
  cache w !! EmptyString = None ->
  UrlFetchApp_fetch u = Ok body ->
  JSON_parse body = Ok (VObj props) ->
  List.NoDup (List.map fst props) ->
  List.Forall (fun kv => no_comma (fst kv) = true
                         /\ fst kv <> "keys"
                         /\ JSON_parse (JSON_stringify (snd kv)) = Ok (snd kv)
                         /\ cache_accepts (property_key (cacheKey u) (fst kv))
                                          (JSON_stringify (snd kv)) = true) props ->
  cache_accepts (indexKey u)
                (Str.join "," (List.map (property_key (cacheKey u)) (List.map fst props)))
  = true ->
  exists w1,
    getCachedData u expiry w = (Ok (VObj props), w1)
    /\ fetched w1 = List.app (fetched w) [u]
    /\ getCachedData u expiry' w1 = (Ok (VArr (List.map snd props)), w1).
Proof.
  intros Hexp Hexp' Hcold Hempty Hfetch Hbody Hnd Hall Hacc_index.
  pose proof (proj1 (List.Forall_forall _ _) Hall) as Hprops.
  exists {| cache := <[indexKey u :=
                         (Str.join "," (List.map (property_key (cacheKey u))
                                                 (List.map fst props)),
                          cacheExpiryTime minutes)]>
                       (CacheService.insert_all CacheService.default_ttl
                          (List.map (property_entry (cacheKey u)) props) (cache w));
             fetched := List.app (fetched w) [u] |}.
  split; [| split; [reflexivity |]].
  - unfold getCachedData. rewrite Hexp. unfold CacheService.get. rewrite Hcold.
    cbn [fmap option_fmap option_map].
    unfold fetchJSON. rewrite Hfetch, Hbody.
    change (JS.for_in_keys (VObj props)) with (List.map fst props).
    pose proof (chunk_object (cacheKey u) props Hnd props [] eq_refl) as Hchunk.
    cbn [List.map] in Hchunk. rewrite Hchunk.
    unfold CacheService.putAll, CacheService.put. cbn [cache fetched].
    assert (Hok : forallb (fun kv => cache_accepts (fst kv) (snd kv))
                          (List.map (property_entry (cacheKey u)) props) = true).
    { apply List.forallb_forall. intros kv Hin. apply List.in_map_iff in Hin.
      destruct Hin as ([k v] & <- & Hin). apply (Hprops (k, v) Hin). }
    rewrite Hok, property_entry_key, Hacc_index. reflexivity.
  - unfold getCachedData. rewrite Hexp'. unfold CacheService.get at 1. cbn [cache].
    rewrite lookup_insert_eq. cbn [fmap option_fmap option_map fst].
    destruct props as [| p0 ps] eqn:Hshape.
    + cbn [List.map Str.join Str.split CacheService.getAll reassemble
             CacheService.insert_all fold_left].
      unfold CacheService.get.
      rewrite lookup_insert_ne by apply indexKey_nonempty.
      rewrite Hempty. reflexivity.
    + rewrite <- Hshape in *. rewrite split_join.
      * rewrite reassemble_present; [reflexivity |].
        apply List.Forall_forall. intros [k v] Hin. cbn [fst snd].
        destruct (Hprops (k, v) Hin) as (_ & Hkeys & Hcodec & _). cbn [fst snd] in *.
        split.
        -- apply List.in_map. apply (List.in_map fst _ (k, v)). exact Hin.
        -- exists (JSON_stringify v), CacheService.default_ttl. split; [| exact Hcodec].
           rewrite lookup_insert_ne
             by (intros Heq; exact (property_key_not_index u k Hkeys (eq_sym Heq))).
           apply insert_all_in.
           ++ apply property_keys_NoDup. exact Hnd.
           ++ apply (List.in_map (property_entry (cacheKey u)) _ (k, v)). exact Hin.
      * rewrite Hshape. discriminate.
      * apply List.Forall_forall. intros key Hin. apply List.in_map_iff in Hin.
        destruct Hin as (k & <- & Hin). apply List.in_map_iff in Hin.
        destruct Hin as ([k' v] & <- & Hin). apply property_key_no_comma.
        apply (Hprops (k', v) Hin).
Qed.

End CachedObject.

Lemma getCachedData_object_comes_back_as_array_witness :
  exists w1,
    @getCachedData (Ref.serving "http://x.co"
                      (Ref.stringify (VObj [("a", VNum (Fin 1)); ("b", VStr "x")])))
      "http://x.co" (VStr "5") Ref.empty_world
    = (Ok (VObj [("a", VNum (Fin 1)); ("b", VStr "x")]), w1)
    /\ fetched w1 = ["http://x.co"]
    /\ @getCachedData (Ref.serving "http://x.co"
                         (Ref.stringify (VObj [("a", VNum (Fin 1)); ("b", VStr "x")])))
         "http://x.co" (VStr "5") w1
       = (Ok (VArr [VNum (Fin 1); VStr "x"]), w1).
Proof.
  apply (@getCachedData_object_comes_back_as_array
           (Ref.serving "http://x.co"
              (Ref.stringify (VObj [("a", VNum (Fin 1)); ("b", VStr "x")])))
           "http://x.co"
           (Ref.stringify (VObj [("a", VNum (Fin 1)); ("b", VStr "x")]))
           (VStr "5") (VStr "5") (Some 5) (Some 5)
           [("a", VNum (Fin 1)); ("b", VStr "x")] Ref.empty_world).
  - reflexivity.
  - reflexivity.
  - reflexivity.
  - reflexivity.
  - reflexivity.
  - vm_compute. reflexivity.
  - apply List.NoDup_cons; [intros [H | []]; discriminate H |].
    apply List.NoDup_cons; [intros [] | apply List.NoDup_nil].
  - apply List.Forall_cons; [| apply List.Forall_cons; [| apply List.Forall_nil]];
      (split; [reflexivity |]); (split; [discriminate |]);
      split; vm_compute; reflexivity.
  - vm_compute. reflexivity.
Defined.

(** ** Discovery and projection agree on a tidy row *)

Section Agreement.

Context `{host : Host}.

Lemma norm_char_idempotent (c : ascii) :
  Str.to_lower (if Str.is_space (Str.to_lower (if Str.is_space c then Str.underscore else c))
                then Str.underscore
                else Str.to_lower (if Str.is_space c then Str.underscore else c))
  = Str.to_lower (if Str.is_space c then Str.underscore else c).
Proof. destruct c as [[] [] [] [] [] [] [] []]; reflexivity. Qed.

Lemma norm_char_not_dot (c : ascii) :
  Ascii.eqb c Str.dot = false ->
  Ascii.eqb (Str.to_lower (if Str.is_space c then Str.underscore else c)) Str.dot = false.
Proof. destruct c as [[] [] [] [] [] [] [] []]; intros H; try reflexivity; discriminate H. Qed.

Lemma normalize_cons (c : ascii) (s : string) :
  normalize (String c s)
  = String (Str.to_lower (if Str.is_space c then Str.underscore else c)) (normalize s).
Proof. reflexivity. Qed.

Lemma normalize_idempotent (s : string) : normalize (normalize s) = normalize s.
Proof.
  induction s as [| c s IH]; [reflexivity |].
  rewrite !normalize_cons, IH, norm_char_idempotent. reflexivity.
Qed.

Lemma normalize_append (a b : string) :
  normalize (String.append a b) = String.append (normalize a) (normalize b).
Proof.
  induction a as [| c a IH]; [reflexivity |].
  change (String.append (String c a) b) with (String c (String.append a b)).
  rewrite !normalize_cons, IH. reflexivity.
Qed.

Lemma normalize_free_of_dot (s : string) :
  free_of Str.dot s = true -> free_of Str.dot (normalize s) = true.
Proof.
  unfold free_of. induction s as [| c s IH]; [reflexivity |].
  rewrite normalize_cons. cbn [Str.forallb]. intros H.
  apply andb_true_iff in H. destruct H as [Hc Hs]. apply negb_true_iff in Hc.
  rewrite (norm_char_not_dot c Hc), (IH Hs). reflexivity.
Qed.

Lemma normalize_join (parts : list string) :
  normalize (Str.join "." parts) = Str.join "." (List.map normalize parts).
Proof.
  induction parts as [| p [| q ps] IH]; [reflexivity | reflexivity |].
  change (Str.join "." (p :: q :: ps))
    with (String.append p (String.append "." (Str.join "." (q :: ps)))).
  rewrite !normalize_append, IH. reflexivity.
Qed.

Lemma split_free_of_dot (s : string) :
  free_of Str.dot s = true -> Str.split Str.dot s = [s].
Proof.
  unfold free_of. induction s as [| c r IH]; simpl; [reflexivity |].
  intros H. apply andb_true_iff in H. destruct H as [Hc Hr].
  apply negb_true_iff in Hc. rewrite Hc, (IH Hr). reflexivity.
Qed.

Lemma split_append_dot (p rest : string) :
  free_of Str.dot p = true ->
  Str.split Str.dot (String.append p (String Str.dot rest))
  = p :: Str.split Str.dot rest.
Proof.
  unfold free_of. induction p as [| c r IH]; simpl.
  - intros _. reflexivity.
  - intros H. apply andb_true_iff in H. destruct H as [Hc Hr].
    apply negb_true_iff in Hc. rewrite Hc, (IH Hr). reflexivity.
Qed.

(** Splitting a dotted id gives its segments back, as long as no
    segment holds a dot. *)
Lemma split_join_dot (parts : list string) :
  parts <> [] -> List.Forall (fun p => free_of Str.dot p = true) parts ->
  Str.split Str.dot (Str.join "." parts) = parts.
Proof.
  induction parts as [| p [| q ps] IH]; intros Hne Hall.
  - congruence.
  - simpl. apply split_free_of_dot. inversion Hall; assumption.
  - inversion Hall as [| ? ? Hp Hrest]; subst.
    change (Str.join "." (p :: q :: ps))
      with (String.append p (String Str.dot (Str.join "." (q :: ps)))).
    rewrite split_append_dot by exact Hp.
    rewrite IH; [reflexivity | discriminate | exact Hrest].
Qed.

Lemma replace_first_dot_free (s : string) :
  free_of Str.dot s = true -> Str.replace_first_dot s = s.
Proof.
  unfold free_of. induction s as [| c r IH]; simpl; [reflexivity |].
  intros H. apply andb_true_iff in H. destruct H as [Hc Hr].
  apply negb_true_iff in Hc. rewrite Hc, (IH Hr). reflexivity.
Qed.

Lemma append_assoc (a b c : string) :
  String.append (String.append a b) c = String.append a (String.append b c).
Proof.
  induction a as [| x a IH]; [reflexivity |].
  change (String x (String.append (String.append a b) c)
          = String x (String.append a (String.append b c))).
  rewrite IH. reflexivity.
Qed.

Lemma join_dot_cons (p q : string) (ps : list string) :
  Str.join "." (String.append p (String.append "." q) :: ps)
  = Str.join "." (p :: q :: ps).
Proof.
  destruct ps as [| r rs]; [reflexivity |].
  change (Str.join "." (String.append p (String.append "." q) :: r :: rs))
    with (String.append (String.append p (String.append "." q))
            (String.append "." (Str.join "." (r :: rs)))).
  change (Str.join "." (p :: q :: r :: rs))
    with (String.append p
            (String.append "." (String.append q
                                  (String.append "." (Str.join "." (r :: rs)))))).
  rewrite !append_assoc. reflexivity.
Qed.

Lemma getElementKey_plain (key : jskey) (k : string) :
  k <> EmptyString -> free_of Str.dot k = true ->
  getElementKey key k
  = match key with
    | KStr parent => KStr (String.append parent (String.append "." k))
    | KNull | KUndefined => KStr k
    end.
Proof.
  intros Hne Hfree. unfold getElementKey.
  destruct (String.eqb k "") eqn:E; [apply String.eqb_eq in E; contradiction |].
  rewrite (replace_first_dot_free k Hfree). reflexivity.
Qed.

Lemma key_of_path_from (rest : list string) :
  List.Forall (fun k => k <> EmptyString /\ free_of Str.dot k = true) rest ->
  forall pre, fold_left getElementKey rest (KStr pre) = KStr (Str.join "." (pre :: rest)).
Proof.
  induction rest as [| q rest IH]; intros Hall pre; [reflexivity |].
  inversion Hall as [| ? ? [Hne Hfree] Hrest]; subst.
  cbn [fold_left]. rewrite (getElementKey_plain (KStr pre) q Hne Hfree).
  rewrite (IH Hrest). rewrite join_dot_cons. reflexivity.
Qed.

(** Along segments that are not empty and hold no dot, the key that
    [createFields] builds is the segments joined by dots. *)
Lemma key_of_path_join (path : list string) :
  path <> [] ->
  List.Forall (fun k => k <> EmptyString /\ free_of Str.dot k = true) path ->
  key_of_path path = KStr (Str.join "." path).
Proof.
  destruct path as [| k rest]; intros Hne Hall; [congruence |].
  inversion Hall as [| ? ? [Hk Hfree] Hrest]; subst.
  unfold key_of_path. cbn [fold_left].
  rewrite (getElementKey_plain KNull k Hk Hfree). apply key_of_path_from. exact Hrest.
Qed.

Lemma Tidy_object_inv (props : list (string * value)) :
  Tidy (VObj props) ->
  List.NoDup (List.map normalize (List.map fst props))
  /\ List.Forall (fun kv => fst kv <> EmptyString /\ free_of Str.dot (fst kv) = true
                            /\ Tidy (snd kv)) props.
Proof.
  intros H. inversion H as [v Hleaf | ps Hnd Hall]; subst.
  - discriminate Hleaf.
  - split; [assumption |]. apply List.Forall_forall. intros kv Hkv.
    destruct (proj1 (List.Forall_forall _ _) Hall kv Hkv) as (Hne & Hfree & _ & Htidy).
    split; [exact Hne |]. split; [exact Hfree | exact Htidy].
Qed.

Lemma is_ascii_append (a b : string) :
  Str.is_ascii (String.append a b) = Str.is_ascii a && Str.is_ascii b.
Proof. apply forallb_append. Qed.

Lemma is_ascii_join (parts : list string) :
  List.Forall (fun p => Str.is_ascii p = true) parts ->
  Str.is_ascii (Str.join "." parts) = true.
Proof.
  induction parts as [| p [| q ps] IH]; intros Hall.
  - reflexivity.
  - inversion Hall; assumption.
  - inversion Hall as [| ? ? Hp Hrest]; subst.
    change (Str.join "." (p :: q :: ps))
      with (String.append p (String.append "." (Str.join "." (q :: ps)))).
    rewrite !is_ascii_append, Hp, (IH Hrest). reflexivity.
Qed.

(** The names on a path through ASCII text are ASCII. *)
Lemma At_ascii_path (v : value) (path : list string) (x : value) :
  At v path x -> JS.ascii_text v = true ->
  List.Forall (fun k => Str.is_ascii k = true) path.
Proof.
  induction 1 as [v | props k child path x Hin Hat IH]; intros Hascii.
  - constructor.
  - cbn [JS.ascii_text] in Hascii.
    pose proof (proj1 (List.forallb_forall _ _) Hascii (k, child) Hin) as Hkv.
    cbn [fst snd] in Hkv. apply andb_true_iff in Hkv. destruct Hkv as [Hk Hchild].
    constructor; [exact Hk | apply IH; exact Hchild].
Qed.

Lemma At_Tidy_path (v : value) (path : list string) (x : value) :
  At v path x -> Tidy v ->
  List.Forall (fun k => k <> EmptyString /\ free_of Str.dot k = true) path.
Proof.
  induction 1 as [v | props k child path x Hin Hat IH]; intros Htidy.
  - constructor.
  - apply Tidy_object_inv in Htidy. destruct Htidy as [_ Hall].
    pose proof (proj1 (List.Forall_forall _ _) Hall (k, child) Hin) as (Hne & Hfree & Hchild).
    constructor; [split; assumption | apply IH; exact Hchild].
Qed.

Lemma At_not_null (v : value) (path : list string) (x : value) :
  At v path x -> JS.loosely_null x = false -> JS.loosely_null v = false.
Proof. induction 1; intros Hx; [exact Hx | reflexivity]. Qed.

Lemma normalized_keys_distinct (props : list (string * value)) :
  List.NoDup (List.map normalize (List.map fst props)) ->
  forall a b, In a props -> In b props -> normalize (fst a) = normalize (fst b) -> a = b.
Proof.
  induction props as [| p ps IH]; intros Hnd a b Ha Hb Heq; [destruct Ha |].
  cbn [List.map] in Hnd. apply List.NoDup_cons_iff in Hnd. destruct Hnd as [Hfresh Hnd].
  assert (Hmem : forall c, In c ps -> In (normalize (fst c)) (List.map normalize (List.map fst ps))).
  { intros c Hc. apply List.in_map. apply List.in_map. exact Hc. }
  destruct Ha as [<- | Ha], Hb as [<- | Hb].
  - reflexivity.
  - exfalso. apply Hfresh. rewrite Heq. apply Hmem. exact Hb.
  - exfalso. apply Hfresh. rewrite <- Heq. apply Hmem. exact Ha.
  - apply IH; assumption.
Qed.

(** One step of [getColumnValue] on a tidy object: the normalized name
    of a property leads to its value, by the direct read or by the
    scan. *)
Lemma getColumnValue_step (props : list (string * value)) (k : string) (child : value)
      (rest : list string) :
  List.NoDup (List.map normalize (List.map fst props)) ->
  In (k, child) props ->
  JS.loosely_null child = false ->
  getColumnValue (normalize k :: rest) (VObj props) = getColumnValue rest child.
Proof.
  intros Hnd Hin Hchild. cbn [getColumnValue JS.get].
  assert (Hread : forall k' y, JS.assoc k' props = Some y ->
                               normalize k' = normalize k -> y = child).
  { intros k' y Hy Hk'. apply assoc_In in Hy.
    pose proof (normalized_keys_distinct props Hnd (k', y) (k, child) Hy Hin Hk') as Heq.
    injection Heq as _ ->. reflexivity. }
  destruct (JS.assoc (normalize k) props) as [y |] eqn:Hdirect; cbn [bind].
  - rewrite (Hread _ y Hdirect (normalize_idempotent k)).
    destruct child; try discriminate Hchild; reflexivity.
  - cbn [JS.is_null JS.is_undefined negb JS.keys bind].
    destruct (find_normalized (normalize k) (List.map fst props)) as [k' |] eqn:Hfind.
    + unfold find_normalized in Hfind. apply List.find_some in Hfind.
      destruct Hfind as [Hk' Hnorm]. apply String.eqb_eq in Hnorm.
      destruct (assoc_of_key k' props Hk') as [y Hy].
      rewrite Hy. cbn [bind]. rewrite (Hread k' y Hy Hnorm). reflexivity.
    + exfalso. unfold find_normalized in Hfind.
      assert (Hmem : In k (List.map fst props))
        by (apply (List.in_map fst _ (k, child)); exact Hin).
      pose proof (List.find_none _ _ Hfind k Hmem) as Hk. cbv beta in Hk.
      rewrite String.eqb_refl in Hk. discriminate Hk.
Qed.

(** On a tidy value the normalized names of a path lead where the path
    leads. *)
Lemma getColumnValue_follows (v : value) (path : list string) (x : value) :
  At v path x -> Tidy v -> JS.loosely_null x = false ->
  getColumnValue (List.map normalize path) v = Ok x.
Proof.
  induction 1 as [v | props k child path x Hin Hat IH]; intros Htidy Hx.
  - reflexivity.
  - apply Tidy_object_inv in Htidy. destruct Htidy as [Hnd Hall].
    pose proof (proj1 (List.Forall_forall _ _) Hall (k, child) Hin) as (_ & _ & Hchild).
    cbn [List.map]. rewrite (getColumnValue_step props k child _ Hnd Hin).
    + apply IH; assumption.
    + apply (At_not_null child path x Hat Hx).
Qed.

(** X14.  Discovery and projection agree.  On a sample row of ASCII
    text whose property names are not empty, hold no dot, stay distinct
    once normalized and do not normalize to the name of a member of
    [Object.prototype], every field that [getFields] discovers either
    names a property whose value is null, or has an id that
    [getColumnValue] resolves on that row to a leaf (a scalar or an
    array, not null) whose semantic type is the type of the field. *)
Theorem getFields_ids_resolve (content : value) (fields : list Field) :
  JS.ascii_text (first_row content) = true ->
  Tidy (first_row content) ->
  getFields content = Ok fields ->
  List.Forall
    (fun f =>
       classified_from_container (first_row content) f
       \/ exists leaf,
            getColumnValue (Str.split Str.dot (getId f)) (first_row content) = Ok leaf
            /\ is_plain_object leaf = false
            /\ JS.loosely_null leaf = false
            /\ getSemanticType leaf = Ok (getType f))
    fields.
Proof.
  intros Hascii Htidy Hfields. unfold getFields in Hfields.
  destruct (negb _ || _) eqn:Hguard; [discriminate Hfields |].
  destruct (createFields [] KNull (first_row content) true) as [fs | e] eqn:Hcreate;
    [| discriminate Hfields].
  injection Hfields as <-.
  apply orb_false_iff in Hguard. destruct Hguard as [Hshape Hnull].
  assert (Hloose : JS.loosely_null (first_row content) = false).
  { destruct (first_row content); try reflexivity; try discriminate Hnull.
    discriminate Hshape. }
  destruct (createFields_sound (first_row content) (first_row content) [] [] fs
              (At_here _) Hloose Hcreate) as (new & Hnew & Hall).
  cbn [List.app] in Hnew. subst new.
  apply List.Forall_forall. intros f Hf.
  pose proof (proj1 (List.Forall_forall _ _) Hall f Hf) as [[Hleaf | Hcont] [Hid _]].
  - right. destruct Hleaf as (path & leaf & Hat & Hne & Hplain & Hleafnull & Hkey & Htype).
    exists leaf. pose proof (At_Tidy_path _ _ _ Hat Htidy) as Hpath.
    rewrite (key_of_path_join path Hne Hpath) in Hkey. injection Hkey as Hname.
    assert (Hname_ascii : Str.is_ascii (getName f) = true).
    { rewrite <- Hname. apply is_ascii_join. apply (At_ascii_path _ _ _ Hat Hascii). }
    rewrite (Hid Hname_ascii), <- Hname, normalize_join, split_join_dot.
    + split; [apply getColumnValue_follows; assumption |].
      split; [exact Hplain |]. split; [exact Hleafnull | exact Htype].
    + destruct path; [congruence | discriminate].
    + apply List.Forall_forall. intros seg Hseg. apply List.in_map_iff in Hseg.
      destruct Hseg as (k & <- & Hk). apply normalize_free_of_dot.
      apply (proj1 (List.Forall_forall _ _) Hpath k Hk).
  - left. exact Hcont.
Qed.

End Agreement.

Lemma getFields_ids_resolve_witness :
  List.Forall
    (fun f =>
       @classified_from_container Ref.offline
         (VObj [("First Name", VStr "Ann"); ("Address", VObj [("City", VStr "Oslo")])]) f
       \/ exists leaf,
            getColumnValue (Str.split Str.dot (getId f))
              (VObj [("First Name", VStr "Ann"); ("Address", VObj [("City", VStr "Oslo")])])
            = Ok leaf
            /\ is_plain_object leaf = false
            /\ JS.loosely_null leaf = false
            /\ @getSemanticType Ref.offline leaf = Ok (getType f))
    [text_field_named "first_name" "First Name";
     text_field_named "address.city" "Address.City"].
Proof.
  apply (@getFields_ids_resolve Ref.offline
           (VArr [VObj [("First Name", VStr "Ann");
                        ("Address", VObj [("City", VStr "Oslo")])]])).
  - reflexivity.
  - apply Tidy_object.
    + apply List.NoDup_cons; [intros [H | []]; discriminate H |].
      apply List.NoDup_cons; [intros [] | apply List.NoDup_nil].
    + apply List.Forall_cons; [| apply List.Forall_cons; [| apply List.Forall_nil]].
      * split; [discriminate |]. split; [reflexivity |]. split; [reflexivity |].
        apply Tidy_leaf. reflexivity.
      * split; [discriminate |]. split; [reflexivity |]. split; [reflexivity |].
        apply Tidy_object.
        -- apply List.NoDup_cons; [intros [] | apply List.NoDup_nil].
        -- apply List.Forall_cons; [| apply List.Forall_nil].
           split; [discriminate |]. split; [reflexivity |]. split; [reflexivity |].
           apply Tidy_leaf. reflexivity.
  - vm_compute. reflexivity.
Defined.

(** ** When schema discovery succeeds *)

Section Discovery.

Context `{host : Host}.

Lemma toString_ok (v : value) : is_ok (JS.toString v) = stringable v.
Proof.
  induction v as [| | b | n | s | elems IH | props _] using value_nested_ind;
    try reflexivity.
  - destruct b; reflexivity.
  - cbn [JS.toString stringable].
    match goal with
    | |- is_ok (bind (?go elems) _) = _ =>
        assert (Hgo : is_ok (go elems) = List.forallb stringable elems)
    end.
    { induction elems as [| x rest IHrest]; [reflexivity |].
      inversion IH as [| ? ? Hx Hrest]; subst. specialize (IHrest Hrest).
      cbn [List.forallb]. rewrite <- Hx, <- IHrest.
      destruct x as [| | b | n | s | l | l]; cbn [JS.toString bind is_ok andb];
        try (match goal with
             | |- is_ok (bind ?r _) = _ => destruct r; reflexivity
             end).
      - destruct b; cbn [bind];
          match goal with
          | |- is_ok (bind ?r _) = _ => destruct r; reflexivity
          end.
      - match goal with
        | |- is_ok (bind (bind ?r _) _) = _ => destruct r; cbn [bind is_ok andb]
        end; [| reflexivity].
        match goal with
        | |- is_ok (bind ?r _) = _ => destruct r; reflexivity
        end.
      - destruct (JS.has_own "toString" l); cbn [bind is_ok andb]; [reflexivity |].
        match goal with
        | |- is_ok (bind ?r _) = _ => destruct r; reflexivity
        end. }
    rewrite <- Hgo.
    match goal with
    | |- is_ok (bind ?r _) = _ => destruct r; reflexivity
    end.
  - cbn [JS.toString stringable]. destruct (JS.has_own "toString" props); reflexivity.
Qed.

Lemma toString_stringable (v : value) :
  stringable v = true -> exists s, JS.toString v = Ok s.
Proof.
  intros H. rewrite <- toString_ok in H.
  destruct (JS.toString v) as [s | e]; [exists s; reflexivity | discriminate H].
Qed.

Lemma toString_not_stringable (v : value) :
  stringable v = false -> exists e, JS.toString v = Throw e.
Proof.
  intros H. rewrite <- toString_ok in H.
  destruct (JS.toString v) as [s | e]; [discriminate H | exists e; reflexivity].
Qed.

(** [getSemanticType] returns a type exactly for the classifiable
    values. *)
Lemma getSemanticType_ok (v : value) : is_ok (getSemanticType v) = classifiable v.
Proof.
  destruct v as [| | b | [z | | |] | s | elems | props]; try reflexivity.
  - destruct b; reflexivity.
  - rewrite getSemanticType_finite_number. reflexivity.
  - rewrite getSemanticType_string.
    destruct (Num.numeric_string s); [reflexivity |].
    destruct (Regex.looks_like_url s); [reflexivity |].
    destruct (Date_parse s); reflexivity.
  - cbn [classifiable]. destruct (stringable (VArr elems)) eqn:Hs.
    + destruct (toString_stringable _ Hs) as [s Hstr].
      unfold getSemanticType, Num.parseFloat_isNaN, Num.isFinite. rewrite Hstr.
      cbn [bind]. destruct (negb (Num.parseFloat_isNaN_string s)); cbn [bind];
        [destruct (Num.isFinite_string s) |]; reflexivity.
    + destruct (toString_not_stringable _ Hs) as [e Hstr].
      unfold getSemanticType, Num.parseFloat_isNaN. rewrite Hstr. reflexivity.
  - cbn [classifiable]. destruct (stringable (VObj props)) eqn:Hs.
    + destruct (toString_stringable _ Hs) as [s Hstr].
      unfold getSemanticType, Num.parseFloat_isNaN, Num.isFinite. rewrite Hstr.
      cbn [bind]. destruct (negb (Num.parseFloat_isNaN_string s)); cbn [bind];
        [destruct (Num.isFinite_string s) |]; reflexivity.
    + destruct (toString_not_stringable _ Hs) as [e Hstr].
      unfold getSemanticType, Num.parseFloat_isNaN. rewrite Hstr. reflexivity.
Qed.

Lemma createField_ok (fields : list Field) (key : jskey) (v : value) :
  is_ok (createField fields key v) = classifiable v && is_named key.
Proof.
  unfold createField. rewrite <- getSemanticType_ok.
  destruct (getSemanticType v); [| reflexivity].
  destruct key; reflexivity.
Qed.

Lemma createField_length (fields fields' : list Field) (key : jskey) (v : value) :
  createField fields key v = Ok fields' ->
  List.length fields' = (List.length fields + 1)%nat.
Proof.
  intros H. apply createField_inv in H. destruct H as (k & t & _ & _ & ->).
  rewrite List.length_app. reflexivity.
Qed.

Lemma getElementKey_named (key : jskey) (k : string) :
  is_named (getElementKey key k) = negb (String.eqb k "")
  /\ getElementKey key k <> KNull.
Proof.
  unfold getElementKey. destruct (String.eqb k ""); [split; [reflexivity | discriminate] |].
  destruct key; split; try reflexivity; discriminate.
Qed.

(** [createFields] returns exactly on the discoverable values, and
    then adds one field per leaf. *)
Lemma createFields_ok :
  forall (v : value) (fields : list Field) (key : jskey),
    is_plain_object v = true \/ key <> KNull ->
    is_ok (createFields fields key v true) = discoverable (is_named key) v
    /\ (forall fields', createFields fields key v true = Ok fields' ->
          List.length fields' = (List.length fields + field_count v)%nat).
Proof.
  induction v as [| | b | n | s | elems _ | props IH] using value_nested_ind;
    intros fields key Hkey;
    try (destruct Hkey as [Hkey | Hkey]; [discriminate Hkey |];
         rewrite createFields_leaf by reflexivity;
         destruct key; [congruence | |];
         (split; [rewrite createField_ok; cbn [discoverable is_named];
                  rewrite andb_comm; reflexivity
                 | intros fields' H; apply createField_length in H; exact H])).
  clear Hkey. rewrite createFields_object. cbn [discoverable field_count].
  pose proof (proj1 (List.Forall_forall _ _) IH) as IHprops. clear IH.
  assert (Hloop :
    forall ps, incl ps props ->
    forall fs,
      is_ok (createFields_forEach key (VObj props) true ps fs)
      = List.forallb
          (fun kv => if JS.loosely_null (snd kv)
                     then negb (JS.has_own "toString" props)
                     else discoverable (negb (String.eqb (fst kv) "")) (snd kv)) ps
      /\ (forall fs', createFields_forEach key (VObj props) true ps fs = Ok fs' ->
            List.length fs'
            = (List.length fs
               + list_sum (List.map (fun kv => if JS.loosely_null (snd kv) then 1%nat
                                               else field_count (snd kv)) ps))%nat)).
  { induction ps as [| [k child] rest IHps]; intros Hincl fs.
    - split; [reflexivity |]. intros fs' H. injection H as <-. simpl. lia.
    - assert (Hin : In (k, child) props) by (apply Hincl; left; reflexivity).
      assert (Hrest : incl rest props) by (intros x Hx; apply Hincl; right; exact Hx).
      cbn [createFields_forEach List.forallb List.map list_sum fold_right fst snd andb].
      fold (list_sum (List.map (fun kv => if JS.loosely_null (snd kv) then 1%nat
                                          else field_count (snd kv)) rest)).
      destruct (JS.loosely_null child) eqn:Hchild; cbn [negb andb].
      + pose proof (createField_ok fs (KStr k) (VObj props)) as Hok.
        cbn [classifiable stringable is_named] in Hok. rewrite andb_true_r in Hok.
        destruct (createField fs (KStr k) (VObj props)) as [fs1 | e] eqn:E; cbn [bind].
        * cbn [is_ok] in Hok. rewrite <- Hok at 1. cbn [andb].
          destruct (IHps Hrest fs1) as [Hrest_ok Hrest_len].
          split; [exact Hrest_ok |]. intros fs' H. apply Hrest_len in H.
          apply createField_length in E. lia.
        * cbn [is_ok] in Hok. rewrite <- Hok at 1.
          split; [reflexivity | discriminate].
      + destruct (getElementKey_named key k) as [Hnamed Hnot].
        destruct (IHprops (k, child) Hin fs (getElementKey key k) (or_intror Hnot))
          as [Hok Hlen].
        cbn [snd] in Hok, Hlen. rewrite Hnamed in Hok.
        destruct (createFields fs (getElementKey key k) child true) as [fs1 | e] eqn:E;
          cbn [bind].
        * cbn [is_ok] in Hok. rewrite <- Hok. cbn [andb].
          destruct (IHps Hrest fs1) as [Hrest_ok Hrest_len].
          split; [exact Hrest_ok |]. intros fs' H. apply Hrest_len in H.
          specialize (Hlen fs1 eq_refl). lia.
        * cbn [is_ok] in Hok. rewrite <- Hok.
          split; [reflexivity | discriminate]. }
  apply (Hloop props (incl_refl props) fields).
Qed.

Lemma getFields_on_object (content : value) (props : list (string * value)) :
  first_row content = VObj props ->
  getFields content
  = match createFields [] KNull (VObj props) true with
    | Ok fields => Ok fields
    | Throw _ => sendUserError "Unable to identify the data format of one of your fields."
    end.
Proof. intros H. unfold getFields. rewrite H. reflexivity. Qed.

(** X15.  Which sample rows [getFields] accepts.  For a sample row that is
    an object: when every leaf is classifiable and sits under a name
    that is not empty, and every object with a null property has no
    property named toString, [getFields] returns one field per leaf;
    otherwise it fails with the user error about the data format. *)
Theorem getFields_succeeds (content : value) (props : list (string * value)) :
  first_row content = VObj props ->
  (discoverable false (VObj props) = true ->
   exists fields, getFields content = Ok fields
                  /\ List.length fields = field_count (VObj props))
  /\ (discoverable false (VObj props) = false ->
      getFields content
      = Throw (UserError "Unable to identify the data format of one of your fields.")).
Proof.
  intros Hrow. rewrite (getFields_on_object content props Hrow).
  destruct (createFields_ok (VObj props) [] KNull (or_introl eq_refl)) as [Hok Hlen].
  change (is_named KNull) with false in Hok.
  destruct (createFields [] KNull (VObj props) true) as [fields | e].
  - split.
    + intros _. exists fields. split; [reflexivity |]. apply (Hlen fields eq_refl).
    + intros H. rewrite H in Hok. discriminate Hok.
  - split.
    + intros H. rewrite H in Hok. discriminate Hok.
    + intros _. reflexivity.
Qed.

Lemma forallb_false_in {A : Type} (f : A -> bool) (l : list A) (x : A) :
  In x l -> f x = false -> List.forallb f l = false.
Proof.
  intros Hin Hx. destruct (List.forallb f l) eqn:E; [| reflexivity].
  rewrite (proj1 (List.forallb_forall f l) E x Hin) in Hx. discriminate Hx.
Qed.

Lemma discoverable_empty_name (v : value) (path : list string) (x : value) :
  At v path x ->
  forall props child,
    x = VObj props -> In (EmptyString, child) props ->
    JS.loosely_null child = false -> is_plain_object child = false ->
    forall named, discoverable named v = false.
Proof.
  induction 1 as [v | props0 k child0 path x Hin Hat IH];
    intros props child Hx Hchild Hnull Hplain named.
  - subst v. cbn [discoverable].
    apply (forallb_false_in _ props (EmptyString, child) Hchild).
    cbn [fst snd]. rewrite Hnull.
    destruct child; try discriminate Hplain; reflexivity.
  - cbn [discoverable].
    apply (forallb_false_in _ props0 (k, child0) Hin). cbn [fst snd].
    assert (Hchild0 : JS.loosely_null child0 = false).
    { apply (At_not_null child0 path x Hat). subst x. reflexivity. }
    rewrite Hchild0. apply (IH props child Hx Hchild Hnull Hplain).
Qed.

Lemma At_source_object (v : value) (path : list string) (props : list (string * value)) :
  At v path (VObj props) -> exists props0, v = VObj props0.
Proof. intros H. inversion H; subst; eexists; reflexivity. Qed.

(** X16.  A property with an empty name whose value is a scalar or an array
    (not null), at any depth of the sample row, makes [getFields] fail
    with the user error about the data format. *)
Theorem getFields_empty_name_fails (content : value) (path : list string)
        (props : list (string * value)) (child : value) :
  At (first_row content) path (VObj props) ->
  In (EmptyString, child) props ->
  JS.loosely_null child = false ->
  is_plain_object child = false ->
  getFields content
  = Throw (UserError "Unable to identify the data format of one of your fields.").
Proof.
  intros Hat Hin Hnull Hplain.
  assert (Hshape : exists props0, first_row content = VObj props0).
  { apply (At_source_object _ _ _ Hat). }
  destruct Hshape as [props0 Hrow].
  rewrite (getFields_on_object content props0 Hrow).
  destruct (createFields_ok (VObj props0) [] KNull (or_introl eq_refl)) as [Hok _].
  rewrite <- Hrow in Hok at 2.
  rewrite (discoverable_empty_name _ _ _ Hat props child eq_refl Hin Hnull Hplain) in Hok.
  destruct (createFields [] KNull (VObj props0) true); [discriminate Hok | reflexivity].
Qed.

End Discovery.

Lemma getFields_succeeds_witness :
  exists fields,
    @getFields Ref.offline
      (VArr [VObj [("id", VNum (Fin 7)); ("tags", VArr [VStr "a"; VStr "b"]);
                   ("owner", VObj [("name", VStr "Ann"); ("since", VNull)])]])
    = Ok fields
    /\ List.length fields = 4%nat.
Proof.
  apply (@getFields_succeeds Ref.offline
           (VArr [VObj [("id", VNum (Fin 7)); ("tags", VArr [VStr "a"; VStr "b"]);
                        ("owner", VObj [("name", VStr "Ann"); ("since", VNull)])]])
           [("id", VNum (Fin 7)); ("tags", VArr [VStr "a"; VStr "b"]);
            ("owner", VObj [("name", VStr "Ann"); ("since", VNull)])]);
    reflexivity.
Defined.

Lemma getFields_empty_name_fails_witness :
  @getFields Ref.offline
    (VObj [("a", VNum (Fin 1)); ("b", VObj [(EmptyString, VStr "x")])])
  = Throw (UserError "Unable to identify the data format of one of your fields.").
Proof.
  apply (@getFields_empty_name_fails Ref.offline
           (VObj [("a", VNum (Fin 1)); ("b", VObj [(EmptyString, VStr "x")])])
           ["b"] [(EmptyString, VStr "x")] (VStr "x")).
  - apply (At_prop _ "b" (VObj [(EmptyString, VStr "x")])).
    + right. left. reflexivity.
    + apply At_here.
  - left. reflexivity.
  - reflexivity.
  - reflexivity.
Defined.

(** ** Timestamps through the date conversion *)

Section Timestamps.

Context `{host : Host}.

Lemma doe_year (yoe doy : Z) :
  0 <= yoe <= 399 -> 0 <= doy <= 365 ->
  (doy = 365 -> (yoe + 1) mod 4 = 0
                /\ ((yoe + 1) mod 100 <> 0 \/ (yoe + 1) mod 400 = 0)) ->
  0 <= yoe * 365 + yoe / 4 - yoe / 100 + doy < 146097
  /\ Date.year_of_era (yoe * 365 + yoe / 4 - yoe / 100 + doy) = yoe.
Proof.
  intros Hy Hd Hleap. unfold Date.year_of_era.
  split; Z.div_mod_to_equations; lia.
Qed.

Lemma is_leap_spec (y : Z) :
  Date.is_leap y = true <-> (y mod 4 = 0 /\ (y mod 100 <> 0 \/ y mod 400 = 0)).
Proof.
  unfold Date.is_leap. rewrite orb_true_iff, andb_true_iff, negb_true_iff.
  rewrite !Z.eqb_eq, Z.eqb_neq. split.
  - intros [[H4 H100] | H400]; [split; [exact H4 | left; exact H100] |].
    split; [| right; exact H400]. Z.div_mod_to_equations. lia.
  - intros [H4 [H100 | H400]]; [left; split; assumption | right; exact H400].
Qed.

(** The calendar date read off the day number of a calendar date is
    that date. *)
Lemma civil_of_days_from_civil (y m d : Z) :
  1 <= m <= 12 -> 1 <= d <= Date.days_in_month y m ->
  Date.civil_year (Date.days_from_civil y m d) = y
  /\ Date.civil_month (Date.day_of_era (Date.days_from_civil y m d)) = m
  /\ Date.civil_day (Date.day_of_era (Date.days_from_civil y m d)) = d.
Proof.
  intros Hm Hd. set (days := Date.days_from_civil y m d).
  set (y' := if m <=? 2 then y - 1 else y).
  set (yoe := y' - y' / 400 * 400).
  set (doy := (153 * (if 2 <? m then m - 3 else m + 9) + 2) / 5 + d - 1).
  assert (Hyoe : 0 <= yoe <= 399) by (subst yoe; Z.div_mod_to_equations; lia).
  assert (Hleap : m = 2 -> d = 29 -> (yoe + 1) mod 4 = 0
                    /\ ((yoe + 1) mod 100 <> 0 \/ (yoe + 1) mod 400 = 0)).
  { intros -> ->. unfold Date.days_in_month in Hd. cbn in Hd.
    destruct (Date.is_leap y) eqn:E; [| lia].
    apply is_leap_spec in E. subst yoe y'. cbn. Z.div_mod_to_equations. lia. }
  assert (Hdim : d <= 31 /\ (m = 2 -> d <= 29)
                 /\ (m = 4 \/ m = 6 \/ m = 9 \/ m = 11 -> d <= 30)).
  { unfold Date.days_in_month in Hd.
    destruct (m =? 2) eqn:E2.
    - apply Z.eqb_eq in E2. destruct (Date.is_leap y); lia.
    - apply Z.eqb_neq in E2.
      destruct ((m =? 4) || (m =? 6) || (m =? 9) || (m =? 11)) eqn:E30.
      + lia.
      + rewrite !orb_false_iff, !Z.eqb_neq in E30. lia. }
  assert (Hdoy : 0 <= doy <= 365 /\ (doy = 365 -> m = 2 /\ d = 29)
                 /\ (5 * doy + 2) / 153 = (if 2 <? m then m - 3 else m + 9)
                 /\ doy - (153 * ((5 * doy + 2) / 153) + 2) / 5 + 1 = d).
  { subst doy.
    assert (Hcases : m = 1 \/ m = 2 \/ m = 3 \/ m = 4 \/ m = 5 \/ m = 6 \/ m = 7
                     \/ m = 8 \/ m = 9 \/ m = 10 \/ m = 11 \/ m = 12) by lia.
    repeat (destruct Hcases as [-> | Hcases]; [cbn; Z.div_mod_to_equations; lia |]).
    subst m. cbn. Z.div_mod_to_equations. lia. }
  destruct Hdoy as (Hdoy & Hfeb & Hmp & Hday).
  destruct (doe_year yoe doy Hyoe Hdoy) as [Hdoe Hyear].
  { intros H. destruct (Hfeb H) as [H2 H29]. apply Hleap; assumption. }
  set (doe := yoe * 365 + yoe / 4 - yoe / 100 + doy) in *.
  assert (Hdays : days + 719468 = y' / 400 * 146097 + doe).
  { subst days doe doy yoe y'. unfold Date.days_from_civil. lia. }
  assert (Hera : (days + 719468) / 146097 = y' / 400 /\ Date.day_of_era days = doe).
  { unfold Date.day_of_era. rewrite Hdays. Z.div_mod_to_equations. lia. }
  destruct Hera as [Hera Hde].
  assert (Hdoy' : Date.day_of_year doe = doy).
  { unfold Date.day_of_year. rewrite Hyear. subst doe. lia. }
  assert (Hmfm : Date.month_from_march doe = (if 2 <? m then m - 3 else m + 9)).
  { unfold Date.month_from_march. rewrite Hdoy'. exact Hmp. }
  assert (Hmonth : Date.civil_month doe = m).
  { unfold Date.civil_month. rewrite Hmfm.
    destruct (2 <? m) eqn:E; [apply Z.ltb_lt in E | apply Z.ltb_ge in E].
    - destruct (m - 3 <? 10) eqn:E'; [apply Z.ltb_lt in E' | apply Z.ltb_ge in E']; lia.
    - destruct (m + 9 <? 10) eqn:E'; [apply Z.ltb_lt in E' | apply Z.ltb_ge in E']; lia. }
  split; [| split].
  - unfold Date.civil_year. rewrite Hera, Hde, Hyear, Hmonth. subst yoe y'.
    destruct (m <=? 2); lia.
  - rewrite Hde. exact Hmonth.
  - rewrite Hde. unfold Date.civil_day. rewrite Hdoy', Hmfm, <- Hmp. exact Hday.
Qed.

Lemma parse_iso_utc_timestamp (y m d hh mm ss : Z) :
  0 <= y <= 9999 -> 0 <= m <= 99 -> 0 <= d <= 99 ->
  0 <= hh <= 99 -> 0 <= mm <= 99 -> 0 <= ss <= 99 ->
  Date.parse_iso_utc (iso_utc y m d hh mm ss) = Date.utc_time y m d hh mm ss 0.
Proof.
  intros Hy Hm Hd Hhh Hmm Hss.
  cbv [iso_utc four_digits Str.two_digits String.append].
  unfold Date.parse_iso_utc, Date.parse_time_utc.
  repeat (cbn [Date.take_digits String.eqb Date.expect Ascii.eqb Bool.eqb];
          rewrite !digit_char_is_digit by (Z.div_mod_to_equations; lia)).
  cbn [Date.take_digits String.eqb Date.expect Ascii.eqb Bool.eqb].
  rewrite !digit_value_char by (Z.div_mod_to_equations; lia).
  f_equal; Z.div_mod_to_equations; lia.
Qed.

Lemma days_in_month_range (y m : Z) : 28 <= Date.days_in_month y m <= 31.
Proof.
  unfold Date.days_in_month.
  destruct (m =? 2); [destruct (Date.is_leap y); lia |].
  destruct ((m =? 4) || (m =? 6) || (m =? 9) || (m =? 11)); lia.
Qed.

Lemma utc_time_valid (y m d hh mm ss : Z) :
  1 <= m <= 12 -> 1 <= d <= Date.days_in_month y m ->
  hh <= 23 -> mm <= 59 -> ss <= 59 ->
  Date.utc_time y m d hh mm ss 0
  = Some (Date.days_from_civil y m d * Date.ms_per_day
          + hh * Date.ms_per_hour + mm * 60000 + ss * 1000 + 0).
Proof.
  intros Hm Hd Hhh Hmm Hss. unfold Date.utc_time.
  replace (1 <=? m) with true by (symmetry; apply Z.leb_le; lia).
  replace (m <=? 12) with true by (symmetry; apply Z.leb_le; lia).
  replace (1 <=? d) with true by (symmetry; apply Z.leb_le; lia).
  replace (d <=? Date.days_in_month y m) with true by (symmetry; apply Z.leb_le; lia).
  replace (hh <=? 23) with true by (symmetry; apply Z.leb_le; lia).
  replace (mm <=? 59) with true by (symmetry; apply Z.leb_le; lia).
  replace (ss <=? 59) with true by (symmetry; apply Z.leb_le; lia).
  reflexivity.
Qed.

Lemma of_Z_four_digits (y : Z) : 1000 <= y <= 9999 -> Str.of_Z y = four_digits y.
Proof.
  intros H.
  pose (P := fun z => String.eqb (Str.of_Z z) (four_digits z)).
  assert (Hb : P y = true).
  { apply (all_from_spec P (Z.to_nat 9000) 1000);
      [vm_compute; reflexivity | rewrite Z2Nat.id; lia]. }
  apply String.eqb_eq. exact Hb.
Qed.

(** X17.  A UTC timestamp through the date conversion.  For a field of the
    date type, the text [YYYY-MM-DDTHH:mm:ssZ] of a calendar date and a
    time of day comes out as the year followed by two digits each for
    the month, the day and the hour of that same date: the minutes and
    seconds are dropped and nothing else changes.  From the year 1000 on
    the year has its four digits. *)
Theorem validateValue_utc_timestamp (field : Field) (y m d hh mm ss : Z) :
  getType field = YEAR_MONTH_DAY_HOUR ->
  0 <= y <= 9999 -> 1 <= m <= 12 -> 1 <= d <= Date.days_in_month y m ->
  0 <= hh <= 23 -> 0 <= mm <= 59 -> 0 <= ss <= 59 ->
  validateValue field (VStr (iso_utc y m d hh mm ss))
  = Ok (VStr (String.append (Str.of_Z y)
               (String.append (Str.two_digits m)
                 (String.append (Str.two_digits d) (Str.two_digits hh)))))
  /\ (1000 <= y -> Str.of_Z y = four_digits y).
Proof.
  intros Hty Hy Hm Hd Hhh Hmm Hss.
  pose proof (days_in_month_range y m) as Hdim.
  split; [| intros Hy'; apply of_Z_four_digits; lia].
  unfold validateValue, convertDate, new_Date, Date_parse.
  rewrite Hty, parse_iso_utc_timestamp by lia.
  rewrite utc_time_valid by lia.
  cbn [FieldType_eqb bind Date.getUTCFullYear Date.getUTCMonth Date.getUTCDate
       Date.getUTCHours number_succ JS.number_toString JS.typeof].
  set (days := Date.days_from_civil y m d).
  set (t := days * Date.ms_per_day + hh * Date.ms_per_hour + mm * 60000 + ss * 1000 + 0).
  assert (Hday : Date.day_number t = days).
  { subst t. unfold Date.day_number, Date.ms_per_day, Date.ms_per_hour.
    Z.div_mod_to_equations. lia. }
  assert (Hhour : (t / Date.ms_per_hour) mod 24 = hh).
  { subst t. unfold Date.ms_per_day, Date.ms_per_hour.
    Z.div_mod_to_equations. lia. }
  destruct (civil_of_days_from_civil y m d Hm Hd) as (Hyear & Hmonth & Hdate).
  fold days in Hyear, Hmonth, Hdate.
  rewrite Hday, Hhour, Hyear, Hmonth, Hdate.
  replace (m - 1 + 1) with m by lia.
  rewrite !pad2_two_digits by lia. reflexivity.
Qed.

End Timestamps.

Lemma validateValue_utc_timestamp_witness :
  @validateValue Ref.offline (datetime_field "at") (VStr "2024-02-29T23:59:58Z")
  = Ok (VStr "2024022923").
Proof.
  apply (@validateValue_utc_timestamp Ref.offline (datetime_field "at") 2024 2 29 23 59 58);
    try reflexivity; vm_compute; split; discriminate.
Defined.

(** ** Columns that are not in the row, cells that fail *)

Section Projection.

Context `{host : Host}.

Lemma assoc_absent (seg : string) (props : list (string * value)) :
  (forall k, In k (List.map fst props) -> k <> seg) -> JS.assoc seg props = None.
Proof.
  intros H. destruct (JS.assoc seg props) as [x |] eqn:E; [| reflexivity].
  apply assoc_In in E. exfalso. apply (H seg); [| reflexivity].
  apply (List.in_map fst _ (seg, x)). exact E.
Qed.

Lemma getColumnValue_unmatched (props : list (string * value)) (segs : list string) :
  List.Forall (fun seg => forall k, In k (List.map fst props) ->
                                    k <> seg /\ normalize k <> seg) segs ->
  getColumnValue segs (VObj props) = Ok (VObj props).
Proof.
  induction segs as [| seg rest IH]; intros Hall; [reflexivity |].
  inversion Hall as [| ? ? Hseg Hrest]; subst.
  cbn [getColumnValue JS.get].
  rewrite (assoc_absent seg props) by (intros k Hk; apply (Hseg k Hk)).
  cbn [bind JS.is_null JS.is_undefined negb JS.keys].
  rewrite (find_normalized_none seg (List.map fst props))
    by (intros k Hk; apply (Hseg k Hk)).
  apply IH. exact Hrest.
Qed.

(** X18.  A column that is not in the row.  When no segment of the id
    of a field that is no date is the name of a property of the row, of
    ASCII text, as written or normalized, nor the name of a member of
    its prototype, the cell is not empty: it is the JSON text of the
    whole row. *)
Theorem getColumns_cell_unmatched (props : list (string * value)) (field : Field) :
  JS.ascii_text (VObj props) = true ->
  getType field <> YEAR_MONTH_DAY_HOUR ->
  List.Forall (fun seg => JS.may_inherit (VObj props) seg = false
                          /\ forall k, In k (List.map fst props) ->
                                       k <> seg /\ normalize k <> seg)
              (Str.split Str.dot (getId field)) ->
  getColumns_cell (VObj props) field = Ok (VStr (JSON_stringify (VObj props))).
Proof.
  intros _ Hty Hall. unfold getColumns_cell. cbn [JS.is_null].
  rewrite (getColumnValue_unmatched props).
  - cbn [bind]. rewrite (validateValue_other field (VObj props) Hty). reflexivity.
  - apply List.Forall_forall. intros seg Hseg.
    apply (proj1 (List.Forall_forall _ _) Hall seg Hseg).
Qed.

Lemma mapM_throws {A B : Type} (f : A -> result B) (l : list A) (x : A) (e : exn) :
  In x l -> f x = Throw e -> exists e', mapM f l = Throw e'.
Proof.
  induction l as [| y l IH]; intros Hin Hx; [destruct Hin |].
  cbn [mapM]. destruct Hin as [-> | Hin].
  - rewrite Hx. exists e. reflexivity.
  - destruct (f y) as [b | e0]; cbn [bind]; [| exists e0; reflexivity].
    destruct (IH Hin Hx) as [e' He']. rewrite He'. exists e'. reflexivity.
Qed.

(** X19.  No partial table.  When one cell of one row cannot be produced,
    [getColumns] produces no row at all: it throws. *)
Theorem getColumns_all_or_nothing (content : value) (requestedFields : list Field)
        (row : value) (field : Field) (e : exn) :
  In row (rows_of content) ->
  In field requestedFields ->
  getColumns_cell row field = Throw e ->
  exists e', getColumns content requestedFields = Throw e'.
Proof.
  intros Hrow Hfield Hcell. unfold getColumns.
  destruct (mapM_throws (getColumns_cell row) requestedFields field e Hfield Hcell)
    as [e1 He1].
  apply (mapM_throws (getColumns_row requestedFields) (rows_of content) row e1 Hrow).
  exact He1.
Qed.

End Projection.

Lemma getColumns_cell_unmatched_witness :
  @getColumns_cell Ref.offline (VObj [("Name", VStr "Ann")]) (text_field "age")
  = Ok (VStr (Ref.stringify (VObj [("Name", VStr "Ann")]))).
Proof.
  apply (@getColumns_cell_unmatched Ref.offline [("Name", VStr "Ann")] (text_field "age")).
  - reflexivity.
  - discriminate.
  - apply List.Forall_cons; [| apply List.Forall_nil].
    split; [reflexivity |]. intros k [<- | []]. split; discriminate.
Defined.

Lemma getColumns_all_or_nothing_witness :
  exists e',
    @getColumns Ref.offline
      (VArr [VObj [("a", VObj [("b", VNum (Fin 1))])]; VObj [("A", VNull)]])
      [text_field "a.b"]
    = Throw e'.
Proof.
  apply (@getColumns_all_or_nothing Ref.offline
           (VArr [VObj [("a", VObj [("b", VNum (Fin 1))])]; VObj [("A", VNull)]])
           [text_field "a.b"] (VObj [("A", VNull)]) (text_field "a.b") TypeError).
  - right. left. reflexivity.
  - left. reflexivity.
  - reflexivity.
Defined.
